(** * HMAX_illusion: stimulus generation and filename codec

    A shallow embedding of [data_generation.py] (the Cross-Fin and
    Müller-Lyer samplers, the batch generators and [generate_and_save]) and
    of [Dataset.py] (the two filename-indexed datasets), followed by the
    properties of the specification that can be stated over them.

    Conventions.
    - Python [int] is [Z]; [//] on a positive divisor is [Z.div] (floor).
    - Python [str] is [string]; a character is a code point below 256.  On
      that range the regex class [\d] is exactly ['0'..'9'].
    - The module [random] is a consumer of a tape of raw draws: the
      generators are functions of the tape, so every statement quantified
      over tapes holds for every outcome of the random source.
    - A raised exception is the [Raise] result of a state-and-error monad.

    Limits.  Floating point and memory are idealised: [int(image_size*0.8)]
    is the exact truncated quotient, which the double product gives for
    [|image_size| < 2^49]; [random.choices] keeps the total of the weights
    and the product [random() * total] exact; [Image.new] and the drawing
    always succeed.  Python raises [OverflowError] once a total or a size
    no longer fits a double or a C integer.  A statement about the records
    a call returns is not affected: where Python raises, no record is
    returned.  A statement that a call returns, or that it raises a given
    exception, is made under explicit bounds ([image_size <= 4096],
    [image_size < 2^1023], weights below [2^1000]).  The order of a
    directory listing is not fixed either: statements about [os.listdir]
    hold for every order of the entries. *)

From Stdlib Require Import ZArith NArith List String Ascii Bool Lia.
From Stdlib Require Import Permutation.
Import ListNotations.
Open Scope string_scope.
Open Scope Z_scope.

(** ** Exceptions and the state-and-error monad *)

Inductive exn : Type :=
| ValueError (msg : string)
| UnboundLocalError (name : string)
| IndexError
| RuntimeError (msg : string)
| OSError (path : string).

(** [str(e)], as an f-string field [{e}] prints an exception. *)
Definition exn_text (e : exn) : string :=
  match e with
  | ValueError msg => msg
  | UnboundLocalError name => name
  | IndexError => "list index out of range"
  | RuntimeError msg => msg
  | OSError path => path
  end.

Inductive result (A : Type) : Type :=
| Ok (a : A)
| Raise (e : exn).
Arguments Ok {A} a.
Arguments Raise {A} e.

Definition M (S A : Type) : Type := S -> result (A * S).

Definition ret {S A : Type} (a : A) : M S A := fun s => Ok (a, s).

Definition bind {S A B : Type} (m : M S A) (f : A -> M S B) : M S B :=
  fun s => match m s with
           | Ok (a, s') => f a s'
           | Raise e => Raise e
           end.

Definition raise {S A : Type} (e : exn) : M S A := fun _ => Raise e.

Notation "x <- m ;; k" := (bind m (fun x => k))
  (at level 61, m at next level, right associativity).
Notation "' p <- m ;; k" := (bind m (fun x => match x with p => k end))
  (at level 61, p pattern, m at next level, right associativity).

(** ** Python built-ins: [str] and [int] on integers *)

Definition digit_char (d : N) : ascii := ascii_of_N (48 + d).

Definition is_digit (c : ascii) : bool :=
  let n := N_of_ascii c in ((48 <=? n) && (n <=? 57))%N.

Definition digit_val (c : ascii) : N := (N_of_ascii c - 48)%N.

(** The decimal digits of [n], most significant first, pushed in front of
    [acc]; [fuel] bounds the number of digits after the first. *)
Fixpoint digits_of (fuel : nat) (n : N) (acc : string) : string :=
  let acc' := String (digit_char (n mod 10)) acc in
  match fuel with
  | O => acc'
  | S f => if (n / 10 =? 0)%N then acc' else digits_of f (n / 10)%N acc'
  end.

Definition str_N (n : N) : string :=
  digits_of (N.to_nat (N.log2 n)) n "".

(** [str(z)] as an f-string field [{z}] prints it. *)
Definition str (z : Z) : string :=
  match z with
  | Zneg p => String "-" (str_N (Npos p))
  | _ => str_N (Z.to_N z)
  end.

Fixpoint all_digits (s : string) : bool :=
  match s with
  | EmptyString => true
  | String c s' => is_digit c && all_digits s'
  end.

Fixpoint int_acc (s : string) (a : N) : N :=
  match s with
  | EmptyString => a
  | String c s' => int_acc s' (10 * a + digit_val c)%N
  end.

(** [int(s)] on the strings this program passes to it (regex groups):
    a non-empty run of decimal digits; anything else is a [ValueError].
    Signs, blanks and digit separators, which [int] also accepts, never
    reach it here. *)
Definition int (s : string) : result Z :=
  match s with
  | EmptyString => Raise (ValueError "invalid literal for int()")
  | _ => if all_digits s then Ok (Z.of_N (int_acc s 0))
         else Raise (ValueError "invalid literal for int()")
  end.

(** ** The module [random], driven by a tape of raw draws *)

Module random.

(** The remaining raw draws; an exhausted tape keeps yielding [0]. *)
Definition tape : Type := list N.

Definition next_raw (t : tape) : N * tape :=
  match t with
  | [] => (0%N, [])
  | k :: t' => (k, t')
  end.

(** [_randbelow(n)] for [n > 0]: a value of [0 .. n-1]. *)
Definition randbelow (n : Z) : M tape Z :=
  fun t => let '(k, t') := next_raw t in Ok (Z.of_N k mod n, t').

(** [randint(a, b)] is [randrange(a, b+1)]: [a + _randbelow(b+1-a)],
    and a [ValueError] on an empty range. *)
Definition randint (a b : Z) : M tape Z :=
  let width := b + 1 - a in
  if 0 <? width
  then (r <- randbelow width ;; ret (a + r))
  else raise (ValueError "empty range for randrange()").

(** [random()] is [k / 2^53] for a 53-bit [k]; only the numerator is
    kept. *)
Definition two53 : Z := 9007199254740992.

Definition random53 : M tape Z :=
  fun t => let '(k, t') := next_raw t in Ok (Z.of_N k mod two53, t').

Fixpoint accumulate (acc : Z) (ws : list Z) : list Z :=
  match ws with
  | [] => []
  | w :: ws' => (acc + w) :: accumulate (acc + w) ws'
  end.

(** [bisect_right(a, x, lo, hi)] where [x = num / 2^53]: the loop
    [while lo < hi: mid = (lo+hi)//2; if x < a[mid]: hi = mid
    else: lo = mid+1]. *)
Fixpoint bisect (fuel : nat) (a : list Z) (num : Z) (lo hi : nat) : nat :=
  match fuel with
  | O => lo
  | S f =>
    if (lo <? hi)%nat then
      let mid := ((lo + hi) / 2)%nat in
      if num <? nth mid a 0 * two53
      then bisect f a num lo mid
      else bisect f a num (S mid) hi
    else lo
  end.

(** [choices(population, weights=weights)[0]] with integer weights.
    The draw [random() * total] is kept as the exact fraction
    [k * total / 2^53]; the conversion of the total to a double, which
    raises [OverflowError] from about [2^1024] on, is left out. *)
Definition choices {A : Type} (population : list A) (weights : list Z)
  : M tape A :=
  let cum_weights := accumulate 0 weights in
  let n := List.length population in
  if negb (List.length cum_weights =? n)%nat
  then raise (ValueError "The number of weights does not match the population")
  else
    let total := last cum_weights 0 in
    if total <=? 0
    then raise (ValueError "Total of weights must be greater than zero")
    else
      k <- random53 ;;
      match nth_error population (bisect n cum_weights (k * total) 0 (n - 1)) with
      | Some x => ret x
      | None => raise IndexError
      end.

End random.

(** A tuple slice [t[lo:hi]] for [0 <= lo <= hi]. *)
Definition slice {A : Type} (t : list A) (lo hi : nat) : list A :=
  firstn (hi - lo) (skipn lo t).

(** ** [data_generation.py] *)

Module data_generation.

Import random.

(** *** Images, as the drawing commands issued on them

    Fin tips have floating-point coordinates
    [x0 ± fin_length * sin(angle)], [y0 ± fin_length * cos(angle)]; they
    are kept symbolic: the endpoint, the two signs, the fin length and the
    angle in degrees. *)

Inductive stroke : Type :=
| Shaft (left right : Z * Z)
| Fin (center : Z * Z) (sign_x sign_y : Z) (fin_length angle_deg : Z).

Record Image : Type := mkImage {
  img_mode : string;
  img_size : Z * Z;
  img_background : string;
  img_strokes : list stroke
}.

(** [draw.line(...)] appends one stroke. *)
Definition draw_line (img : Image) (s : stroke) : Image :=
  mkImage (img_mode img) (img_size img) (img_background img)
          (img_strokes img ++ [s])%list.

(** The nested [draw_cross_fins]: up-left, up-right, down-left,
    down-right. *)
Definition draw_cross_fins (img : Image) (center : Z * Z)
           (fin_length angle_deg : Z) : Image :=
  let img := draw_line img (Fin center (-1) (-1) fin_length angle_deg) in
  let img := draw_line img (Fin center 1 (-1) fin_length angle_deg) in
  let img := draw_line img (Fin center (-1) 1 fin_length angle_deg) in
  draw_line img (Fin center 1 1 fin_length angle_deg).

(** The nested [draw_arrowhead]: both strokes go back from the tip. *)
Definition draw_arrowhead (img : Image) (center : Z * Z)
           (fin_length angle_deg : Z) (direction : string) : Image :=
  let img :=
    if (direction =? "right")%string then
      let img := draw_line img (Fin center (-1) (-1) fin_length angle_deg) in
      draw_line img (Fin center (-1) 1 fin_length angle_deg)
    else img in
  if (direction =? "left")%string then
    let img := draw_line img (Fin center 1 (-1) fin_length angle_deg) in
    draw_line img (Fin center 1 1 fin_length angle_deg)
  else img.

(** [int(image_size*0.8)].  For [|image_size| < 2^49] the double product
    truncates to the same integer as the exact [4*image_size/5]: the
    constant [0.8] is off by a factor [1 + 2^-54], which moves the product
    by less than [1/8], and an exact product that is not an integer is at
    least [1/5] away from one.  Beyond that range the quotient idealises
    the product, which Python cannot form at all from about [2^1024] on
    ([OverflowError]). *)
Definition int_mul_0_8 (image_size : Z) : Z := Z.quot (image_size * 4) 5.

(** The [params] dictionary of a Cross-Fin image, one field per key. *)
Record xf_config : Type := mk_xf_config {
  xf_label : Z;
  xf_length_case : string;
  xf_fin_case : string;
  xf_top_length : Z;
  xf_bottom_length : Z;
  xf_top_fin_length : Z;
  xf_top_fin_angle_deg : Z;
  xf_bottom_fin_length : Z;
  xf_bottom_fin_angle_deg : Z;
  xf_top_y : Z;
  xf_bottom_y : Z
}.

(** The [params] dictionary of a Müller-Lyer image. *)
Record ml_config : Type := mk_ml_config {
  ml_label : Z;
  ml_top_dir_case : string;
  ml_bottom_dir_case : string;
  ml_fin_case : string;
  ml_shaft_length : Z;
  ml_top_fin_length : Z;
  ml_top_fin_angle_deg : Z;
  ml_bottom_fin_length : Z;
  ml_bottom_fin_angle_deg : Z;
  ml_top_y : Z;
  ml_bottom_y : Z
}.

(** The shaft lengths of a Cross-Fin image (lines 34-47): the rebound
    [length_case], [top_length] and [bottom_length].  With [label == 1] and
    a [length_case] that is neither [LONG] nor [SHORT] no length is bound
    and the next statement, which reads [top_length], raises. *)
Definition xf_shaft_lengths (label : Z) (length_case : string)
           (min_length max_length : Z) : M tape (string * Z * Z) :=
  if label =? 1 then
    if (length_case =? "LONG")%string then
      top_length <- randint min_length max_length ;;
      delta <- randint 2 62 ;;
      let bottom_length := Z.max min_length (top_length - delta) in
      ret (length_case, top_length, bottom_length)
    else if (length_case =? "SHORT")%string then
      bottom_length <- randint min_length max_length ;;
      delta <- randint 2 62 ;;
      let top_length := Z.max min_length (bottom_length - delta) in
      ret (length_case, top_length, bottom_length)
    else raise (UnboundLocalError "top_length")
  else
    let length_case := "EQUAL" in
    top_length <- randint min_length max_length ;;
    let bottom_length := top_length in
    ret (length_case, top_length, bottom_length).

Definition generate_xf_image (label : Z) (length_case fin_case : string)
           (image_size : Z) : M tape (Image * xf_config) :=
  top_y <- randint (image_size / 5) (image_size / 5 * 2) ;;
  bottom_y <- randint (image_size / 5 * 3) (image_size / 5 * 4) ;;
  let min_length := 45 in
  let max_length := int_mul_0_8 image_size in
  '(length_case, top_length, bottom_length) <-
    xf_shaft_lengths label length_case min_length max_length ;;
  let top_x := image_size / 2 - top_length / 2 in
  let bottom_x := image_size / 2 - bottom_length / 2 in
  top_fin_length <- randint 10 (Z.min 35 (top_length / 3)) ;;
  top_fin_angle_deg <- randint 15 75 ;;
  '(bottom_fin_length, bottom_fin_angle_deg) <-
    (if (fin_case =? "SAME_CONFIG")%string then
       ret (top_fin_length, top_fin_angle_deg)
     else
       bottom_fin_length <- randint 10 (Z.min 35 (bottom_length / 3)) ;;
       bottom_fin_angle_deg <- randint 15 75 ;;
       ret (bottom_fin_length, bottom_fin_angle_deg)) ;;
  let img := mkImage "RGB" (image_size, image_size) "white" [] in
  let top_line_left := (top_x, top_y) in
  let top_line_right := (top_x + top_length, top_y) in
  let bottom_line_left := (bottom_x, bottom_y) in
  let bottom_line_right := (bottom_x + bottom_length, bottom_y) in
  let img := draw_line img (Shaft top_line_left top_line_right) in
  let img := draw_line img (Shaft bottom_line_left bottom_line_right) in
  let img := draw_cross_fins img top_line_left top_fin_length top_fin_angle_deg in
  let img := draw_cross_fins img top_line_right top_fin_length top_fin_angle_deg in
  let img := draw_cross_fins img bottom_line_left bottom_fin_length bottom_fin_angle_deg in
  let img := draw_cross_fins img bottom_line_right bottom_fin_length bottom_fin_angle_deg in
  let params :=
    mk_xf_config label length_case fin_case top_length bottom_length
                 top_fin_length top_fin_angle_deg
                 bottom_fin_length bottom_fin_angle_deg top_y bottom_y in
  ret (img, params).

(** The tuple [case_ratio] is a list of integer weights. *)
Fixpoint xf_loop (n : nat) (case_ratio : list Z) (image_size : Z)
         (images : list Image) (configs : list xf_config)
  : M tape (list Image * list xf_config) :=
  match n with
  | O => ret (images, configs)
  | S n' =>
    lbl <- randint 0 1 ;;
    fin_case <- choices ["SAME_CONFIG"; "DIFF_CONFIG"] (slice case_ratio 4 6) ;;
    length_case <-
      (if lbl =? 1
       then choices ["LONG"; "SHORT"] (slice case_ratio 2 4)
       else ret "EQUAL") ;;
    '(img, params) <- generate_xf_image lbl length_case fin_case image_size ;;
    xf_loop n' case_ratio image_size (images ++ [img])%list (configs ++ [params])%list
  end.

Definition generate_xf_dataset (num_images : Z) (case_ratio : list Z)
           (image_size : Z) : M tape (list Image * list xf_config) :=
  xf_loop (Z.to_nat num_images) case_ratio image_size [] [].

Definition generate_muller_lyer_image
           (top_dir_case bottom_dir_case fin_case : string) (image_size : Z)
  : M tape (Image * ml_config) :=
  top_y <- randint (image_size / 5) (image_size / 5 * 2) ;;
  bottom_y <- randint (image_size / 5 * 3) (image_size / 5 * 4) ;;
  let min_length := 45 in
  let max_length := int_mul_0_8 image_size in
  shaft_length <- randint min_length max_length ;;
  let top_length := shaft_length in
  let bottom_length := shaft_length in
  let top_x := image_size / 2 - top_length / 2 in
  let bottom_x := image_size / 2 - bottom_length / 2 in
  top_fin_length <- randint 15 (Z.min 35 (top_length / 3)) ;;
  top_fin_angle_deg <- randint 15 75 ;;
  '(bottom_fin_length, bottom_fin_angle_deg) <-
    (if (fin_case =? "SAME_CONFIG")%string then
       ret (top_fin_length, top_fin_angle_deg)
     else
       bottom_fin_length <- randint 15 (Z.min 35 (bottom_length / 3)) ;;
       bottom_fin_angle_deg <- randint 15 75 ;;
       ret (bottom_fin_length, bottom_fin_angle_deg)) ;;
  let img := mkImage "RGB" (image_size, image_size) "white" [] in
  let top_line_left := (top_x, top_y) in
  let top_line_right := (top_x + top_length, top_y) in
  let bottom_line_left := (bottom_x, bottom_y) in
  let bottom_line_right := (bottom_x + bottom_length, bottom_y) in
  let img := draw_line img (Shaft top_line_left top_line_right) in
  let img := draw_line img (Shaft bottom_line_left bottom_line_right) in
  let arrows img (l r : string) (on_left on_right : Z * Z) (len ang : Z) :=
    draw_arrowhead (draw_arrowhead img on_left len ang l) on_right len ang r in
  let img :=
    if (top_dir_case =? "LONG")%string then
      let img := arrows img "right" "left" top_line_left top_line_right
                        top_fin_length top_fin_angle_deg in
      if (bottom_dir_case =? "SAME_DIR")%string then
        arrows img "right" "left" bottom_line_left bottom_line_right
               bottom_fin_length bottom_fin_angle_deg
      else if (bottom_dir_case =? "DIFF_DIR")%string then
        arrows img "left" "right" bottom_line_left bottom_line_right
               bottom_fin_length bottom_fin_angle_deg
      else img
    else if (top_dir_case =? "SHORT")%string then
      let img := arrows img "left" "right" top_line_left top_line_right
                        top_fin_length top_fin_angle_deg in
      if (bottom_dir_case =? "SAME_DIR")%string then
        arrows img "left" "right" bottom_line_left bottom_line_right
               bottom_fin_length bottom_fin_angle_deg
      else if (bottom_dir_case =? "DIFF_DIR")%string then
        arrows img "right" "left" bottom_line_left bottom_line_right
               bottom_fin_length bottom_fin_angle_deg
      else img
    else img in
  let params :=
    mk_ml_config 0 top_dir_case bottom_dir_case fin_case shaft_length
                 top_fin_length top_fin_angle_deg
                 bottom_fin_length bottom_fin_angle_deg top_y bottom_y in
  ret (img, params).

Fixpoint ml_loop (n : nat) (case_ratio : list Z) (image_size : Z)
         (images : list Image) (configs : list ml_config)
  : M tape (list Image * list ml_config) :=
  match n with
  | O => ret (images, configs)
  | S n' =>
    top_dir_case <- choices ["LONG"; "SHORT"] (slice case_ratio 2 4) ;;
    bottom_dir_case <- choices ["SAME_DIR"; "DIFF_DIR"] (slice case_ratio 4 6) ;;
    fin_case <- choices ["SAME_CONFIG"; "DIFF_CONFIG"] (slice case_ratio 4 6) ;;
    '(img, params) <-
      generate_muller_lyer_image top_dir_case bottom_dir_case fin_case image_size ;;
    ml_loop n' case_ratio image_size (images ++ [img])%list (configs ++ [params])%list
  end.

Definition generate_muller_lyer_dataset (num_images : Z) (case_ratio : list Z)
           (image_size : Z) : M tape (list Image * list ml_config) :=
  ml_loop (Z.to_nat num_images) case_ratio image_size [] [].

(** *** The file system touched by [generate_and_save] *)

Inductive node : Type :=
| Dir
| File (content : Image).

Definition filesystem : Type := list (string * node).

Record world : Type := mkWorld {
  w_rng : tape;
  w_fs : filesystem
}.

Definition lookup (fs : filesystem) (path : string) : option node :=
  match find (fun e => (fst e =? path)%string) fs with
  | Some e => Some (snd e)
  | None => None
  end.

(** The generators run on the random source of the world. *)
Definition with_rng {A : Type} (m : M tape A) : M world A :=
  fun w => match m (w_rng w) with
           | Ok (a, t') => Ok (a, mkWorld t' (w_fs w))
           | Raise e => Raise e
           end.

Definition os_path_exists (path : string) : M world bool :=
  fun w => Ok (match lookup (w_fs w) path with Some _ => true | None => false end, w).

Definition os_makedirs (path : string) : M world unit :=
  fun w => match lookup (w_fs w) path with
           | Some _ => Raise (OSError path)
           | None => Ok (tt, mkWorld (w_rng w) (w_fs w ++ [(path, Dir)])%list)
           end.

(** [path] cut at its last ['/']: the directory and the file name. *)
Fixpoint split_path (path : string) : option (string * string) :=
  match path with
  | EmptyString => None
  | String c rest =>
    match split_path rest with
    | Some (d, b) => Some (String c d, b)
    | None => if (c =? "/")%char then Some (EmptyString, rest) else None
    end
  end.

Definition write_file (fs : filesystem) (path : string) (img : Image)
  : filesystem :=
  (filter (fun e => negb (fst e =? path)%string) fs ++ [(path, File img)])%list.

(** [img.save(path)]: the directory of [path] has to exist. *)
Definition Image_save (img : Image) (path : string) : M world unit :=
  fun w =>
    let parent_ok :=
      match split_path path with
      | Some (d, _) => match lookup (w_fs w) d with Some Dir => true | _ => false end
      | None => true
      end in
    match parent_ok, lookup (w_fs w) path with
    | true, Some Dir => Raise (OSError path)
    | true, _ => Ok (tt, mkWorld (w_rng w) (write_file (w_fs w) path img))
    | false, _ => Raise (OSError path)
    end.

(** The file name inside the f-string of line 354, after the directory. *)
Definition xf_filename (i : Z) (config : xf_config) : string :=
  "xf_" ++ str i ++ "_" ++ str (xf_label config)
  ++ "_" ++ xf_length_case config ++ "_" ++ xf_fin_case config
  ++ "_" ++ str (xf_top_length config) ++ "_" ++ str (xf_bottom_length config)
  ++ "_" ++ str (xf_top_fin_length config)
  ++ "_" ++ str (xf_top_fin_angle_deg config)
  ++ "_" ++ str (xf_bottom_fin_length config)
  ++ "_" ++ str (xf_bottom_fin_angle_deg config)
  ++ "_" ++ str (xf_top_y config) ++ "_" ++ str (xf_bottom_y config) ++ ".png".

(** The file name inside the f-string of line 361. *)
Definition ml_filename (i : Z) (config : ml_config) : string :=
  "ml_" ++ str i ++ "_" ++ str (ml_label config)
  ++ "_" ++ ml_top_dir_case config ++ "_" ++ ml_bottom_dir_case config
  ++ "_" ++ ml_fin_case config
  ++ "_" ++ str (ml_shaft_length config)
  ++ "_" ++ str (ml_top_fin_length config)
  ++ "_" ++ str (ml_top_fin_angle_deg config)
  ++ "_" ++ str (ml_bottom_fin_length config)
  ++ "_" ++ str (ml_bottom_fin_angle_deg config)
  ++ "_" ++ str (ml_top_y config) ++ "_" ++ str (ml_bottom_y config) ++ ".png".

(** [for i, (img, config) in enumerate(zip(imgs, configs)): img.save(...)] *)
Fixpoint save_all {C : Type} (dir : string) (filename : Z -> C -> string)
         (i : Z) (items : list (Image * C)) : M world unit :=
  match items with
  | [] => ret tt
  | (img, config) :: rest =>
    _ <- Image_save img (dir ++ "/" ++ filename i config) ;;
    save_all dir filename (i + 1) rest
  end.

Definition generate_and_save (type : string) (num_images : Z)
           (case_ratio : list Z) (image_size : Z) : M world unit :=
  if (type =? "train")%string then
    '(imgs, configs) <- with_rng (generate_xf_dataset num_images case_ratio image_size) ;;
    ex <- os_path_exists "training_data" ;;
    _ <- (if negb ex then os_makedirs "training_data" else ret tt) ;;
    save_all "training_data" xf_filename 0 (combine imgs configs)
  else if (type =? "test")%string then
    '(imgs, configs) <- with_rng (generate_muller_lyer_dataset num_images case_ratio image_size) ;;
    ex <- os_path_exists "test_data" ;;
    _ <- (if negb ex then os_makedirs "test_data" else ret tt) ;;
    save_all "test_data" ml_filename 0 (combine imgs configs)
  else ret tt.

End data_generation.

(** ** The fragment of [re] used by [Dataset.py]

    Python's matcher is a backtracking one: a greedy [\d+] takes the
    longest run of digits first and gives digits back one at a time while
    the rest of the pattern fails; an alternation tries its branches from
    left to right.  [$] (without [re.MULTILINE]) matches at the end of the
    string and also just before a newline that is the last character. *)

Module re.

Inductive atom : Type :=
| Bos                          (* ^ *)
| Eos                          (* $ *)
| Lit (s : string)             (* literal text, [\.] included *)
| Digits                       (* the group (\d+) *)
| OneOf (cs : list ascii)      (* a group around a class, ([01]) *)
| AltLit (alts : list string). (* a group of literal branches, (A|B|C) *)

Definition pattern : Type := list atom.

Fixpoint strip_prefix (p s : string) : option string :=
  match p with
  | EmptyString => Some s
  | String a p' =>
    match s with
    | String b s' => if (a =? b)%char then strip_prefix p' s' else None
    | EmptyString => None
    end
  end.

Section Backtracking.

Context {R : Type}.
(** The rest of the pattern, given the text of the group and what follows. *)
Variable k : string -> string -> option R.

(** [acc] holds the digits taken so far; at least one more is needed. *)
Fixpoint many1_digits (acc s : string) : option R :=
  match s with
  | String c s' =>
    if is_digit c then
      let acc' := acc ++ String c EmptyString in
      match many1_digits acc' s' with
      | Some r => Some r
      | None => k acc' s'
      end
    else None
  | EmptyString => None
  end.

Fixpoint try_alts (alts : list string) (s : string) : option R :=
  match alts with
  | [] => None
  | a :: alts' =>
    match strip_prefix a s with
    | Some rest =>
      match k a rest with
      | Some r => Some r
      | None => try_alts alts' s
      end
    | None => try_alts alts' s
    end
  end.

End Backtracking.

(** The groups of a match of [p] against [s], which starts at offset
    [pos] of the subject. *)
Fixpoint exec (p : pattern) (pos : nat) (s : string) (groups : list string)
  : option (list string) :=
  match p with
  | [] => Some groups
  | Bos :: p' => if (pos =? 0)%nat then exec p' pos s groups else None
  | Eos :: p' =>
    match s with
    | EmptyString => exec p' pos s groups
    | String "010"%char EmptyString => exec p' pos s groups
    | _ => None
    end
  | Lit l :: p' =>
    match strip_prefix l s with
    | Some rest => exec p' (pos + String.length l) rest groups
    | None => None
    end
  | Digits :: p' =>
    many1_digits
      (fun g rest => exec p' (pos + String.length g) rest (groups ++ [g])%list)
      EmptyString s
  | OneOf cs :: p' =>
    match s with
    | String c rest =>
      if existsb (Ascii.eqb c) cs
      then exec p' (S pos) rest (groups ++ [String c EmptyString])%list
      else None
    | EmptyString => None
    end
  | AltLit alts :: p' =>
    try_alts
      (fun g rest => exec p' (pos + String.length g) rest (groups ++ [g])%list)
      alts s
  end.

(** [pattern.match(s)]: the match object is the list of its groups. *)
Definition match_ (p : pattern) (s : string) : option (list string) :=
  exec p 0 s [].

(** [m.group(i)] for [i >= 1]. *)
Definition group (m : list string) (i : nat) : string :=
  nth (i - 1) m EmptyString.

End re.

(** ** [Dataset.py] *)

Module Dataset.

Import re.

Definition IMG_SIZE : Z := 256.

(** The family name in the printed messages; its second character is the
    code point 252. *)
Definition Muller_Lyer : string := "M" ++ String "252"%char "ller-Lyer".

(** The state is the text printed so far. *)
Definition console : Type := list string.

Definition print (line : string) : M console unit :=
  fun out => Ok (tt, (out ++ [line])%list).

Definition lift {A : Type} (r : result A) : M console A :=
  fun out => match r with
             | Ok a => Ok (a, out)
             | Raise e => Raise e
             end.

(** [try: body / except Exception as e: handler].  The bodies guarded in
    this file print nothing before they raise. *)
Definition try_except {A : Type} (body : M console A)
           (handler : exn -> M console A) : M console A :=
  fun out => match body out with
             | Ok r => Ok r
             | Raise e => handler e out
             end.

(** [l[idx]] on a list, negative indices counting from the end. *)
Definition getitem {A : Type} (l : list A) (idx : Z) : result A :=
  let n := Z.of_nat (List.length l) in
  let i := if idx <? 0 then idx + n else idx in
  if (0 <=? i) && (i <? n) then
    match nth_error l (Z.to_nat i) with
    | Some x => Ok x
    | None => Raise IndexError
    end
  else Raise IndexError.

(** [os.path.join(data_dir, fname)] on POSIX. *)
Definition os_path_join (a b : string) : string :=
  match b with
  | String "/"%char _ => b
  | _ =>
    match a with
    | EmptyString => b
    | _ =>
      match String.get (String.length a - 1) a with
      | Some "/"%char => a ++ b
      | _ => a ++ "/" ++ b
      end
    end
  end.

(** The pattern of [CrossFinDataset.__init__] (lines 27-36). *)
Definition xf_pattern : pattern :=
  [ Bos; Lit "xf_"; Digits; Lit "_";
    OneOf ["0"%char; "1"%char]; Lit "_";
    AltLit ["EQUAL"; "LONG"; "SHORT"]; Lit "_";
    AltLit ["SAME_CONFIG"; "DIFF_CONFIG"]; Lit "_";
    Digits; Lit "_"; Digits; Lit "_";
    Digits; Lit "_"; Digits; Lit "_";
    Digits; Lit "_"; Digits; Lit "_";
    Digits; Lit "_"; Digits; Lit ".png"; Eos ].

(** The pattern of [MullerLyerDataset.__init__] (lines 96-106). *)
Definition ml_pattern : pattern :=
  [ Bos; Lit "ml_"; Digits; Lit "_";
    OneOf ["0"%char; "1"%char]; Lit "_";
    AltLit ["LONG"; "SHORT"]; Lit "_";
    AltLit ["DIFF_DIR"; "SAME_DIR"]; Lit "_";
    AltLit ["SAME_CONFIG"; "DIFF_CONFIG"]; Lit "_";
    Digits; Lit "_";
    Digits; Lit "_"; Digits; Lit "_";
    Digits; Lit "_"; Digits; Lit "_";
    Digits; Lit "_"; Digits; Lit ".png"; Eos ].

(** The dictionary [p] of a Cross-Fin entry, one field per key. *)
Record xf_params : Type := mk_xf_params {
  xf_index : Z;
  xf_label : Z;
  xf_length_case : string;
  xf_fin_case : string;
  xf_top_length : Z;
  xf_bottom_length : Z;
  xf_top_fin_length : Z;
  xf_top_fin_angle : Z;
  xf_bot_fin_length : Z;
  xf_bot_fin_angle : Z;
  xf_top_y : Z;
  xf_bottom_y : Z;
  xf_filename : string
}.

(** The dictionary [params] of a Müller-Lyer entry. *)
Record ml_params : Type := mk_ml_params {
  ml_index : Z;
  ml_label : Z;
  ml_top_dir : string;
  ml_bottom_dir : string;
  ml_fin_case : string;
  ml_shaft_len : Z;
  ml_top_fin_len : Z;
  ml_top_fin_ang : Z;
  ml_bot_fin_len : Z;
  ml_bot_fin_ang : Z;
  ml_top_y : Z;
  ml_bottom_y : Z;
  ml_filename : string
}.

(** The dictionary display of lines 46-60, evaluated key by key. *)
Definition xf_build (m : list string) (fname : string) : result xf_params :=
  match int (group m 1), int (group m 2) with
  | Ok index, Ok label =>
    let length_case := group m 3 in
    let fin_case := group m 4 in
    match int (group m 5), int (group m 6), int (group m 7), int (group m 8) with
    | Ok top_length, Ok bottom_length, Ok top_fin_length, Ok top_fin_angle =>
      match int (group m 9), int (group m 10), int (group m 11), int (group m 12) with
      | Ok bot_fin_length, Ok bot_fin_angle, Ok top_y, Ok bottom_y =>
        Ok (mk_xf_params index label length_case fin_case
                         top_length bottom_length top_fin_length top_fin_angle
                         bot_fin_length bot_fin_angle top_y bottom_y fname)
      | Raise e, _, _, _ | _, Raise e, _, _ | _, _, Raise e, _ | _, _, _, Raise e => Raise e
      end
    | Raise e, _, _, _ | _, Raise e, _, _ | _, _, Raise e, _ | _, _, _, Raise e => Raise e
    end
  | Raise e, _ | _, Raise e => Raise e
  end.

(** The dictionary display of lines 117-131. *)
Definition ml_build (m : list string) (filename : string) : result ml_params :=
  match int (group m 1), int (group m 2) with
  | Ok index, Ok label =>
    let top_dir := group m 3 in
    let bottom_dir := group m 4 in
    let fin_case := group m 5 in
    match int (group m 6), int (group m 7), int (group m 8), int (group m 9) with
    | Ok shaft_len, Ok top_fin_len, Ok top_fin_ang, Ok bot_fin_len =>
      match int (group m 10), int (group m 11), int (group m 12) with
      | Ok bot_fin_ang, Ok top_y, Ok bottom_y =>
        Ok (mk_ml_params index label top_dir bottom_dir fin_case
                         shaft_len top_fin_len top_fin_ang
                         bot_fin_len bot_fin_ang top_y bottom_y filename)
      | Raise e, _, _ | _, Raise e, _ | _, _, Raise e => Raise e
      end
    | Raise e, _, _, _ | _, Raise e, _, _ | _, _, Raise e, _ | _, _, _, Raise e => Raise e
    end
  | Raise e, _ | _, Raise e => Raise e
  end.

(** [decode]: the grammar match followed by the construction of the
    record, as one iteration of the scanning loop performs them. *)
Definition xf_decode (fname : string) : option (result xf_params) :=
  match match_ xf_pattern fname with
  | Some m => Some (xf_build m fname)
  | None => None
  end.

Definition ml_decode (filename : string) : option (result ml_params) :=
  match match_ ml_pattern filename with
  | Some m => Some (ml_build m filename)
  | None => None
  end.

Section Collaborators.

(** What the datasets use from [os], [PIL] and [torch]: the directory
    listing, the image reader, the conversion of an image, a new
    single-colour image, and the type [Img] of images and of whatever a
    [transform] returns. *)
Variable Img : Type.
Variable os_listdir : string -> result (list string).
Variable Image_open : string -> result Img.
Variable Image_convert : Img -> string -> result Img.
Variable Image_new : string -> Z * Z -> Z -> Img.

Record CrossFinDataset : Type := mk_CrossFinDataset {
  xf_data_dir : string;
  xf_transform : option (Img -> result Img);
  xf_image_files : list string;
  xf_params_list : list xf_params
}.

Record MullerLyerDataset : Type := mk_MullerLyerDataset {
  ml_data_dir : string;
  ml_transform : option (Img -> result Img);
  ml_image_files : list string;
  ml_image_params : list ml_params
}.

(** The loop of lines 41-62 over the directory listing. *)
Fixpoint xf_scan (names : list string)
         (image_files : list string) (params : list xf_params)
  : M console (list string * list xf_params) :=
  match names with
  | [] => ret (image_files, params)
  | fname :: rest =>
    match xf_decode fname with
    | None => xf_scan rest image_files params
    | Some built =>
      p <- lift built ;;
      xf_scan rest (image_files ++ [fname])%list (params ++ [p])%list
    end
  end.

Definition CrossFinDataset_init (data_dir : string)
           (transform : option (Img -> result Img))
  : M console CrossFinDataset :=
  names <- lift (os_listdir data_dir) ;;
  '(image_files, params) <- xf_scan names [] [] ;;
  match image_files with
  | [] => raise (RuntimeError ("No valid CrossFin images found in " ++ data_dir))
  | _ =>
    _ <- print ("Found " ++ str (Z.of_nat (List.length image_files))
                ++ " CrossFin images in " ++ data_dir) ;;
    ret (mk_CrossFinDataset data_dir transform image_files params)
  end.

Definition CrossFinDataset_len (self : CrossFinDataset) : Z :=
  Z.of_nat (List.length (xf_image_files self)).

(** [CrossFinDataset.__getitem__]: the image and the label tensor, which
    holds the integer [p['label']]. *)
Definition CrossFinDataset_getitem (self : CrossFinDataset) (idx : Z)
  : M console (Img * Z) :=
  fname <- lift (getitem (xf_image_files self) idx) ;;
  p <- lift (getitem (xf_params_list self) idx) ;;
  let path := os_path_join (xf_data_dir self) fname in
  opened <- lift (Image_open path) ;;
  img <- lift (Image_convert opened "L") ;;
  img <- match xf_transform self with
         | Some transform => lift (transform img)
         | None => ret img
         end ;;
  let label_tensor := xf_label p in
  ret (img, label_tensor).

(** The loop of lines 112-137. *)
Fixpoint ml_scan (names : list string)
         (image_files : list string) (image_params : list ml_params)
  : M console (list string * list ml_params) :=
  match names with
  | [] => ret (image_files, image_params)
  | filename :: rest =>
    match ml_decode filename with
    | Some built =>
      '(image_files, image_params) <-
        try_except
          (params <- lift built ;;
           ret ((image_files ++ [filename])%list, (image_params ++ [params])%list))
          (fun e =>
             _ <- print ("Warning: Error parsing parameters from " ++ filename
                         ++ ": " ++ exn_text e) ;;
             ret (image_files, image_params)) ;;
      ml_scan rest image_files image_params
    | None => ml_scan rest image_files image_params
    end
  end.

Definition MullerLyerDataset_init (data_dir : string)
           (transform : option (Img -> result Img))
  : M console MullerLyerDataset :=
  _ <- print ("Scanning directory: " ++ data_dir) ;;
  names <- lift (os_listdir data_dir) ;;
  '(image_files, image_params) <- ml_scan names [] [] ;;
  match image_files with
  | [] => raise (RuntimeError ("No valid " ++ Muller_Lyer
                               ++ " image files found in "
                               ++ data_dir ++ " matching the pattern."))
  | _ =>
    _ <- print ("Found " ++ str (Z.of_nat (List.length image_files))
                ++ " " ++ Muller_Lyer ++ " images.") ;;
    ret (mk_MullerLyerDataset data_dir transform image_files image_params)
  end.

Definition MullerLyerDataset_len (self : MullerLyerDataset) : Z :=
  Z.of_nat (List.length (ml_image_files self)).

(** [MullerLyerDataset.__getitem__]: the image and the whole record. *)
Definition MullerLyerDataset_getitem (self : MullerLyerDataset) (idx : Z)
  : M console (Img * ml_params) :=
  fname <- lift (getitem (ml_image_files self) idx) ;;
  let img_path := os_path_join (ml_data_dir self) fname in
  params <- lift (getitem (ml_image_params self) idx) ;;
  image <-
    try_except
      (opened <- lift (Image_open img_path) ;;
       lift (Image_convert opened "L"))
      (fun e =>
         _ <- print ("Error loading image " ++ img_path ++ ": " ++ exn_text e
                     ++ ". Returning dummy.") ;;
         ret (Image_new "L" (IMG_SIZE, IMG_SIZE) 128)) ;;
  image <- match ml_transform self with
           | Some transform => lift (transform image)
           | None => ret image
           end ;;
  ret (image, params).

End Collaborators.

End Dataset.

(** ** Predicates used in the statements *)

(** The bottom ornament: a copy of the top one under [SAME_CONFIG], a
    fresh draw from the bottom shaft's band otherwise. *)
Definition bottom_fin_ok (lo : Z) (fin_case : string)
           (bottom_length top_fin top_ang bot_fin bot_ang : Z) : Prop :=
  (fin_case = "SAME_CONFIG" /\ bot_fin = top_fin /\ bot_ang = top_ang)
  \/ (fin_case <> "SAME_CONFIG" /\
      lo <= bot_fin <= Z.min 35 (bottom_length / 3) /\ 15 <= bot_ang <= 75).

Definition starts_with_digit (s : string) : bool :=
  match s with
  | String c _ => is_digit c
  | EmptyString => false
  end.

(** A run of decimal digits, as the group [(\d+)] captures one. *)
Definition digit_run (d : string) : Prop :=
  all_digits d = true /\ d <> "".

(** What the batch generator guarantees about a Cross-Fin record: the
    value ranges the file-name grammar relies on. *)
Definition xf_valid (c : data_generation.xf_config) : Prop :=
  (data_generation.xf_label c = 0 \/ data_generation.xf_label c = 1)
  /\ (data_generation.xf_length_case c = "EQUAL"
      \/ data_generation.xf_length_case c = "LONG"
      \/ data_generation.xf_length_case c = "SHORT")
  /\ (data_generation.xf_fin_case c = "SAME_CONFIG"
      \/ data_generation.xf_fin_case c = "DIFF_CONFIG")
  /\ 0 <= data_generation.xf_top_length c
  /\ 0 <= data_generation.xf_bottom_length c
  /\ 0 <= data_generation.xf_top_fin_length c
  /\ 0 <= data_generation.xf_top_fin_angle_deg c
  /\ 0 <= data_generation.xf_bottom_fin_length c
  /\ 0 <= data_generation.xf_bottom_fin_angle_deg c
  /\ 0 <= data_generation.xf_top_y c
  /\ 0 <= data_generation.xf_bottom_y c.

Definition ml_valid (c : data_generation.ml_config) : Prop :=
  data_generation.ml_label c = 0
  /\ (data_generation.ml_top_dir_case c = "LONG"
      \/ data_generation.ml_top_dir_case c = "SHORT")
  /\ (data_generation.ml_bottom_dir_case c = "SAME_DIR"
      \/ data_generation.ml_bottom_dir_case c = "DIFF_DIR")
  /\ (data_generation.ml_fin_case c = "SAME_CONFIG"
      \/ data_generation.ml_fin_case c = "DIFF_CONFIG")
  /\ 0 <= data_generation.ml_shaft_length c
  /\ 0 <= data_generation.ml_top_fin_length c
  /\ 0 <= data_generation.ml_top_fin_angle_deg c
  /\ 0 <= data_generation.ml_bottom_fin_length c
  /\ 0 <= data_generation.ml_bottom_fin_angle_deg c
  /\ 0 <= data_generation.ml_top_y c
  /\ 0 <= data_generation.ml_bottom_y c.

(** The record a dataset holds for the file of a sampled record: the
    same values, under the dataset's keys, with the index and the name. *)
Definition xf_params_of (i : Z) (c : data_generation.xf_config)
  : Dataset.xf_params :=
  Dataset.mk_xf_params
    i (data_generation.xf_label c) (data_generation.xf_length_case c)
    (data_generation.xf_fin_case c)
    (data_generation.xf_top_length c) (data_generation.xf_bottom_length c)
    (data_generation.xf_top_fin_length c)
    (data_generation.xf_top_fin_angle_deg c)
    (data_generation.xf_bottom_fin_length c)
    (data_generation.xf_bottom_fin_angle_deg c)
    (data_generation.xf_top_y c) (data_generation.xf_bottom_y c)
    (data_generation.xf_filename i c).

Definition ml_params_of (i : Z) (c : data_generation.ml_config)
  : Dataset.ml_params :=
  Dataset.mk_ml_params
    i (data_generation.ml_label c) (data_generation.ml_top_dir_case c)
    (data_generation.ml_bottom_dir_case c) (data_generation.ml_fin_case c)
    (data_generation.ml_shaft_length c)
    (data_generation.ml_top_fin_length c)
    (data_generation.ml_top_fin_angle_deg c)
    (data_generation.ml_bottom_fin_length c)
    (data_generation.ml_bottom_fin_angle_deg c)
    (data_generation.ml_top_y c) (data_generation.ml_bottom_y c)
    (data_generation.ml_filename i c).

(** *** The file-name grammars as the specification publishes them

    These two predicates follow §6 of the specification, not the code:
    the tag, the index, the label, the case tokens and the numeric fields,
    joined by underscores and closed by the extension.  The patterns of
    [Dataset.py] are compared with them below. *)

Definition xf_grammar (s : string) : Prop :=
  exists d1 lab lc fc d5 d6 d7 d8 d9 d10 d11 d12,
    digit_run d1 /\ (lab = "0" \/ lab = "1")
    /\ (lc = "EQUAL" \/ lc = "LONG" \/ lc = "SHORT")
    /\ (fc = "SAME_CONFIG" \/ fc = "DIFF_CONFIG")
    /\ digit_run d5 /\ digit_run d6 /\ digit_run d7 /\ digit_run d8
    /\ digit_run d9 /\ digit_run d10 /\ digit_run d11 /\ digit_run d12
    /\ s = "xf_" ++ d1 ++ "_" ++ lab ++ "_" ++ lc ++ "_" ++ fc
           ++ "_" ++ d5 ++ "_" ++ d6 ++ "_" ++ d7 ++ "_" ++ d8
           ++ "_" ++ d9 ++ "_" ++ d10 ++ "_" ++ d11 ++ "_" ++ d12 ++ ".png".

Definition ml_grammar (s : string) : Prop :=
  exists d1 lab td bd fc d6 d7 d8 d9 d10 d11 d12,
    digit_run d1 /\ (lab = "0" \/ lab = "1")
    /\ (td = "LONG" \/ td = "SHORT")
    /\ (bd = "DIFF_DIR" \/ bd = "SAME_DIR")
    /\ (fc = "SAME_CONFIG" \/ fc = "DIFF_CONFIG")
    /\ digit_run d6 /\ digit_run d7 /\ digit_run d8
    /\ digit_run d9 /\ digit_run d10 /\ digit_run d11 /\ digit_run d12
    /\ s = "ml_" ++ d1 ++ "_" ++ lab ++ "_" ++ td ++ "_" ++ bd ++ "_" ++ fc
           ++ "_" ++ d6 ++ "_" ++ d7 ++ "_" ++ d8
           ++ "_" ++ d9 ++ "_" ++ d10 ++ "_" ++ d11 ++ "_" ++ d12 ++ ".png".

Definition newline : string := String "010"%char EmptyString.

Fixpoint last_char (s : string) : option ascii :=
  match s with
  | EmptyString => None
  | String c EmptyString => Some c
  | String _ s' => last_char s'
  end.

(** A well-formed Cross-Fin name, and the same name followed by a
    newline, which is a legal POSIX file name. *)
Definition xf_plain_name : string :=
  "xf_0_1_LONG_DIFF_CONFIG_120_115_15_45_18_50_60_200.png".

Definition xf_newline_name : string := xf_plain_name ++ newline.

Definition ml_plain_name : string :=
  "ml_0_0_LONG_SAME_DIR_SAME_CONFIG_45_15_15_15_15_51_153.png".

Definition ml_newline_name : string := ml_plain_name ++ newline.

(** Names off the grammar: wrong tag, label out of range, unknown token,
    a field missing, a field too many, a letter in a number, a sign, a
    wrong extension, a trailing suffix, a leading blank, the empty name. *)
Definition garbage_names : list string :=
  [ "zz_0_1_LONG_DIFF_CONFIG_120_115_15_45_18_50_60_200.png";
    "xf_0_2_LONG_DIFF_CONFIG_120_115_15_45_18_50_60_200.png";
    "xf_0_1_LONGER_DIFF_CONFIG_120_115_15_45_18_50_60_200.png";
    "xf_0_1_LONG_DIFF_CONFIG_120_115_15_45_18_50_60.png";
    "xf_0_1_LONG_DIFF_CONFIG_120_115_15_45_18_50_60_200_1.png";
    "xf_0_1_LONG_DIFF_CONFIG_120_115_15_4x_18_50_60_200.png";
    "xf_0_1_LONG_DIFF_CONFIG_120_-115_15_45_18_50_60_200.png";
    "xf_0_1_LONG_DIFF_CONFIG_120_115_15_45_18_50_60_200.jpg";
    "xf_0_1_LONG_DIFF_CONFIG_120_115_15_45_18_50_60_200.png.bak";
    " xf_0_1_LONG_DIFF_CONFIG_120_115_15_45_18_50_60_200.png";
    "ml_0_0_LONG_SAME_DIR_SAME_CONFIG_45_15_15_15_15_51.png";
    "ml_0_0_EQUAL_SAME_DIR_SAME_CONFIG_45_15_15_15_15_51_153.png";
    "ml_0_0_LONG_SAME_DIR_SAME_CONFIG_45_15_15_15_15_51_153.PNG";
    "" ].

(** ** Sample runs

    Tapes of raw draws and the records the samplers return on them. *)

Definition tape_long_same : random.tape := [0; 0; 60; 58; 25; 3]%N.

Definition xf_long_same : data_generation.xf_config :=
  data_generation.mk_xf_config 1 "LONG" "SAME_CONFIG" 105 45 35 18 35 18 51 153.

Definition tape_floor : random.tape := [0; 0; 0; 0; 0; 0]%N.

Definition xf_floor : data_generation.xf_config :=
  data_generation.mk_xf_config 1 "LONG" "SAME_CONFIG" 45 45 10 15 10 15 51 153.

Definition xf_equal : data_generation.xf_config :=
  data_generation.mk_xf_config 0 "EQUAL" "SAME_CONFIG" 45 45 10 15 10 15 51 153.

Definition ml_floor : data_generation.ml_config :=
  data_generation.mk_ml_config 0 "LONG" "SAME_DIR" "SAME_CONFIG"
                               45 15 15 15 15 51 153.

(** The records of two requests with a case string outside the documented
    ones, on [tape_floor]. *)
Definition ml_floor_unknown_top : data_generation.ml_config :=
  data_generation.mk_ml_config 0 "EQUAL" "SAME_DIR" "SAME_CONFIG"
                               45 15 15 15 15 51 153.

Definition ml_floor_unknown_bottom : data_generation.ml_config :=
  data_generation.mk_ml_config 0 "SHORT" "NONE" "SAME_CONFIG"
                               45 15 15 15 15 51 153.

Definition raw_max : N := 9007199254740991%N.

(** Three Müller-Lyer case draws at the top of the range, then zeros. *)
Definition tape_high : random.tape := [raw_max; raw_max; raw_max]%N.

(** A first draw of 1 selects [label = 1] in the Cross-Fin loop. *)
Definition tape_label1 : random.tape := [1]%N.

(** File names that fit a grammar and break the invariants of the data
    model: a Cross-Fin name with label 0, case [LONG] and unequal shafts,
    and a Müller-Lyer name with label 1. *)
Definition xf_inconsistent_name : string :=
  "xf_0_0_LONG_DIFF_CONFIG_120_115_15_45_18_50_60_200.png".

Definition xf_inconsistent : Dataset.xf_params :=
  Dataset.mk_xf_params 0 0 "LONG" "DIFF_CONFIG" 120 115 15 45 18 50 60 200
                       xf_inconsistent_name.

Definition ml_inconsistent_name : string :=
  "ml_0_1_LONG_SAME_DIR_SAME_CONFIG_45_15_15_15_15_51_153.png".

Definition ml_inconsistent : Dataset.ml_params :=
  Dataset.mk_ml_params 0 1 "LONG" "SAME_DIR" "SAME_CONFIG" 45 15 15 15 15 51 153
                       ml_inconsistent_name.

(** A directory whose image files cannot be opened. *)
Definition unreadable (path : string) : result Z := Raise (OSError path).

(** ** Predicates and functions used in the further properties *)

(** The names of a listing that a pattern matches, and the records built
    from them, in listing order. *)
Definition xf_matches (name : string) : bool :=
  match Dataset.xf_decode name with Some _ => true | None => false end.

Definition ml_matches (name : string) : bool :=
  match Dataset.ml_decode name with Some _ => true | None => false end.

Definition xf_decoded (names : list string) : list Dataset.xf_params :=
  flat_map (fun name => match Dataset.xf_decode name with
                        | Some (Ok p) => [p]
                        | _ => []
                        end) names.

Definition ml_decoded (names : list string) : list Dataset.ml_params :=
  flat_map (fun name => match Dataset.ml_decode name with
                        | Some (Ok p) => [p]
                        | _ => []
                        end) names.

(** What the pattern alone guarantees about a decoded record. *)
Definition xf_params_wf (p : Dataset.xf_params) : Prop :=
  0 <= Dataset.xf_index p
  /\ (Dataset.xf_label p = 0 \/ Dataset.xf_label p = 1)
  /\ (Dataset.xf_length_case p = "EQUAL" \/ Dataset.xf_length_case p = "LONG"
      \/ Dataset.xf_length_case p = "SHORT")
  /\ (Dataset.xf_fin_case p = "SAME_CONFIG"
      \/ Dataset.xf_fin_case p = "DIFF_CONFIG")
  /\ 0 <= Dataset.xf_top_length p /\ 0 <= Dataset.xf_bottom_length p
  /\ 0 <= Dataset.xf_top_fin_length p /\ 0 <= Dataset.xf_top_fin_angle p
  /\ 0 <= Dataset.xf_bot_fin_length p /\ 0 <= Dataset.xf_bot_fin_angle p
  /\ 0 <= Dataset.xf_top_y p /\ 0 <= Dataset.xf_bottom_y p.

Definition ml_params_wf (p : Dataset.ml_params) : Prop :=
  0 <= Dataset.ml_index p
  /\ (Dataset.ml_label p = 0 \/ Dataset.ml_label p = 1)
  /\ (Dataset.ml_top_dir p = "LONG" \/ Dataset.ml_top_dir p = "SHORT")
  /\ (Dataset.ml_bottom_dir p = "DIFF_DIR" \/ Dataset.ml_bottom_dir p = "SAME_DIR")
  /\ (Dataset.ml_fin_case p = "SAME_CONFIG"
      \/ Dataset.ml_fin_case p = "DIFF_CONFIG")
  /\ 0 <= Dataset.ml_shaft_len p
  /\ 0 <= Dataset.ml_top_fin_len p /\ 0 <= Dataset.ml_top_fin_ang p
  /\ 0 <= Dataset.ml_bot_fin_len p /\ 0 <= Dataset.ml_bot_fin_ang p
  /\ 0 <= Dataset.ml_top_y p /\ 0 <= Dataset.ml_bottom_y p.

(** The names of the entries directly under [dir] in the modelled file
    system, in the order the association list holds them.  The order
    stands for nothing: [os.listdir] promises none. *)
Definition entries_under (fs : data_generation.filesystem) (dir : string)
  : list string :=
  flat_map (fun e => match data_generation.split_path (fst e) with
                     | Some (d, b) => if (d =? dir)%string then [b] else []
                     | None => []
                     end) fs.

Fixpoint no_slash (s : string) : bool :=
  match s with
  | EmptyString => true
  | String c s' => negb (c =? "/")%char && no_slash s'
  end.

(** [f i x0; f (i+1) x1; ...], as [enumerate] numbers a list from [i]. *)
Fixpoint indexed {C D : Type} (f : Z -> C -> D) (i : Z) (l : list C) : list D :=
  match l with
  | [] => []
  | x :: l' => f i x :: indexed f (i + 1) l'
  end.

(** The file written for the [i]-th item of a batch. *)
Definition saved_entry {C : Type} (dir : string) (filename : Z -> C -> string)
           (i : Z) (item : data_generation.Image * C)
  : string * data_generation.node :=
  (dir ++ "/" ++ filename i (snd item), data_generation.File (fst item)).

(** No path of the file system lies under [dir]. *)
Definition nothing_under (dir : string) (fs : data_generation.filesystem)
  : Prop :=
  Forall (fun e => re.strip_prefix (dir ++ "/") (fst e) = None) fs.

(** The directory is absent, or present as a directory. *)
Definition dir_absent_or_dir (dir : string) (fs : data_generation.filesystem)
  : Prop :=
  data_generation.lookup fs dir = None
  \/ data_generation.lookup fs dir = Some data_generation.Dir.

(** The file system once the output directory exists. *)
Definition with_dir (dir : string) (fs : data_generation.filesystem)
  : data_generation.filesystem :=
  match data_generation.lookup fs dir with
  | Some _ => fs
  | None => (fs ++ [(dir, data_generation.Dir)])%list
  end.

(** [os.listdir(dir)] may return [names]: the entries directly under
    [dir], in any order. *)
Definition os_listdir_result (fs : data_generation.filesystem) (dir : string)
           (names : list string) : Prop :=
  Permutation names (entries_under fs dir).

(** [name] is the file name of some record of the batch [configs] under
    its position, and [p] is that record as the dataset stores it. *)
Definition xf_entry_of (configs : list data_generation.xf_config)
           (name : string) (p : Dataset.xf_params) : Prop :=
  exists k c,
    nth_error configs k = Some c
    /\ name = data_generation.xf_filename (Z.of_nat k) c
    /\ p = xf_params_of (Z.of_nat k) c.

Definition ml_entry_of (configs : list data_generation.ml_config)
           (name : string) (p : Dataset.ml_params) : Prop :=
  exists k c,
    nth_error configs k = Some c
    /\ name = data_generation.ml_filename (Z.of_nat k) c
    /\ p = ml_params_of (Z.of_nat k) c.

(** The index a pattern reads back from a file name. *)
Definition xf_index_of (name : string) : option Z :=
  match Dataset.xf_decode name with
  | Some (Ok p) => Some (Dataset.xf_index p)
  | _ => None
  end.

Definition ml_index_of (name : string) : option Z :=
  match Dataset.ml_decode name with
  | Some (Ok p) => Some (Dataset.ml_index p)
  | _ => None
  end.

(** A listing with one well-formed name of each family among other
    entries, and the image library of a directory whose files all open. *)
Definition mixed_listing : list string :=
  ["notes.txt"; xf_plain_name; "xf_broken.png"; ml_plain_name].

Definition readable (path : string) : result Z := Ok 7.

(** * Properties *)

(** ** The monad and the random source *)

Lemma bind_Ok {S A B : Type} (m : M S A) (f : A -> M S B) s b s2 :
  bind m f s = Ok (b, s2) ->
  exists a s1, m s = Ok (a, s1) /\ f a s1 = Ok (b, s2).
Proof.
  unfold bind. destruct (m s) as [[a s1]|e]; [|discriminate].
  intros H. exists a, s1. split; [reflexivity|exact H].
Qed.

Lemma ret_Ok {S A : Type} (a b : A) (s s' : S) :
  ret a s = Ok (b, s') -> b = a /\ s' = s.
Proof. unfold ret. intros H. inversion H. split; reflexivity. Qed.

Lemma randint_range a b t v t' :
  random.randint a b t = Ok (v, t') -> a <= v <= b.
Proof.
  unfold random.randint. destruct (0 <? b + 1 - a) eqn:W.
  - apply Z.ltb_lt in W. unfold bind, random.randbelow, ret.
    destruct (random.next_raw t) as [k t1]. intros H. inversion H; subst.
    pose proof (Z.mod_pos_bound (Z.of_N k) (b + 1 - a) W). lia.
  - discriminate.
Qed.

Lemma randint_total a b t :
  a <= b -> exists v t', random.randint a b t = Ok (v, t').
Proof.
  intros Hab. unfold random.randint.
  destruct (0 <? b + 1 - a) eqn:W.
  - unfold bind, random.randbelow, ret.
    destruct (random.next_raw t) as [k t1]. eauto.
  - apply Z.ltb_ge in W. lia.
Qed.

(** Every value of the range is drawn from some raw draw. *)
Lemma randint_reach a b v t :
  a <= v <= b -> random.randint a b (Z.to_N (v - a) :: t) = Ok (v, t).
Proof.
  intros Hv. unfold random.randint.
  destruct (0 <? b + 1 - a) eqn:W; [|apply Z.ltb_ge in W; lia].
  unfold bind, random.randbelow, ret. cbn [random.next_raw].
  rewrite Z2N.id by lia. rewrite Z.mod_small by lia.
  do 2 f_equal. lia.
Qed.

Lemma choices_pair {A : Type} (x y : A) ws t v t' :
  random.choices [x; y] ws t = Ok (v, t') -> v = x \/ v = y.
Proof.
  unfold random.choices.
  destruct (negb _); [discriminate|].
  destruct (_ <=? 0); [discriminate|].
  unfold bind, random.random53. destruct (random.next_raw t) as [k t1].
  match goal with |- context [nth_error _ ?i] => destruct i as [|[|j]] end;
    cbn; unfold ret, raise; intros H; inversion H; auto.
  destruct j; discriminate.
Qed.

(** Inverts one monadic step of a hypothesis [H : m s = Ok _]. *)
Ltac step H :=
  let a := fresh "v" in
  let s := fresh "t" in
  let E := fresh "E" in
  apply bind_Ok in H; destruct H as (a & s & E & H).

Ltac finish H :=
  apply ret_Ok in H; destruct H as [H ?]; inversion H; subst; clear H.

(** ** What the samplers return *)

Section Samplers.

Import data_generation.

Lemma xf_shaft_lengths_spec label lc lo hi t lc' top bottom t' :
  xf_shaft_lengths label lc lo hi t = Ok (lc', top, bottom, t') ->
  (label = 1 /\ lc = "LONG" /\ lc' = "LONG" /\ lo <= top <= hi /\
   exists delta, 2 <= delta <= 62 /\ bottom = Z.max lo (top - delta))
  \/ (label = 1 /\ lc = "SHORT" /\ lc' = "SHORT" /\ lo <= bottom <= hi /\
      exists delta, 2 <= delta <= 62 /\ top = Z.max lo (bottom - delta))
  \/ (label <> 1 /\ lc' = "EQUAL" /\ lo <= top <= hi /\ bottom = top).
Proof.
  unfold xf_shaft_lengths. intros H.
  destruct (Z.eqb_spec label 1) as [L|L].
  - destruct (String.eqb_spec lc "LONG") as [C|C].
    + step H. step H. finish H.
      left. repeat split; auto; try (apply randint_range in E; lia).
      exists v0. split; [apply randint_range in E0; lia | reflexivity].
    + destruct (String.eqb_spec lc "SHORT") as [C'|C']; [|discriminate].
      step H. step H. finish H.
      right; left. repeat split; auto; try (apply randint_range in E; lia).
      exists v0. split; [apply randint_range in E0; lia | reflexivity].
  - step H. finish H.
    right; right. repeat split; auto; apply randint_range in E; lia.
Qed.

Lemma generate_xf_image_spec label lc fc size t img r t' :
  generate_xf_image label lc fc size t = Ok (img, r, t') ->
  (exists t1 t2,
      xf_shaft_lengths label lc 45 (int_mul_0_8 size) t1
      = Ok (xf_length_case r, xf_top_length r, xf_bottom_length r, t2))
  /\ xf_label r = label /\ xf_fin_case r = fc
  /\ size / 5 <= xf_top_y r <= size / 5 * 2
  /\ size / 5 * 3 <= xf_bottom_y r <= size / 5 * 4
  /\ 10 <= xf_top_fin_length r <= Z.min 35 (xf_top_length r / 3)
  /\ 15 <= xf_top_fin_angle_deg r <= 75
  /\ bottom_fin_ok 10 fc (xf_bottom_length r)
                   (xf_top_fin_length r) (xf_top_fin_angle_deg r)
                   (xf_bottom_fin_length r) (xf_bottom_fin_angle_deg r).
Proof.
  unfold generate_xf_image. intros H.
  step H. step H. step H. destruct v1 as [[lc' top] bottom].
  step H. step H. step H. destruct v3 as [bf ba].
  finish H. cbn.
  apply randint_range in E, E0, E2, E3.
  split; [eauto|]. repeat (split; [assumption || reflexivity || lia|]).
  unfold bottom_fin_ok.
  destruct (String.eqb_spec fc "SAME_CONFIG") as [F|F].
  - finish E4. left. auto.
  - step E4. step E4. finish E4.
    apply randint_range in E5, E6. right. auto.
Qed.

Lemma generate_muller_lyer_image_spec td bd fc size t img r t' :
  generate_muller_lyer_image td bd fc size t = Ok (img, r, t') ->
  ml_label r = 0 /\ ml_top_dir_case r = td /\ ml_bottom_dir_case r = bd
  /\ ml_fin_case r = fc
  /\ 45 <= ml_shaft_length r <= int_mul_0_8 size
  /\ size / 5 <= ml_top_y r <= size / 5 * 2
  /\ size / 5 * 3 <= ml_bottom_y r <= size / 5 * 4
  /\ 15 <= ml_top_fin_length r <= Z.min 35 (ml_shaft_length r / 3)
  /\ 15 <= ml_top_fin_angle_deg r <= 75
  /\ bottom_fin_ok 15 fc (ml_shaft_length r)
                   (ml_top_fin_length r) (ml_top_fin_angle_deg r)
                   (ml_bottom_fin_length r) (ml_bottom_fin_angle_deg r).
Proof.
  unfold generate_muller_lyer_image. intros H.
  step H. step H. step H. step H. step H. step H. destruct v4 as [bf ba].
  finish H. cbn.
  apply randint_range in E, E0, E1, E2, E3.
  repeat (split; [assumption || reflexivity || lia|]).
  unfold bottom_fin_ok.
  destruct (String.eqb_spec fc "SAME_CONFIG") as [F|F].
  - finish E4. left. auto.
  - step E4. step E4. finish E4.
    apply randint_range in E5, E6. right. auto.
Qed.

End Samplers.

(** ** Shaft lengths and fin bands *)

Section Geometry.

Import data_generation.

Lemma int_mul_0_8_bound size :
  45 <= int_mul_0_8 size -> 0 < size /\ 5 * int_mul_0_8 size <= 4 * size.
Proof.
  unfold int_mul_0_8. intros H.
  destruct (Z_lt_le_dec size 0) as [Hneg|Hpos].
  - assert (Z.quot (size * 4) 5 <= Z.quot 0 5)
      by (apply Z.quot_le_mono; lia).
    rewrite Z.quot_0_l in H0 by lia. lia.
  - pose proof (Z.mul_quot_le (size * 4) 5 ltac:(lia) ltac:(lia)).
    split; [|lia].
    destruct (Z.eq_dec size 0) as [->|]; [cbn in H; lia | lia].
Qed.

Lemma band_nonempty lo len : lo <= 15 -> 45 <= len -> lo <= Z.min 35 (len / 3).
Proof.
  intros Hlo Hlen.
  assert (15 <= len / 3) by (apply Z.div_le_lower_bound; lia).
  lia.
Qed.

(** The draws of a Cross-Fin request with an admissible case all succeed
    when [45 <= int(0.8 * image_size)]; the allocation of the image is
    taken to succeed. *)
Lemma generate_xf_image_total label lc fc size t :
  45 <= int_mul_0_8 size ->
  (label = 1 -> lc = "LONG" \/ lc = "SHORT") ->
  exists img r t', generate_xf_image label lc fc size t = Ok (img, r, t').
Proof.
  intros Hsize Hcase.
  destruct (int_mul_0_8_bound size Hsize) as [Hpos _].
  assert (0 <= size / 5) by (apply Z.div_pos; lia).
  unfold generate_xf_image, bind.
  destruct (randint_total (size / 5) (size / 5 * 2) t ltac:(lia))
    as (ty & t1 & ->).
  destruct (randint_total (size / 5 * 3) (size / 5 * 4) t1 ltac:(lia))
    as (by_ & t2 & ->).
  assert (exists lc' top bottom t3,
             xf_shaft_lengths label lc 45 (int_mul_0_8 size) t2
             = Ok (lc', top, bottom, t3) /\ 45 <= top /\ 45 <= bottom)
    as (lc' & top & bottom & t3 & -> & Htop & Hbot).
  { unfold xf_shaft_lengths, bind, ret.
    destruct (randint_total 45 (int_mul_0_8 size) t2 Hsize) as (p & u1 & E).
    pose proof (randint_range _ _ _ _ _ E) as Hp.
    destruct (Z.eqb_spec label 1) as [L|L].
    - destruct (randint_total 2 62 u1 ltac:(lia)) as (d & u2 & E2).
      destruct (Hcase L) as [-> | ->]; cbn [String.eqb Ascii.eqb Bool.eqb];
        rewrite E, E2; do 4 eexists; (split; [reflexivity|]); lia.
    - rewrite E. do 4 eexists. split; [reflexivity|]. lia. }
  destruct (randint_total 10 (Z.min 35 (top / 3)) t3
              (band_nonempty 10 top ltac:(lia) Htop)) as (tf & t4 & ->).
  destruct (randint_total 15 75 t4 ltac:(lia)) as (ta & t5 & ->).
  destruct (String.eqb fc "SAME_CONFIG"); unfold ret.
  - do 3 eexists. reflexivity.
  - destruct (randint_total 10 (Z.min 35 (bottom / 3)) t5
                (band_nonempty 10 bottom ltac:(lia) Hbot)) as (bf & t6 & ->).
    destruct (randint_total 15 75 t6 ltac:(lia)) as (ba & t7 & ->).
    do 3 eexists. reflexivity.
Qed.

Lemma randint_empty a b t :
  b < a -> random.randint a b t = Raise (ValueError "empty range for randrange()").
Proof.
  intros H. unfold random.randint.
  destruct (0 <? b + 1 - a) eqn:W; [apply Z.ltb_lt in W; lia | reflexivity].
Qed.

Lemma int_mul_0_8_57 size :
  (57 <= size -> 45 <= int_mul_0_8 size)
  /\ (0 <= size < 57 -> int_mul_0_8 size < 45).
Proof.
  unfold int_mul_0_8. split; intros H.
  - apply Z.quot_le_lower_bound; lia.
  - apply Z.quot_lt_upper_bound; lia.
Qed.

(** Likewise for a Müller-Lyer request, whatever its case strings. *)
Lemma generate_muller_lyer_image_total td bd fc size t :
  45 <= int_mul_0_8 size ->
  exists img r t', generate_muller_lyer_image td bd fc size t = Ok (img, r, t').
Proof.
  intros Hsize.
  destruct (int_mul_0_8_bound size Hsize) as [Hpos _].
  assert (0 <= size / 5) by (apply Z.div_pos; lia).
  unfold generate_muller_lyer_image, bind.
  destruct (randint_total (size / 5) (size / 5 * 2) t ltac:(lia))
    as (ty & t1 & ->).
  destruct (randint_total (size / 5 * 3) (size / 5 * 4) t1 ltac:(lia))
    as (by_ & t2 & ->).
  destruct (randint_total 45 (int_mul_0_8 size) t2 Hsize) as (len & t3 & E).
  rewrite E. apply randint_range in E.
  destruct (randint_total 15 (Z.min 35 (len / 3)) t3
              (band_nonempty 15 len ltac:(lia) ltac:(lia))) as (tf & t4 & ->).
  destruct (randint_total 15 75 t4 ltac:(lia)) as (ta & t5 & ->).
  destruct (String.eqb fc "SAME_CONFIG"); unfold ret.
  - do 3 eexists. reflexivity.
  - destruct (randint_total 15 (Z.min 35 (len / 3)) t5
                (band_nonempty 15 len ltac:(lia) ltac:(lia))) as (bf & t6 & ->).
    destruct (randint_total 15 75 t6 ltac:(lia)) as (ba & t7 & ->).
    do 3 eexists. reflexivity.
Qed.

End Geometry.

Section SamplerClaims.

Import data_generation.

Lemma xf_long_same_run :
  exists img, generate_xf_image 1 "LONG" "SAME_CONFIG" 256 tape_long_same
              = Ok (img, xf_long_same, []).
Proof. eexists. vm_compute. reflexivity. Qed.

Lemma xf_floor_run :
  exists img, generate_xf_image 1 "LONG" "SAME_CONFIG" 256 tape_floor
              = Ok (img, xf_floor, []).
Proof. eexists. vm_compute. reflexivity. Qed.

Lemma xf_equal_run :
  exists img, generate_xf_image 0 "EQUAL" "SAME_CONFIG" 256 tape_floor
              = Ok (img, xf_equal, [0%N]).
Proof. eexists. vm_compute. reflexivity. Qed.

Lemma ml_floor_run :
  exists img, generate_muller_lyer_image "LONG" "SAME_DIR" "SAME_CONFIG" 256
                                         tape_floor
              = Ok (img, ml_floor, [0%N]).
Proof. eexists. vm_compute. reflexivity. Qed.

(** C6. In a record returned by either sampler, [fin_case = SAME_CONFIG]
    implies that the bottom fin length and angle equal the top ones. *)
Theorem same_config_copies_top label lc td bd fc size t :
  (forall img r t',
      generate_xf_image label lc fc size t = Ok (img, r, t') ->
      xf_fin_case r = "SAME_CONFIG" ->
      xf_top_fin_length r = xf_bottom_fin_length r
      /\ xf_top_fin_angle_deg r = xf_bottom_fin_angle_deg r)
  /\ (forall img r t',
         generate_muller_lyer_image td bd fc size t = Ok (img, r, t') ->
         ml_fin_case r = "SAME_CONFIG" ->
         ml_top_fin_length r = ml_bottom_fin_length r
         /\ ml_top_fin_angle_deg r = ml_bottom_fin_angle_deg r).
Proof.
  split; intros img r t' H Hfc.
  - apply generate_xf_image_spec in H.
    destruct H as (_ & _ & Hf & _ & _ & _ & _ & [(_ & -> & ->)|(Hn & _)]).
    + split; reflexivity.
    + congruence.
  - apply generate_muller_lyer_image_spec in H.
    destruct H as (_ & _ & _ & Hf & _ & _ & _ & _ & _ & [(_ & -> & ->)|(Hn & _)]).
    + split; reflexivity.
    + congruence.
Qed.

Lemma same_config_copies_top_witness :
  (xf_top_fin_length xf_long_same = xf_bottom_fin_length xf_long_same
   /\ xf_top_fin_angle_deg xf_long_same = xf_bottom_fin_angle_deg xf_long_same)
  /\ (ml_top_fin_length ml_floor = ml_bottom_fin_length ml_floor
      /\ ml_top_fin_angle_deg ml_floor = ml_bottom_fin_angle_deg ml_floor).
Proof.
  destruct (same_config_copies_top 1 "LONG" "LONG" "SAME_DIR" "SAME_CONFIG"
                                   256 tape_long_same) as [HX _].
  destruct (same_config_copies_top 1 "LONG" "LONG" "SAME_DIR" "SAME_CONFIG"
                                   256 tape_floor) as [_ HM].
  split.
  - eapply HX; [vm_compute; reflexivity | reflexivity].
  - eapply HM; [vm_compute; reflexivity | reflexivity].
Defined.

(** C2, as the specification states it, fails: on [tape_long_same] the
    Cross-Fin sampler returns a [SAME_CONFIG] record with shafts 105 and
    45 whose bottom fin, a copy of the top one, is 35 long, above the
    bottom shaft's bound [min(35, 45 // 3) = 15]. *)
Lemma fin_band_of_own_shaft_fails :
  (exists img, generate_xf_image 1 "LONG" "SAME_CONFIG" 256 tape_long_same
               = Ok (img, xf_long_same, []))
  /\ xf_fin_case xf_long_same = "SAME_CONFIG"
  /\ xf_top_length xf_long_same <> xf_bottom_length xf_long_same
  /\ ~ (10 <= xf_bottom_fin_length xf_long_same
        <= Z.min 35 (xf_bottom_length xf_long_same / 3)).
Proof.
  split; [exact xf_long_same_run|].
  split; [reflexivity|]. split; [discriminate|].
  vm_compute. intros [_ H]. apply H. reflexivity.
Qed.

(** C2, amended. In every record returned by a sampler the top fin length
    lies in [[lo, min(35, top_length // 3)]], and the bottom fin length
    lies in [[lo, min(35, bottom_length // 3)]] whenever
    [fin_case <> SAME_CONFIG] or the top shaft is not the longer one
    (always so for Müller-Lyer, whose shafts are equal); under
    [SAME_CONFIG] the bottom fin length is the top one and lies in the band
    of the top shaft.  [lo] is 10 for Cross-Fin and 15 for Müller-Lyer. *)
Theorem fin_length_bands label lc td bd fc size t :
  (forall img r t',
      generate_xf_image label lc fc size t = Ok (img, r, t') ->
      10 <= xf_top_fin_length r <= Z.min 35 (xf_top_length r / 3)
      /\ (xf_fin_case r <> "SAME_CONFIG"
          \/ xf_top_length r <= xf_bottom_length r ->
          10 <= xf_bottom_fin_length r <= Z.min 35 (xf_bottom_length r / 3))
      /\ (xf_fin_case r = "SAME_CONFIG" ->
          10 <= xf_bottom_fin_length r <= Z.min 35 (xf_top_length r / 3)))
  /\ (forall img r t',
         generate_muller_lyer_image td bd fc size t = Ok (img, r, t') ->
         15 <= ml_top_fin_length r <= Z.min 35 (ml_shaft_length r / 3)
         /\ 15 <= ml_bottom_fin_length r <= Z.min 35 (ml_shaft_length r / 3)).
Proof.
  split; intros img r t' H.
  - apply generate_xf_image_spec in H.
    destruct H as (_ & _ & Hf & _ & _ & Htop & _ & Hbot).
    split; [exact Htop|]. rewrite Hf.
    destruct Hbot as [(Hs & -> & _)|(Hn & Hb & _)].
    + split.
      * intros [Hd|Hle]; [congruence|].
        pose proof (Z.div_le_mono _ _ 3 ltac:(lia) Hle). lia.
      * intros _. exact Htop.
    + split; [intros _; exact Hb | congruence].
  - apply generate_muller_lyer_image_spec in H.
    destruct H as (_ & _ & _ & _ & _ & _ & _ & Htop & _ & Hbot).
    split; [exact Htop|].
    destruct Hbot as [(_ & -> & _)|(_ & Hb & _)]; assumption.
Qed.

Lemma fin_length_bands_witness :
  (10 <= xf_top_fin_length xf_equal <= Z.min 35 (xf_top_length xf_equal / 3)
   /\ 10 <= xf_bottom_fin_length xf_equal
      <= Z.min 35 (xf_bottom_length xf_equal / 3)
   /\ 10 <= xf_bottom_fin_length xf_equal
      <= Z.min 35 (xf_top_length xf_equal / 3))
  /\ (15 <= ml_top_fin_length ml_floor <= Z.min 35 (ml_shaft_length ml_floor / 3)
      /\ 15 <= ml_bottom_fin_length ml_floor
         <= Z.min 35 (ml_shaft_length ml_floor / 3)).
Proof.
  destruct (fin_length_bands 0 "EQUAL" "LONG" "SAME_DIR" "SAME_CONFIG"
                             256 tape_floor) as [HX HM].
  split.
  - edestruct HX as (H1 & H2 & H3); [vm_compute; reflexivity|].
    split; [exact H1|]. split; [apply H2; right; cbn; lia | apply H3; reflexivity].
  - eapply HM. vm_compute; reflexivity.
Defined.

Lemma randint_cons a b k t :
  a <= b -> random.randint a b (k :: t) = Ok (a + Z.of_N k mod (b + 1 - a), t).
Proof.
  intros Hab. unfold random.randint.
  destruct (0 <? b + 1 - a) eqn:W; [reflexivity | apply Z.ltb_ge in W; lia].
Qed.

(** A draw consumes one raw value. *)
Lemma randint_tl a b t v t' :
  random.randint a b t = Ok (v, t') -> t' = tl t.
Proof.
  unfold random.randint. destruct (0 <? b + 1 - a); [|discriminate].
  unfold bind, random.randbelow, ret. destruct t as [|k t]; cbn;
    intros H; inversion H; reflexivity.
Qed.

Lemma tl_skipn {A : Type} n : forall (l : list A), tl (skipn n l) = skipn (S n) l.
Proof.
  induction n as [|n IH]; intros [|x l]; try reflexivity.
  - cbn [skipn]. rewrite IH. destruct l; reflexivity.
Qed.

(** The two draws behind the shaft lengths of a [label = 1] request. *)
Lemma xf_shaft_lengths_draws lc lo hi t lc' top bottom t' :
  xf_shaft_lengths 1 lc lo hi t = Ok (lc', top, bottom, t') ->
  exists primary delta,
    random.randint lo hi t = Ok (primary, tl t)
    /\ random.randint 2 62 (tl t) = Ok (delta, tl (tl t))
    /\ ((lc = "LONG" /\ top = primary /\ bottom = Z.max lo (primary - delta))
        \/ (lc = "SHORT" /\ bottom = primary
            /\ top = Z.max lo (primary - delta))).
Proof.
  unfold xf_shaft_lengths. cbn [Z.eqb Pos.eqb]. intros H.
  destruct (String.eqb_spec lc "LONG") as [C|C].
  - step H. step H. finish H.
    pose proof (randint_tl _ _ _ _ _ E) as ->.
    pose proof (randint_tl _ _ _ _ _ E0) as ->.
    exists v, v0. split; [assumption|]. split; [assumption|].
    left. repeat split; reflexivity.
  - destruct (String.eqb_spec lc "SHORT") as [C'|C']; [|discriminate].
    step H. step H. finish H.
    pose proof (randint_tl _ _ _ _ _ E) as ->.
    pose proof (randint_tl _ _ _ _ _ E0) as ->.
    exists v, v0. split; [assumption|]. split; [assumption|].
    right. repeat split; reflexivity.
Qed.

(** In every run of [hi + 1 - lo] consecutive raw values exactly one
    makes [randint(lo, hi)] return a given value of the range. *)
Lemma randint_equidistributed lo hi v q t :
  lo <= v <= hi -> 0 <= q ->
  exists k,
    q * (hi + 1 - lo) <= Z.of_N k < (q + 1) * (hi + 1 - lo)
    /\ forall k',
        q * (hi + 1 - lo) <= Z.of_N k' < (q + 1) * (hi + 1 - lo) ->
        (random.randint lo hi (k' :: t) = Ok (v, t) <-> k' = k).
Proof.
  intros Hv Hq. set (W := hi + 1 - lo). assert (0 < W) by (subst W; lia).
  assert (forall x, q * W <= x < (q + 1) * W -> x mod W = x - q * W) as Hmod.
  { intros x Hx. symmetry. apply (Z.mod_unique x W q); lia. }
  exists (Z.to_N (q * W + (v - lo))).
  assert (0 <= q * W) by nia.
  rewrite Z2N.id by lia. split; [lia|].
  intros k' Hk'. rewrite randint_cons by lia. fold W.
  rewrite (Hmod _ Hk'). split.
  - intros E. inversion E. apply N2Z.inj. rewrite Z2N.id by lia. lia.
  - intros ->. rewrite Z2N.id by lia. do 2 f_equal. lia.
Qed.

(** C4. In a Cross-Fin record sampled with [label = 1] the primary shaft
    (top for [LONG], bottom for [SHORT]) is the value of the one call
    [randint(45, int(0.8 * image_size))] made on the third raw draw, and
    the other shaft is [max(45, primary - delta)], where [delta] is the
    value of the one call [randint(2, 62)] made on the fourth raw draw;
    whenever [primary - delta >= 45] the primary shaft is strictly
    longer.  The draw is uniform: in every run of as many consecutive raw
    values as the range has elements, exactly one raw value makes
    [randint] return a given value of the range. *)
Theorem label1_shaft_lengths lc fc size :
  (forall t img r t',
      generate_xf_image 1 lc fc size t = Ok (img, r, t') ->
      exists primary other delta,
        ((lc = "LONG" /\ primary = xf_top_length r
          /\ other = xf_bottom_length r)
         \/ (lc = "SHORT" /\ primary = xf_bottom_length r
             /\ other = xf_top_length r))
        /\ random.randint 45 (int_mul_0_8 size) (skipn 2 t)
           = Ok (primary, skipn 3 t)
        /\ random.randint 2 62 (skipn 3 t) = Ok (delta, skipn 4 t)
        /\ 45 <= primary <= int_mul_0_8 size
        /\ 5 * primary <= 4 * size
        /\ 2 <= delta <= 62
        /\ other = Z.max 45 (primary - delta)
        /\ (45 <= primary - delta -> other < primary))
  /\ (forall lo hi v q t,
         lo <= v <= hi -> 0 <= q ->
         exists k,
           q * (hi + 1 - lo) <= Z.of_N k < (q + 1) * (hi + 1 - lo)
           /\ forall k',
               q * (hi + 1 - lo) <= Z.of_N k' < (q + 1) * (hi + 1 - lo) ->
               (random.randint lo hi (k' :: t) = Ok (v, t) <-> k' = k)).
Proof.
  split.
  - intros t img r t' H. unfold generate_xf_image in H.
    step H. step H. step H. destruct v1 as [[lc' top] bottom].
    step H. step H. step H. destruct v3 as [bf ba]. finish H.
    cbn [xf_top_length xf_bottom_length].
    pose proof (randint_tl _ _ _ _ _ E) as ->.
    pose proof (randint_tl _ _ _ _ _ E0) as ->.
    apply xf_shaft_lengths_draws in E1.
    destruct E1 as (primary & delta & Hp & Hd & Hcase).
    change (tl (tl t)) with (tl (skipn 1 t)) in Hp, Hd.
    rewrite !tl_skipn in Hp, Hd. rewrite tl_skipn in Hd.
    pose proof (randint_range _ _ _ _ _ Hp) as Rp.
    pose proof (randint_range _ _ _ _ _ Hd) as Rd.
    destruct (int_mul_0_8_bound size ltac:(lia)) as [_ Hq].
    destruct Hcase as [(-> & -> & ->)|(-> & -> & ->)].
    + exists primary, (Z.max 45 (primary - delta)), delta.
      split; [left; auto|]. split; [exact Hp|]. split; [exact Hd|].
      repeat (split; [lia|]). lia.
    + exists primary, (Z.max 45 (primary - delta)), delta.
      split; [right; auto|]. split; [exact Hp|]. split; [exact Hd|].
      repeat (split; [lia|]). lia.
  - intros lo hi v q t Hv Hq. apply randint_equidistributed; assumption.
Qed.

Lemma label1_shaft_lengths_witness :
  (exists primary other delta,
      (("LONG" = "LONG" /\ primary = xf_top_length xf_long_same
        /\ other = xf_bottom_length xf_long_same)
       \/ ("LONG" = "SHORT" /\ primary = xf_bottom_length xf_long_same
           /\ other = xf_top_length xf_long_same))
      /\ random.randint 45 (int_mul_0_8 256) (skipn 2 tape_long_same)
         = Ok (primary, skipn 3 tape_long_same)
      /\ random.randint 2 62 (skipn 3 tape_long_same)
         = Ok (delta, skipn 4 tape_long_same)
      /\ 45 <= primary <= int_mul_0_8 256
      /\ 5 * primary <= 4 * 256
      /\ 2 <= delta <= 62
      /\ other = Z.max 45 (primary - delta)
      /\ (45 <= primary - delta -> other < primary))
  /\ (exists k,
         0 * (204 + 1 - 45) <= Z.of_N k < (0 + 1) * (204 + 1 - 45)
         /\ forall k',
             0 * (204 + 1 - 45) <= Z.of_N k' < (0 + 1) * (204 + 1 - 45) ->
             (random.randint 45 204 (k' :: []) = Ok (105, []) <-> k' = k)).
Proof.
  destruct (label1_shaft_lengths "LONG" "SAME_CONFIG" 256) as [HS HU].
  split.
  - eapply (HS tape_long_same). vm_compute. reflexivity.
  - apply (HU 45 204 105 0 []); lia.
Defined.

(** C5, as the specification states it, fails: on [tape_floor] a
    [label = 1], [LONG] request returns two shafts of length 45, so equal
    shafts do not imply [label = 0] nor [length_case = EQUAL]. *)
Lemma equal_shafts_do_not_imply_label0 :
  (exists img, generate_xf_image 1 "LONG" "SAME_CONFIG" 256 tape_floor
               = Ok (img, xf_floor, []))
  /\ xf_top_length xf_floor = xf_bottom_length xf_floor
  /\ xf_label xf_floor <> 0
  /\ xf_length_case xf_floor <> "EQUAL".
Proof.
  split; [exact xf_floor_run|].
  split; [reflexivity|]. split; discriminate.
Qed.

(** C5, amended. For a request with [label] 0 or 1, a returned Cross-Fin
    record carries the requested label.  A [label = 0] request yields
    [length_case = EQUAL] and two shafts of identical length, whatever
    [length_case] was asked for; a [label = 1] record carries the
    requested [length_case], which is [LONG] or [SHORT], never [EQUAL].
    Hence [label = 0] holds exactly when [length_case = EQUAL], and
    [label = 0] implies [top_length = bottom_length]; conversely
    [top_length = bottom_length] implies [label = 0] unless both shafts
    have the minimum length 45.  A [label = 0] request returns a record
    for every [image_size] from 57 to 4096. *)
Theorem label0_iff_equal_case label lc fc size t :
  label = 0 \/ label = 1 ->
  (forall img r t',
      generate_xf_image label lc fc size t = Ok (img, r, t') ->
      xf_label r = label
      /\ (label = 0 ->
          xf_label r = 0 /\ xf_length_case r = "EQUAL"
          /\ xf_top_length r = xf_bottom_length r)
      /\ (label = 1 ->
          xf_label r = 1 /\ xf_length_case r = lc
          /\ (lc = "LONG" \/ lc = "SHORT")
          /\ xf_length_case r <> "EQUAL")
      /\ (xf_label r = 0 <-> xf_length_case r = "EQUAL")
      /\ (xf_label r = 0 -> xf_top_length r = xf_bottom_length r)
      /\ (xf_top_length r = xf_bottom_length r ->
          xf_label r = 0 \/ xf_top_length r = 45))
  /\ (label = 0 -> 57 <= size <= 4096 ->
      exists img r t', generate_xf_image label lc fc size t = Ok (img, r, t')).
Proof.
  intros Hlabel. split.
  - intros img r t' H.
    apply generate_xf_image_spec in H.
    destruct H as ((t1 & t2 & Hs) & Hl & _).
    apply xf_shaft_lengths_spec in Hs. rewrite Hl.
    destruct Hs as [(L & C & Hc & Hp & delta & Hd & Ho)
                   |[(L & C & Hc & Hp & delta & Hd & Ho)
                    |(L & Hc & Hp & Ho)]]; rewrite Hc.
    + subst lc. split; [reflexivity|].
      split; [intros; lia|].
      split; [intros _; repeat split; auto; discriminate|].
      repeat split; try (intros; (lia || discriminate)).
    + subst lc. split; [reflexivity|].
      split; [intros; lia|].
      split; [intros _; repeat split; auto; discriminate|].
      repeat split; try (intros; (lia || discriminate)).
    + assert (label = 0) by lia.
      split; [reflexivity|].
      split; [intros _; repeat split; auto|].
      split; [intros; lia|].
      repeat split; intros; auto.
  - intros L Hsize. apply generate_xf_image_total; [|lia].
    unfold int_mul_0_8. apply Z.quot_le_lower_bound; lia.
Qed.

Lemma label0_iff_equal_case_witness :
  (xf_label xf_equal = 0
   /\ (xf_label xf_equal = 0 /\ xf_length_case xf_equal = "EQUAL"
       /\ xf_top_length xf_equal = xf_bottom_length xf_equal)
   /\ (xf_label xf_equal = 0 <-> xf_length_case xf_equal = "EQUAL")
   /\ (xf_label xf_equal = 0 ->
       xf_top_length xf_equal = xf_bottom_length xf_equal)
   /\ (xf_top_length xf_equal = xf_bottom_length xf_equal ->
       xf_label xf_equal = 0 \/ xf_top_length xf_equal = 45))
  /\ (exists img r t',
         generate_xf_image 0 "LONG" "SAME_CONFIG" 256 tape_floor
         = Ok (img, r, t')).
Proof.
  destruct (label0_iff_equal_case 0 "LONG" "SAME_CONFIG" 256 tape_floor
                                  (or_introl eq_refl)) as [HS HT].
  split.
  - edestruct HS as (H1 & H2 & _ & H4 & H5 & H6); [vm_compute; reflexivity|].
    split; [exact H1|]. split; [exact (H2 eq_refl)|].
    split; [exact H4|]. split; [exact H5 | exact H6].
  - apply HT; [reflexivity | lia].
Defined.

End SamplerClaims.

(** ** Case selection in the batch generators *)

Section CaseSelection.

Import data_generation.

Lemma bind_ext {S A B : Type} (m : M S A) (f g : A -> M S B) s :
  (forall a s', f a s' = g a s') -> bind m f s = bind m g s.
Proof.
  intros H. unfold bind. destruct (m s) as [[a s']|e]; [apply H | reflexivity].
Qed.

Lemma xf_loop_ignores_01 n w0 w1 v0 v1 rest size :
  forall images configs t,
    xf_loop n (w0 :: w1 :: rest) size images configs t
    = xf_loop n (v0 :: v1 :: rest) size images configs t.
Proof.
  induction n as [|n IH]; intros images configs t; [reflexivity|].
  cbn [xf_loop]. unfold slice. cbn [skipn Nat.sub].
  apply bind_ext; intros lbl t1.
  apply bind_ext; intros fin_case t2.
  apply bind_ext; intros length_case t3.
  apply bind_ext; intros [img params] t4.
  apply IH.
Qed.

Lemma ml_loop_ignores_01 n w0 w1 v0 v1 rest size :
  forall images configs t,
    ml_loop n (w0 :: w1 :: rest) size images configs t
    = ml_loop n (v0 :: v1 :: rest) size images configs t.
Proof.
  induction n as [|n IH]; intros images configs t; [reflexivity|].
  cbn [ml_loop]. unfold slice. cbn [skipn Nat.sub].
  apply bind_ext; intros top_dir t1.
  apply bind_ext; intros bottom_dir t2.
  apply bind_ext; intros fin_case t3.
  apply bind_ext; intros [img params] t4.
  apply IH.
Qed.

(** With weights [(w, 0)] the first element is always chosen. *)
Lemma choices_zero_second {A : Type} (x y : A) w t v t' :
  random.choices [x; y] [w; 0] t = Ok (v, t') -> v = x.
Proof.
  unfold random.choices. cbn [random.accumulate List.length Nat.eqb negb last].
  destruct (0 + w + 0 <=? 0) eqn:W; [discriminate|].
  apply Z.leb_gt in W.
  unfold bind, random.random53. destruct (random.next_raw t) as [k t1].
  cbn [random.bisect Nat.sub Nat.ltb Nat.leb Nat.add Nat.div Nat.divmod fst nth].
  assert (0 <= Z.of_N k mod random.two53 < random.two53) as Hk
      by (apply Z.mod_pos_bound; reflexivity).
  assert ((Z.of_N k mod random.two53 * (0 + w + 0) <? (0 + w) * random.two53) = true)
    as -> by (apply Z.ltb_lt; nia).
  cbn. unfold ret. intros H. inversion H. reflexivity.
Qed.

Lemma ml_loop_zero_diff n w0 w1 w2 w3 w4 size :
  forall images configs t imgs' configs' t',
    ml_loop n [w0; w1; w2; w3; w4; 0] size images configs t
    = Ok (imgs', configs', t') ->
    Forall (fun r => ml_bottom_dir_case r = "SAME_DIR"
                     /\ ml_fin_case r = "SAME_CONFIG") configs ->
    Forall (fun r => ml_bottom_dir_case r = "SAME_DIR"
                     /\ ml_fin_case r = "SAME_CONFIG") configs'.
Proof.
  induction n as [|n IH]; intros images configs t imgs' configs' t' H Hall.
  - cbn in H. finish H. exact Hall.
  - cbn [ml_loop] in H. unfold slice in H. cbn [skipn Nat.sub firstn] in H.
    step H. step H. step H. step H. destruct v2 as [img params].
    apply choices_zero_second in E0, E1. subst.
    apply generate_muller_lyer_image_spec in E2.
    destruct E2 as (_ & _ & Hb & Hf & _).
    eapply IH; [exact H|].
    apply Forall_app. split; [exact Hall|]. constructor; [auto | constructor].
Qed.

(** C3. The weights are not partitioned pairwise per axis.  Neither batch
    generator reads positions 0-1 of [case_ratio]; the Cross-Fin label is
    an unweighted [randint(0, 1)], so a weight of zero for label 1 still
    yields label 1; and the Müller-Lyer generator draws both
    [bottom_dir_case] and [fin_case] from positions 4-5, so a zero weight
    for [DIFF_CONFIG] also excludes [DIFF_DIR], even on a draw for which
    the pair at positions 2-3 selects [DIFF_DIR]. *)
Theorem case_ratio_axes_share_weights :
  (forall n w0 w1 v0 v1 rest size t,
      generate_xf_dataset n (w0 :: w1 :: rest) size t
      = generate_xf_dataset n (v0 :: v1 :: rest) size t)
  /\ (forall n w0 w1 v0 v1 rest size t,
         generate_muller_lyer_dataset n (w0 :: w1 :: rest) size t
         = generate_muller_lyer_dataset n (v0 :: v1 :: rest) size t)
  /\ (exists imgs c t',
         generate_xf_dataset 1 [1; 0; 1; 1; 1; 1] 256 tape_label1
         = Ok (imgs, [c], t') /\ xf_label c = 1)
  /\ (forall n w0 w1 w2 w3 w4 size t,
         match generate_muller_lyer_dataset n [w0; w1; w2; w3; w4; 0] size t with
         | Ok (_, configs, _) =>
           Forall (fun r => ml_bottom_dir_case r = "SAME_DIR"
                            /\ ml_fin_case r = "SAME_CONFIG") configs
         | Raise _ => True
         end)
  /\ (exists imgs c t',
         generate_muller_lyer_dataset 1 [1; 1; 1; 1; 1; 0] 256 tape_high
         = Ok (imgs, [c], t')
         /\ ml_bottom_dir_case c = "SAME_DIR"
         /\ random.choices ["SAME_DIR"; "DIFF_DIR"]
                           (slice [1; 1; 1; 1; 1; 0] 2 4) [raw_max]
            = Ok ("DIFF_DIR", [])).
Proof.
  split; [|split; [|split; [|split]]].
  - intros. apply xf_loop_ignores_01.
  - intros. apply ml_loop_ignores_01.
  - do 3 eexists. split; [vm_compute; reflexivity | reflexivity].
  - intros. unfold generate_muller_lyer_dataset.
    destruct (ml_loop _ _ _ _ _ _) as [[[imgs configs] t']|e] eqn:E; [|exact I].
    eapply ml_loop_zero_diff; [exact E | constructor].
  - do 3 eexists. split; [vm_compute; reflexivity|].
    split; [reflexivity | vm_compute; reflexivity].
Qed.

(** C10. For a [type] other than ["train"] and ["test"],
    [generate_and_save] returns normally and leaves the file system and
    the random source as they were, whatever the other arguments. *)
Theorem other_type_is_noop type num_images case_ratio image_size w :
  type <> "train" -> type <> "test" ->
  generate_and_save type num_images case_ratio image_size w = Ok (tt, w).
Proof.
  intros Htrain Htest. unfold generate_and_save.
  destruct (String.eqb_spec type "train") as [E|_]; [contradiction|].
  destruct (String.eqb_spec type "test") as [E|_]; [contradiction|].
  reflexivity.
Qed.

Lemma other_type_is_noop_witness :
  generate_and_save "val" 2000 [1; 1; 1; 1; 1; 2] 256 (mkWorld tape_floor [])
  = Ok (tt, mkWorld tape_floor []).
Proof. apply other_type_is_noop; discriminate. Defined.

End CaseSelection.

(** ** Decimal text of integers *)

Section Decimal.

Lemma append_assoc_s (a b c : string) : (a ++ b) ++ c = a ++ (b ++ c).
Proof. induction a as [|x a IH]; cbn; [reflexivity | rewrite IH; reflexivity]. Qed.

Lemma append_nil_r (a : string) : a ++ "" = a.
Proof. induction a as [|x a IH]; cbn; [reflexivity | rewrite IH; reflexivity]. Qed.

Lemma digit_char_spec d :
  (d < 10)%N -> is_digit (digit_char d) = true /\ digit_val (digit_char d) = d.
Proof.
  intros Hd. unfold is_digit, digit_val, digit_char.
  rewrite N_ascii_embedding by lia.
  split; [|lia].
  apply andb_true_intro. split; apply N.leb_le; lia.
Qed.

Lemma digits_of_app fuel : forall n acc,
  digits_of fuel n acc = digits_of fuel n "" ++ acc.
Proof.
  induction fuel as [|f IH]; intros n acc; cbn [digits_of].
  - reflexivity.
  - destruct (n / 10 =? 0)%N; [reflexivity|].
    rewrite IH. rewrite (IH _ (String _ "")).
    rewrite append_assoc_s. reflexivity.
Qed.

Lemma all_digits_app a b :
  all_digits (a ++ b) = all_digits a && all_digits b.
Proof.
  induction a as [|x a IH]; cbn; [reflexivity|].
  rewrite IH. apply andb_assoc.
Qed.

Lemma int_acc_app a b v : int_acc (a ++ b) v = int_acc b (int_acc a v).
Proof. revert v. induction a as [|x a IH]; intros v; cbn; [reflexivity | apply IH]. Qed.

Lemma digits_of_all_digits fuel : forall n,
  all_digits (digits_of fuel n "") = true.
Proof.
  assert (forall n, is_digit (digit_char (n mod 10)) = true) as Hd.
  { intros n. apply digit_char_spec. apply N.mod_lt. discriminate. }
  induction fuel as [|f IH]; intros n; cbn [digits_of].
  - cbn. rewrite Hd. reflexivity.
  - destruct (n / 10 =? 0)%N; [cbn; rewrite Hd; reflexivity|].
    rewrite digits_of_app, all_digits_app, IH. cbn. rewrite Hd. reflexivity.
Qed.

Lemma digits_of_nonempty fuel n : digits_of fuel n "" <> "".
Proof.
  destruct fuel as [|f]; cbn [digits_of]; [discriminate|].
  destruct (n / 10 =? 0)%N; [discriminate|].
  rewrite digits_of_app.
  destruct (digits_of f (n / 10) ""); discriminate.
Qed.

Lemma digits_of_value fuel : forall n,
  (n < 2 ^ N.of_nat (S fuel))%N -> int_acc (digits_of fuel n "") 0 = n.
Proof.
  induction fuel as [|f IH]; intros n Hn.
  - change (2 ^ N.of_nat 1)%N with 2%N in Hn.
    cbn [digits_of int_acc].
    rewrite (proj2 (digit_char_spec (n mod 10) ltac:(apply N.mod_lt; discriminate))).
    rewrite N.mod_small by lia. lia.
  - cbn [digits_of].
    pose proof (N.div_mod n 10 ltac:(discriminate)) as Hdm.
    pose proof (N.mod_lt n 10 ltac:(discriminate)) as Hm.
    destruct (N.eqb_spec (n / 10) 0) as [Hz|Hz].
    + cbn [int_acc].
      rewrite (proj2 (digit_char_spec (n mod 10) Hm)). lia.
    + rewrite digits_of_app, int_acc_app. rewrite IH.
      * cbn [int_acc].
        rewrite (proj2 (digit_char_spec (n mod 10) Hm)). lia.
      * rewrite Nat2N.inj_succ, N.pow_succ_r' in Hn.
        apply N.Div0.div_lt_upper_bound. lia.
Qed.

Lemma str_N_spec n :
  all_digits (str_N n) = true /\ str_N n <> "" /\ int_acc (str_N n) 0 = n.
Proof.
  unfold str_N. split; [apply digits_of_all_digits|].
  split; [apply digits_of_nonempty|].
  apply digits_of_value.
  rewrite Nat2N.inj_succ, N2Nat.id.
  destruct n as [|p]; [reflexivity|].
  apply N.log2_spec. reflexivity.
Qed.

(** [int(str(z)) == z] for [z >= 0], and [str(z)] is a run of digits. *)
Lemma int_str z :
  0 <= z -> all_digits (str z) = true /\ str z <> "" /\ int (str z) = Ok z.
Proof.
  intros Hz.
  assert (str z = str_N (Z.to_N z)) as -> by (destruct z; [reflexivity..|lia]).
  destruct (str_N_spec (Z.to_N z)) as (Hd & Hne & Hv).
  split; [exact Hd|]. split; [exact Hne|].
  unfold int. destruct (str_N (Z.to_N z)) eqn:E; [contradiction|].
  rewrite Hd, Hv. rewrite Z2N.id by exact Hz. reflexivity.
Qed.

End Decimal.

(** ** One step of the matcher on a string built by concatenation *)

Section MatcherSteps.

Import re.

Lemma strip_prefix_app l s : strip_prefix l (l ++ s) = Some s.
Proof.
  induction l as [|c l IH]; cbn; [reflexivity|].
  rewrite Ascii.eqb_refl. exact IH.
Qed.

Lemma exec_bos p s groups r :
  exec p 0 s groups = Some r -> exec (Bos :: p) 0 s groups = Some r.
Proof. intros H. exact H. Qed.

Lemma exec_lit l p pos s groups r :
  exec p (pos + String.length l) s groups = Some r ->
  exec (Lit l :: p) pos (l ++ s) groups = Some r.
Proof. intros H. cbn [exec]. rewrite strip_prefix_app. exact H. Qed.

Lemma many1_digits_run {R : Type} (k : string -> string -> option R) ds :
  forall acc s r,
    digit_run ds -> starts_with_digit s = false ->
    k (acc ++ ds) s = Some r ->
    many1_digits k acc (ds ++ s) = Some r.
Proof.
  induction ds as [|c ds IH]; intros acc s r [Hd Hne] Hs Hk; [contradiction|].
  cbn in Hd. apply andb_prop in Hd. destruct Hd as [Hc Hd].
  cbn [append many1_digits]. rewrite Hc.
  destruct ds as [|c' ds'].
  - cbn [append].
    assert (many1_digits k (acc ++ String c "") s = None) as ->.
    { destruct s as [|x s]; [reflexivity|]. cbn in Hs. cbn. rewrite Hs. reflexivity. }
    exact Hk.
  - rewrite (IH (acc ++ String c "") s r); [reflexivity | | exact Hs |].
    + split; [exact Hd | discriminate].
    + rewrite append_assoc_s. exact Hk.
Qed.

Lemma exec_digits ds p pos s groups r :
  digit_run ds -> starts_with_digit s = false ->
  exec p (pos + String.length ds) s (groups ++ [ds]) = Some r ->
  exec (Digits :: p) pos (ds ++ s) groups = Some r.
Proof.
  intros Hd Hs H. cbn [exec].
  apply many1_digits_run; [exact Hd | exact Hs | exact H].
Qed.

Lemma exec_alt_here g alts p pos s groups r :
  exec p (pos + String.length g) s (groups ++ [g]) = Some r ->
  exec (AltLit (g :: alts) :: p) pos (g ++ s) groups = Some r.
Proof.
  intros H. cbn [exec try_alts]. rewrite strip_prefix_app, H. reflexivity.
Qed.

Lemma exec_alt_next a alts p pos s groups r :
  strip_prefix a s = None ->
  exec (AltLit alts :: p) pos s groups = Some r ->
  exec (AltLit (a :: alts) :: p) pos s groups = Some r.
Proof.
  intros Ha H. cbn [exec try_alts]. rewrite Ha. exact H.
Qed.

Lemma exec_oneof c cs p pos s groups r :
  existsb (Ascii.eqb c) cs = true ->
  exec p (S pos) s (groups ++ [String c ""]) = Some r ->
  exec (OneOf cs :: p) pos (String c "" ++ s) groups = Some r.
Proof. intros Hc H. cbn [exec append]. rewrite Hc. exact H. Qed.

End MatcherSteps.

(** ** Names of the published grammar are matched, group by group *)

Section GrammarMatches.

Import re Dataset.

Ltac lit := apply exec_lit.
Ltac digits := apply exec_digits; [assumption | reflexivity |].
Ltac alt := first [ apply exec_alt_here
                  | apply exec_alt_next; [reflexivity|]; alt ].

Lemma xf_match_shape d1 lab lc fc d5 d6 d7 d8 d9 d10 d11 d12 :
  digit_run d1 -> lab = "0" \/ lab = "1" ->
  lc = "EQUAL" \/ lc = "LONG" \/ lc = "SHORT" ->
  fc = "SAME_CONFIG" \/ fc = "DIFF_CONFIG" ->
  digit_run d5 -> digit_run d6 -> digit_run d7 -> digit_run d8 ->
  digit_run d9 -> digit_run d10 -> digit_run d11 -> digit_run d12 ->
  forall nl, nl = "" \/ nl = newline ->
  match_ xf_pattern
         ("xf_" ++ d1 ++ "_" ++ lab ++ "_" ++ lc ++ "_" ++ fc
          ++ "_" ++ d5 ++ "_" ++ d6 ++ "_" ++ d7 ++ "_" ++ d8
          ++ "_" ++ d9 ++ "_" ++ d10 ++ "_" ++ d11 ++ "_" ++ d12 ++ ".png" ++ nl)
  = Some [d1; lab; lc; fc; d5; d6; d7; d8; d9; d10; d11; d12].
Proof.
  intros H1 Hlab Hlc Hfc H5 H6 H7 H8 H9 H10 H11 H12 nl Hnl.
  unfold match_, xf_pattern. apply exec_bos.
  lit. digits. lit.
  destruct Hlab as [-> | ->]; (apply exec_oneof; [reflexivity|]); lit;
    destruct Hlc as [-> | [-> | ->]]; alt; lit;
      destruct Hfc as [-> | ->]; alt; lit;
        digits; lit; digits; lit; digits; lit; digits; lit;
          digits; lit; digits; lit; digits; lit;
            digits; lit; destruct Hnl as [-> | ->]; reflexivity.
Qed.

Lemma ml_match_shape d1 lab td bd fc d6 d7 d8 d9 d10 d11 d12 :
  digit_run d1 -> lab = "0" \/ lab = "1" ->
  td = "LONG" \/ td = "SHORT" ->
  bd = "SAME_DIR" \/ bd = "DIFF_DIR" ->
  fc = "SAME_CONFIG" \/ fc = "DIFF_CONFIG" ->
  digit_run d6 -> digit_run d7 -> digit_run d8 ->
  digit_run d9 -> digit_run d10 -> digit_run d11 -> digit_run d12 ->
  forall nl, nl = "" \/ nl = newline ->
  match_ ml_pattern
         ("ml_" ++ d1 ++ "_" ++ lab ++ "_" ++ td ++ "_" ++ bd ++ "_" ++ fc
          ++ "_" ++ d6 ++ "_" ++ d7 ++ "_" ++ d8
          ++ "_" ++ d9 ++ "_" ++ d10 ++ "_" ++ d11 ++ "_" ++ d12 ++ ".png" ++ nl)
  = Some [d1; lab; td; bd; fc; d6; d7; d8; d9; d10; d11; d12].
Proof.
  intros H1 Hlab Htd Hbd Hfc H6 H7 H8 H9 H10 H11 H12 nl Hnl.
  unfold match_, ml_pattern. apply exec_bos.
  lit. digits. lit.
  destruct Hlab as [-> | ->]; (apply exec_oneof; [reflexivity|]); lit;
    destruct Htd as [-> | ->]; alt; lit;
      destruct Hbd as [-> | ->]; alt; lit;
        destruct Hfc as [-> | ->]; alt; lit;
          digits; lit; digits; lit; digits; lit; digits; lit;
            digits; lit; digits; lit;
              digits; lit; destruct Hnl as [-> | ->]; reflexivity.
Qed.

End GrammarMatches.

(** ** Round trip through the file name *)

Section RoundTrip.

Import data_generation.

Lemma generate_xf_image_valid label lc fc size t img r t' :
  label = 0 \/ label = 1 ->
  fc = "SAME_CONFIG" \/ fc = "DIFF_CONFIG" ->
  generate_xf_image label lc fc size t = Ok (img, r, t') ->
  xf_valid r.
Proof.
  intros Hlabel Hfc H.
  apply generate_xf_image_spec in H.
  destruct H as ((t1 & t2 & Hs) & Hl & Hf & Hty & Hby & Htf & Hta & Hb).
  apply xf_shaft_lengths_spec in Hs.
  assert ((xf_length_case r = "EQUAL" \/ xf_length_case r = "LONG"
           \/ xf_length_case r = "SHORT")
          /\ 45 <= xf_top_length r /\ 45 <= xf_bottom_length r)
    as (Hlc & Htop & Hbot).
  { destruct Hs as [(_ & _ & -> & Hp & d & Hd & ->)
                   |[(_ & _ & -> & Hp & d & Hd & ->)
                    |(_ & -> & Hp & ->)]]; (split; [auto|lia]). }
  unfold xf_valid. rewrite Hl, Hf.
  assert (10 <= xf_bottom_fin_length r /\ 15 <= xf_bottom_fin_angle_deg r)
    by (destruct Hb as [(_ & -> & ->)|(_ & ? & ?)]; lia).
  repeat (split; [auto; lia|]). lia.
Qed.

Lemma xf_loop_valid n cr size :
  forall images configs t images' configs' t',
    xf_loop n cr size images configs t = Ok (images', configs', t') ->
    Forall xf_valid configs -> Forall xf_valid configs'.
Proof.
  induction n as [|n IH]; intros images configs t images' configs' t' H Hall.
  - cbn in H. finish H. exact Hall.
  - cbn [xf_loop] in H.
    step H. step H. step H. step H. destruct v2 as [img params].
    apply randint_range in E. apply choices_pair in E0.
    eapply IH; [exact H|].
    apply Forall_app. split; [exact Hall|].
    constructor; [|constructor].
    eapply generate_xf_image_valid; [| |exact E2]; [lia | exact E0].
Qed.

Lemma generate_muller_lyer_image_valid td bd fc size t img r t' :
  td = "LONG" \/ td = "SHORT" ->
  bd = "SAME_DIR" \/ bd = "DIFF_DIR" ->
  fc = "SAME_CONFIG" \/ fc = "DIFF_CONFIG" ->
  generate_muller_lyer_image td bd fc size t = Ok (img, r, t') ->
  ml_valid r.
Proof.
  intros Htd Hbd Hfc H.
  apply generate_muller_lyer_image_spec in H.
  destruct H as (Hl & Ht & Hb & Hf & Hs & Hty & Hby & Htf & Hta & Hbf).
  unfold ml_valid. rewrite Hl, Ht, Hb, Hf.
  assert (15 <= ml_bottom_fin_length r /\ 15 <= ml_bottom_fin_angle_deg r)
    by (destruct Hbf as [(_ & -> & ->)|(_ & ? & ?)]; lia).
  repeat (split; [auto; lia|]). lia.
Qed.

Lemma ml_loop_valid n cr size :
  forall images configs t images' configs' t',
    ml_loop n cr size images configs t = Ok (images', configs', t') ->
    Forall ml_valid configs -> Forall ml_valid configs'.
Proof.
  induction n as [|n IH]; intros images configs t images' configs' t' H Hall.
  - cbn in H. finish H. exact Hall.
  - cbn [ml_loop] in H.
    step H. step H. step H. step H. destruct v2 as [img params].
    apply choices_pair in E, E0, E1.
    eapply IH; [exact H|].
    apply Forall_app. split; [exact Hall|].
    constructor; [|constructor].
    eapply generate_muller_lyer_image_valid; [| | |exact E2]; assumption.
Qed.

Lemma digit_run_str z : 0 <= z -> digit_run (str z).
Proof. intros Hz. destruct (int_str z Hz) as (? & ? & _). split; assumption. Qed.

Lemma int_of_str z : 0 <= z -> int (str z) = Ok z.
Proof. intros Hz. apply (int_str z Hz). Qed.

Lemma xf_decode_filename i c :
  0 <= i -> xf_valid c ->
  Dataset.xf_decode (xf_filename i c) = Some (Ok (xf_params_of i c)).
Proof.
  intros Hi (Hl & Hlc & Hfc & H1 & H2 & H3 & H4 & H5 & H6 & H7 & H8).
  unfold Dataset.xf_decode. unfold xf_filename at 1.
  rewrite <- (append_nil_r ".png") at 1.
  rewrite xf_match_shape; auto using digit_run_str.
  - unfold Dataset.xf_build, re.group. cbn [nth Nat.sub].
    rewrite !int_of_str by (assumption || (destruct Hl as [-> | ->]; lia)).
    reflexivity.
  - destruct Hl as [-> | ->]; [left | right]; reflexivity.
Qed.

Lemma ml_decode_filename i c :
  0 <= i -> ml_valid c ->
  Dataset.ml_decode (ml_filename i c) = Some (Ok (ml_params_of i c)).
Proof.
  intros Hi (Hl & Htd & Hbd & Hfc & H1 & H2 & H3 & H4 & H5 & H6 & H7).
  unfold Dataset.ml_decode. unfold ml_filename at 1.
  rewrite <- (append_nil_r ".png") at 1.
  rewrite ml_match_shape; auto using digit_run_str.
  - unfold Dataset.ml_build, re.group. cbn [nth Nat.sub].
    rewrite !int_of_str by (assumption || (rewrite Hl; lia)).
    reflexivity.
  - rewrite Hl. left. reflexivity.
Qed.

(** C1. For both families, every record returned by the batch generator
    is reproduced by decoding the file name it is saved under: the match
    succeeds and the record built from its groups holds the index and
    the same value in every field (the dataset names four keys
    differently and also keeps the file name). *)
Theorem decode_encode_round_trip num_images case_ratio image_size t :
  (forall imgs configs t' i c,
      generate_xf_dataset num_images case_ratio image_size t
      = Ok (imgs, configs, t') ->
      nth_error configs i = Some c ->
      Dataset.xf_decode (xf_filename (Z.of_nat i) c)
      = Some (Ok (xf_params_of (Z.of_nat i) c)))
  /\ (forall imgs configs t' i c,
         generate_muller_lyer_dataset num_images case_ratio image_size t
         = Ok (imgs, configs, t') ->
         nth_error configs i = Some c ->
         Dataset.ml_decode (ml_filename (Z.of_nat i) c)
         = Some (Ok (ml_params_of (Z.of_nat i) c))).
Proof.
  split; intros imgs configs t' i c H Hc.
  - apply xf_decode_filename; [lia|].
    apply xf_loop_valid in H; [|constructor].
    rewrite Forall_forall in H. apply H. eapply nth_error_In. exact Hc.
  - apply ml_decode_filename; [lia|].
    apply ml_loop_valid in H; [|constructor].
    rewrite Forall_forall in H. apply H. eapply nth_error_In. exact Hc.
Qed.

Lemma decode_encode_round_trip_witness :
  Dataset.xf_decode (xf_filename 0 xf_floor) = Some (Ok (xf_params_of 0 xf_floor))
  /\ Dataset.ml_decode (ml_filename 0 ml_floor)
     = Some (Ok (ml_params_of 0 ml_floor)).
Proof.
  destruct (decode_encode_round_trip 1 [1; 1; 1; 1; 1; 2] 256 tape_label1)
    as [HX _].
  destruct (decode_encode_round_trip 1 [1; 1; 1; 1; 1; 2] 256 [])
    as [_ HM].
  split.
  - eapply (HX _ _ _ 0%nat); [vm_compute; reflexivity | reflexivity].
  - eapply (HM _ _ _ 0%nat); [vm_compute; reflexivity | reflexivity].
Defined.

End RoundTrip.

(** ** The datasets *)

Section DatasetClaims.

Import Dataset.

(** C9. Decoding checks the shape of the tokens only.  A Cross-Fin name
    with label 0, case [LONG] and shafts 120 and 115, and a Müller-Lyer
    name with label 1, both contradict the invariants of the data model,
    yet each is decoded and its record enters the index unchanged. *)
Theorem decode_ignores_cross_field_invariants :
  xf_decode xf_inconsistent_name = Some (Ok xf_inconsistent)
  /\ xf_label xf_inconsistent = 0
  /\ xf_length_case xf_inconsistent <> "EQUAL"
  /\ xf_top_length xf_inconsistent <> xf_bottom_length xf_inconsistent
  /\ ml_decode ml_inconsistent_name = Some (Ok ml_inconsistent)
  /\ ml_label ml_inconsistent <> 0
  /\ (forall (Img : Type) (transform : option (Img -> result Img)),
         CrossFinDataset_init Img (fun _ => Ok [xf_inconsistent_name])
                              "training_data" transform []
         = Ok (mk_CrossFinDataset Img "training_data" transform
                                  [xf_inconsistent_name] [xf_inconsistent],
               ["Found 1 CrossFin images in training_data"]))
  /\ (forall (Img : Type) (transform : option (Img -> result Img)),
         MullerLyerDataset_init Img (fun _ => Ok [ml_inconsistent_name])
                                "test_data" transform []
         = Ok (mk_MullerLyerDataset Img "test_data" transform
                                    [ml_inconsistent_name] [ml_inconsistent],
               ["Scanning directory: test_data";
                "Found 1 " ++ Muller_Lyer ++ " images."])).
Proof.
  split; [vm_compute; reflexivity|].
  split; [reflexivity|]. split; [discriminate|]. split; [discriminate|].
  split; [vm_compute; reflexivity|]. split; [discriminate|].
  split; intros Img transform; vm_compute; reflexivity.
Qed.

(** C7. When opening the image of a valid index fails, the Müller-Lyer
    [__getitem__] reports it, goes on with a new mode-[L] image of size
    [IMG_SIZE x IMG_SIZE] filled with 128 and returns it (transformed, if
    a transform is set) with the record, whereas the Cross-Fin
    [__getitem__] raises the same exception to its caller. *)
Theorem open_failure_asymmetry
        (Img : Type) (Image_open : string -> result Img)
        (Image_convert : Img -> string -> result Img)
        (Image_new : string -> Z * Z -> Z -> Img)
        (idx : Z) (fname : string) (e : exn) (out : console) :
  (forall (self : MullerLyerDataset Img) (params : ml_params),
      getitem (ml_image_files Img self) idx = Ok fname ->
      getitem (ml_image_params Img self) idx = Ok params ->
      Image_open (os_path_join (ml_data_dir Img self) fname) = Raise e ->
      let dummy := Image_new "L" (IMG_SIZE, IMG_SIZE) 128 in
      let message := "Error loading image "
                     ++ os_path_join (ml_data_dir Img self) fname
                     ++ ": " ++ exn_text e ++ ". Returning dummy." in
      let out' := (out ++ [message])%list in
      MullerLyerDataset_getitem Img Image_open Image_convert Image_new
                                self idx out
      = match ml_transform Img self with
        | None => Ok (dummy, params, out')
        | Some transform =>
          match transform dummy with
          | Ok image => Ok (image, params, out')
          | Raise e' => Raise e'
          end
        end)
  /\ (forall (self : CrossFinDataset Img) (p : xf_params),
         getitem (xf_image_files Img self) idx = Ok fname ->
         getitem (xf_params_list Img self) idx = Ok p ->
         Image_open (os_path_join (xf_data_dir Img self) fname) = Raise e ->
         CrossFinDataset_getitem Img Image_open Image_convert self idx out
         = Raise e).
Proof.
  split.
  - intros self params Hf Hp Ho.
    unfold MullerLyerDataset_getitem, bind, lift, try_except, print, ret.
    rewrite Hf, Hp, Ho. cbn.
    destruct (ml_transform Img self) as [transform|]; [|reflexivity].
    destruct (transform _); reflexivity.
  - intros self p Hf Hp Ho.
    unfold CrossFinDataset_getitem, bind, lift.
    rewrite Hf, Hp, Ho. reflexivity.
Qed.

Lemma open_failure_asymmetry_witness :
  MullerLyerDataset_getitem
    Z unreadable (fun img _ => Ok img) (fun _ _ fill => fill)
    (mk_MullerLyerDataset Z "test_data" None
                          [ml_inconsistent_name] [ml_inconsistent]) 0 []
  = Ok (128, ml_inconsistent,
        ["Error loading image test_data/" ++ ml_inconsistent_name ++ ": "
         ++ "test_data/" ++ ml_inconsistent_name ++ ". Returning dummy."])
  /\ CrossFinDataset_getitem
       Z unreadable (fun img _ => Ok img)
       (mk_CrossFinDataset Z "training_data" None
                           [xf_inconsistent_name] [xf_inconsistent]) 0 []
     = Raise (OSError ("training_data/" ++ xf_inconsistent_name)).
Proof.
  split.
  - exact (proj1 (open_failure_asymmetry
                    Z unreadable (fun img _ => Ok img) (fun _ _ fill => fill)
                    0 ml_inconsistent_name
                    (OSError ("test_data/" ++ ml_inconsistent_name)) [])
                 (mk_MullerLyerDataset Z "test_data" None
                                       [ml_inconsistent_name] [ml_inconsistent])
                 ml_inconsistent eq_refl eq_refl eq_refl).
  - exact (proj2 (open_failure_asymmetry
                    Z unreadable (fun img _ => Ok img) (fun _ _ fill => fill)
                    0 xf_inconsistent_name
                    (OSError ("training_data/" ++ xf_inconsistent_name)) [])
                 (mk_CrossFinDataset Z "training_data" None
                                     [xf_inconsistent_name] [xf_inconsistent])
                 xf_inconsistent eq_refl eq_refl eq_refl).
Defined.

End DatasetClaims.

(** ** What a match says about the subject *)

Section MatcherInversion.

Import re.

Lemma strip_prefix_Some l : forall s s',
  strip_prefix l s = Some s' -> s = l ++ s'.
Proof.
  induction l as [|a l IH]; intros s s' H; cbn in H.
  - inversion H. reflexivity.
  - destruct s as [|b s]; [discriminate|].
    destruct (Ascii.eqb_spec a b) as [->|]; [|discriminate].
    cbn. f_equal. apply IH. exact H.
Qed.

Lemma many1_digits_inv {R : Type} (k : string -> string -> option R) s :
  forall acc r,
    many1_digits k acc s = Some r ->
    exists ds s', s = ds ++ s' /\ digit_run ds /\ k (acc ++ ds) s' = Some r.
Proof.
  induction s as [|c s IH]; intros acc r H; cbn in H; [discriminate|].
  destruct (is_digit c) eqn:Hc; [|discriminate].
  destruct (many1_digits k (acc ++ String c "") s) as [r0|] eqn:E.
  - inversion H; subst r0.
    destruct (IH _ _ E) as (ds & s' & -> & [Hd Hne] & Hk).
    exists (String c ds), s'. split; [reflexivity|]. split.
    + split; [cbn; rewrite Hc, Hd; reflexivity | discriminate].
    + rewrite append_assoc_s in Hk. exact Hk.
  - exists (String c ""), s. split; [reflexivity|]. split; [|exact H].
    split; [cbn; rewrite Hc; reflexivity | discriminate].
Qed.

Lemma try_alts_inv {R : Type} (k : string -> string -> option R) alts s r :
  try_alts k alts s = Some r ->
  exists a s', In a alts /\ s = a ++ s' /\ k a s' = Some r.
Proof.
  induction alts as [|a alts IH]; cbn; [discriminate|].
  destruct (strip_prefix a s) as [rest|] eqn:E.
  - destruct (k a rest) as [r0|] eqn:Hk.
    + intros H. inversion H; subst r0.
      exists a, rest. split; [left; reflexivity|].
      split; [apply strip_prefix_Some; exact E | exact Hk].
    + intros H. destruct (IH H) as (a' & s' & Hin & Hs & Hk').
      exists a', s'. auto.
  - intros H. destruct (IH H) as (a' & s' & Hin & Hs & Hk').
    exists a', s'. auto.
Qed.

Lemma exec_lit_inv l p pos s groups r :
  exec (Lit l :: p) pos s groups = Some r ->
  exists s', s = l ++ s' /\ exec p (pos + String.length l) s' groups = Some r.
Proof.
  cbn [exec]. destruct (strip_prefix l s) as [rest|] eqn:E; [|discriminate].
  intros H. exists rest. split; [apply strip_prefix_Some; exact E | exact H].
Qed.

Lemma exec_digits_inv p pos s groups r :
  exec (Digits :: p) pos s groups = Some r ->
  exists ds s', s = ds ++ s' /\ digit_run ds
                /\ exec p (pos + String.length ds) s' (groups ++ [ds]) = Some r.
Proof. cbn [exec]. intros H. apply many1_digits_inv in H. exact H. Qed.

Lemma exec_alt_inv alts p pos s groups r :
  exec (AltLit alts :: p) pos s groups = Some r ->
  exists a s', In a alts /\ s = a ++ s'
               /\ exec p (pos + String.length a) s' (groups ++ [a]) = Some r.
Proof. cbn [exec]. intros H. apply try_alts_inv in H. exact H. Qed.

Lemma exec_oneof_inv cs p pos s groups r :
  exec (OneOf cs :: p) pos s groups = Some r ->
  exists c s', s = String c "" ++ s' /\ In c cs
               /\ exec p (S pos) s' (groups ++ [String c ""]) = Some r.
Proof.
  cbn [exec]. destruct s as [|c s']; [discriminate|].
  destruct (existsb (Ascii.eqb c) cs) eqn:E; [|discriminate].
  intros H. exists c, s'. split; [reflexivity|]. split; [|exact H].
  apply existsb_exists in E. destruct E as (x & Hin & Hx).
  apply Ascii.eqb_eq in Hx. subst x. exact Hin.
Qed.

Lemma exec_eos_inv pos s groups r :
  exec [Eos] pos s groups = Some r ->
  (s = "" \/ s = newline) /\ r = groups.
Proof.
  cbn [exec]. destruct s as [|c s'].
  - intros H. inversion H. auto.
  - destruct c as [[] [] [] [] [] [] [] []]; try discriminate.
    destruct s'; [|discriminate].
    intros H. inversion H. split; [right; reflexivity | reflexivity].
Qed.

End MatcherInversion.

(** ** The patterns against the published grammars *)

Section PatternsAndGrammars.

Import re Dataset.

Ltac ilit H s := apply exec_lit_inv in H; destruct H as (s & -> & H).
Ltac idig H d s Hd :=
  apply exec_digits_inv in H; destruct H as (d & s & -> & Hd & H).
Ltac ialt H a s Ha :=
  apply exec_alt_inv in H; destruct H as (a & s & Ha & -> & H).

Lemma xf_match_inv s m :
  match_ xf_pattern s = Some m ->
  exists s0 nl, xf_grammar s0 /\ (nl = "" \/ nl = newline) /\ s = s0 ++ nl.
Proof.
  unfold match_, xf_pattern. intros H.
  change (exec (Bos :: ?p) 0 s []) with (exec p 0 s []) in H.
  ilit H s1. idig H d1 s2 H1. ilit H s3.
  apply exec_oneof_inv in H. destruct H as (c & s4 & -> & Hc & H).
  ilit H s5. ialt H lc s6 Hlc. ilit H s7. ialt H fc s8 Hfc. ilit H s9.
  idig H d5 s10 H5. ilit H s11. idig H d6 s12 H6. ilit H s13.
  idig H d7 s14 H7. ilit H s15. idig H d8 s16 H8. ilit H s17.
  idig H d9 s18 H9. ilit H s19. idig H d10 s20 H10. ilit H s21.
  idig H d11 s22 H11. ilit H s23. idig H d12 s24 H12. ilit H nl.
  apply exec_eos_inv in H. destruct H as [Hnl _].
  exists ("xf_" ++ d1 ++ "_" ++ String c "" ++ "_" ++ lc ++ "_" ++ fc
          ++ "_" ++ d5 ++ "_" ++ d6 ++ "_" ++ d7 ++ "_" ++ d8
          ++ "_" ++ d9 ++ "_" ++ d10 ++ "_" ++ d11 ++ "_" ++ d12 ++ ".png"), nl.
  split; [|split; [exact Hnl|]].
  - exists d1, (String c ""), lc, fc, d5, d6, d7, d8, d9, d10, d11, d12.
    repeat (split; [assumption|]).
    split; [cbn in Hc; destruct Hc as [<- | [<- | []]]; auto|].
    split; [cbn in Hlc; intuition auto|].
    split; [cbn in Hfc; intuition auto|].
    repeat (split; [assumption|]). reflexivity.
  - rewrite !append_assoc_s. reflexivity.
Qed.

Lemma ml_match_inv s m :
  match_ ml_pattern s = Some m ->
  exists s0 nl, ml_grammar s0 /\ (nl = "" \/ nl = newline) /\ s = s0 ++ nl.
Proof.
  unfold match_, ml_pattern. intros H.
  change (exec (Bos :: ?p) 0 s []) with (exec p 0 s []) in H.
  ilit H s1. idig H d1 s2 H1. ilit H s3.
  apply exec_oneof_inv in H. destruct H as (c & s4 & -> & Hc & H).
  ilit H s5. ialt H td s6 Htd. ilit H s7. ialt H bd s8 Hbd. ilit H s9.
  ialt H fc s10 Hfc. ilit H s11.
  idig H d6 s12 H6. ilit H s13.
  idig H d7 s14 H7. ilit H s15. idig H d8 s16 H8. ilit H s17.
  idig H d9 s18 H9. ilit H s19. idig H d10 s20 H10. ilit H s21.
  idig H d11 s22 H11. ilit H s23. idig H d12 s24 H12. ilit H nl.
  apply exec_eos_inv in H. destruct H as [Hnl _].
  exists ("ml_" ++ d1 ++ "_" ++ String c "" ++ "_" ++ td ++ "_" ++ bd
          ++ "_" ++ fc ++ "_" ++ d6 ++ "_" ++ d7 ++ "_" ++ d8
          ++ "_" ++ d9 ++ "_" ++ d10 ++ "_" ++ d11 ++ "_" ++ d12 ++ ".png"), nl.
  split; [|split; [exact Hnl|]].
  - exists d1, (String c ""), td, bd, fc, d6, d7, d8, d9, d10, d11, d12.
    repeat (split; [assumption|]).
    split; [cbn in Hc; destruct Hc as [<- | [<- | []]]; auto|].
    split; [cbn in Htd; intuition auto|].
    split; [cbn in Hbd; intuition auto|].
    split; [cbn in Hfc; intuition auto|].
    repeat (split; [assumption|]). reflexivity.
  - rewrite !append_assoc_s. reflexivity.
Qed.

Lemma xf_grammar_matches s0 nl :
  xf_grammar s0 -> nl = "" \/ nl = newline ->
  match_ xf_pattern (s0 ++ nl) <> None.
Proof.
  intros (d1 & lab & lc & fc & d5 & d6 & d7 & d8 & d9 & d10 & d11 & d12
          & H1 & Hlab & Hlc & Hfc & H5 & H6 & H7 & H8 & H9 & H10 & H11 & H12
          & ->) Hnl.
  rewrite !append_assoc_s.
  rewrite xf_match_shape by assumption. discriminate.
Qed.

Lemma ml_grammar_matches s0 nl :
  ml_grammar s0 -> nl = "" \/ nl = newline ->
  match_ ml_pattern (s0 ++ nl) <> None.
Proof.
  intros (d1 & lab & td & bd & fc & d6 & d7 & d8 & d9 & d10 & d11 & d12
          & H1 & Hlab & Htd & Hbd & Hfc & H6 & H7 & H8 & H9 & H10 & H11 & H12
          & ->) Hnl.
  rewrite !append_assoc_s.
  rewrite ml_match_shape; [discriminate | try assumption ..].
  destruct Hbd; auto.
Qed.

Lemma last_char_png a : last_char (a ++ ".png") = Some "g"%char.
Proof.
  induction a as [|c a IH]; [reflexivity|].
  cbn [append last_char]. rewrite IH.
  destruct (a ++ ".png") eqn:E; [|reflexivity].
  destruct a; discriminate.
Qed.

Lemma xf_grammar_last s : xf_grammar s -> last_char s = Some "g"%char.
Proof.
  intros (d1 & lab & lc & fc & d5 & d6 & d7 & d8 & d9 & d10 & d11 & d12
          & _ & _ & _ & _ & _ & _ & _ & _ & _ & _ & _ & _ & ->).
  rewrite <- !append_assoc_s. apply last_char_png.
Qed.

Lemma ml_grammar_last s : ml_grammar s -> last_char s = Some "g"%char.
Proof.
  intros (d1 & lab & td & bd & fc & d6 & d7 & d8 & d9 & d10 & d11 & d12
          & _ & _ & _ & _ & _ & _ & _ & _ & _ & _ & _ & _ & ->).
  rewrite <- !append_assoc_s. apply last_char_png.
Qed.

Lemma xf_decode_None s : xf_decode s = None <-> match_ xf_pattern s = None.
Proof.
  unfold xf_decode. destruct (match_ xf_pattern s); split; intros H;
    (discriminate || reflexivity).
Qed.

Lemma ml_decode_None s : ml_decode s = None <-> match_ ml_pattern s = None.
Proof.
  unfold ml_decode. destruct (match_ ml_pattern s); split; intros H;
    (discriminate || reflexivity).
Qed.

Lemma patterns_exclusive s :
  match_ xf_pattern s = None \/ match_ ml_pattern s = None.
Proof.
  destruct (match_ xf_pattern s) as [m|] eqn:E; [right | left; reflexivity].
  unfold match_, xf_pattern in E.
  change (exec (Bos :: ?p) 0 s []) with (exec p 0 s []) in E.
  apply exec_lit_inv in E. destruct E as (s1 & -> & _).
  reflexivity.
Qed.

(** C8. The two patterns never match the same string, and each rejects
    the listed malformed names; but neither is strict: a pattern matches
    exactly the names of its published grammar and those names followed
    by one newline, because [$] also matches before a final newline.  A
    well-formed name followed by a newline is not in the grammar and is
    still decoded, by either family. *)
Theorem patterns_exclusive_not_strict :
  (forall s, xf_decode s = None \/ ml_decode s = None)
  /\ (forall s, xf_decode s <> None <->
                exists s0 nl, xf_grammar s0 /\ (nl = "" \/ nl = newline)
                              /\ s = s0 ++ nl)
  /\ (forall s, ml_decode s <> None <->
                exists s0 nl, ml_grammar s0 /\ (nl = "" \/ nl = newline)
                              /\ s = s0 ++ nl)
  /\ Forall (fun s => xf_decode s = None /\ ml_decode s = None) garbage_names
  /\ ~ xf_grammar xf_newline_name
  /\ xf_decode xf_newline_name
     = Some (Ok (mk_xf_params 0 1 "LONG" "DIFF_CONFIG" 120 115 15 45 18 50 60 200
                              xf_newline_name))
  /\ ~ ml_grammar ml_newline_name
  /\ ml_decode ml_newline_name
     = Some (Ok (mk_ml_params 0 0 "LONG" "SAME_DIR" "SAME_CONFIG"
                              45 15 15 15 15 51 153 ml_newline_name)).
Proof.
  split.
  { intros s. destruct (patterns_exclusive s) as [H|H]; [left|right].
    - apply xf_decode_None. exact H.
    - apply ml_decode_None. exact H. }
  split.
  { intros s. rewrite xf_decode_None. split.
    - destruct (match_ xf_pattern s) as [m|] eqn:E; [|congruence].
      intros _. eapply xf_match_inv. exact E.
    - intros (s0 & nl & Hg & Hnl & ->). apply xf_grammar_matches; assumption. }
  split.
  { intros s. rewrite ml_decode_None. split.
    - destruct (match_ ml_pattern s) as [m|] eqn:E; [|congruence].
      intros _. eapply ml_match_inv. exact E.
    - intros (s0 & nl & Hg & Hnl & ->). apply ml_grammar_matches; assumption. }
  split.
  { unfold garbage_names. repeat constructor. }
  split.
  { intros H. apply xf_grammar_last in H. vm_compute in H. discriminate. }
  split; [vm_compute; reflexivity|].
  split.
  { intros H. apply ml_grammar_last in H. vm_compute in H. discriminate. }
  vm_compute. reflexivity.
Qed.

End PatternsAndGrammars.

(** * Further properties of the samplers *)

Section SamplerGeometry.

Import data_generation.

Lemma xf_lengths_in_range label lc size t lc' top bottom t' :
  xf_shaft_lengths label lc 45 (int_mul_0_8 size) t = Ok (lc', top, bottom, t') ->
  45 <= int_mul_0_8 size
  /\ 45 <= top <= int_mul_0_8 size /\ 45 <= bottom <= int_mul_0_8 size
  /\ (lc' = "LONG" -> bottom <= top) /\ (lc' = "SHORT" -> top <= bottom).
Proof.
  intros H. apply xf_shaft_lengths_spec in H.
  destruct H as [(_ & _ & -> & Hp & d & Hd & ->)
                |[(_ & _ & -> & Hp & d & Hd & ->)
                 |(_ & -> & Hp & ->)]];
    repeat split; try lia; intros; (lia || discriminate).
Qed.

Lemma rows_of_size size y1 y2 :
  45 <= int_mul_0_8 size ->
  size / 5 <= y1 <= size / 5 * 2 -> size / 5 * 3 <= y2 <= size / 5 * 4 ->
  0 < y1 /\ y1 < y2 /\ y2 < size.
Proof.
  intros Hs H1 H2. destruct (int_mul_0_8_bound size Hs) as [Hpos Hq].
  assert (11 <= size / 5) by (apply Z.div_le_lower_bound; lia).
  pose proof (Z.mul_div_le size 5 ltac:(lia)). lia.
Qed.

(** X1. Vertical placement: in a record returned by either sampler the top
    row is strictly above the bottom row and both rows are inside the
    image. *)
Theorem rows_ordered_inside_image label lc td bd fc size t :
  (forall img r t',
      generate_xf_image label lc fc size t = Ok (img, r, t') ->
      0 < xf_top_y r /\ xf_top_y r < xf_bottom_y r /\ xf_bottom_y r < size)
  /\ (forall img r t',
         generate_muller_lyer_image td bd fc size t = Ok (img, r, t') ->
         0 < ml_top_y r /\ ml_top_y r < ml_bottom_y r /\ ml_bottom_y r < size).
Proof.
  split; intros img r t' H.
  - apply generate_xf_image_spec in H.
    destruct H as ((t1 & t2 & Hs) & _ & _ & Hty & Hby & _).
    apply xf_lengths_in_range in Hs. destruct Hs as (Hm & _).
    apply rows_of_size; assumption.
  - apply generate_muller_lyer_image_spec in H.
    destruct H as (_ & _ & _ & _ & Hs & Hty & Hby & _).
    apply rows_of_size; [lia | assumption | assumption].
Qed.

Lemma rows_ordered_inside_image_witness :
  (0 < xf_top_y xf_long_same /\ xf_top_y xf_long_same < xf_bottom_y xf_long_same
   /\ xf_bottom_y xf_long_same < 256)
  /\ (0 < ml_top_y ml_floor /\ ml_top_y ml_floor < ml_bottom_y ml_floor
      /\ ml_bottom_y ml_floor < 256).
Proof.
  destruct (rows_ordered_inside_image 1 "LONG" "LONG" "SAME_DIR" "SAME_CONFIG"
                                      256 tape_long_same) as [HX _].
  destruct (rows_ordered_inside_image 1 "LONG" "LONG" "SAME_DIR" "SAME_CONFIG"
                                      256 tape_floor) as [_ HM].
  split.
  - eapply HX. vm_compute. reflexivity.
  - eapply HM. vm_compute. reflexivity.
Defined.

(** X2. Lengths and angles: both Cross-Fin shafts lie in
    [[45, int(0.8 * image_size)]], the nominal order of [LONG] and
    [SHORT] is never reversed, and every fin angle of either family lies
    in [[15, 75]]; a Müller-Lyer record has label 0 and its one shaft
    length in the same range. *)
Theorem shaft_and_angle_ranges label lc td bd fc size t :
  (forall img r t',
      generate_xf_image label lc fc size t = Ok (img, r, t') ->
      45 <= xf_top_length r <= int_mul_0_8 size
      /\ 45 <= xf_bottom_length r <= int_mul_0_8 size
      /\ 5 * int_mul_0_8 size <= 4 * size
      /\ (xf_length_case r = "LONG" -> xf_bottom_length r <= xf_top_length r)
      /\ (xf_length_case r = "SHORT" -> xf_top_length r <= xf_bottom_length r)
      /\ 15 <= xf_top_fin_angle_deg r <= 75
      /\ 15 <= xf_bottom_fin_angle_deg r <= 75)
  /\ (forall img r t',
         generate_muller_lyer_image td bd fc size t = Ok (img, r, t') ->
         ml_label r = 0
         /\ 45 <= ml_shaft_length r <= int_mul_0_8 size
         /\ 5 * int_mul_0_8 size <= 4 * size
         /\ 15 <= ml_top_fin_angle_deg r <= 75
         /\ 15 <= ml_bottom_fin_angle_deg r <= 75).
Proof.
  split; intros img r t' H.
  - apply generate_xf_image_spec in H.
    destruct H as ((t1 & t2 & Hs) & _ & _ & _ & _ & _ & Hta & Hb).
    apply xf_lengths_in_range in Hs.
    destruct Hs as (Hm & Htop & Hbot & Hlong & Hshort).
    destruct (int_mul_0_8_bound size Hm) as [_ Hq].
    repeat (split; [assumption || lia|]).
    destruct Hb as [(_ & _ & ->)|(_ & _ & ?)]; lia.
  - apply generate_muller_lyer_image_spec in H.
    destruct H as (Hl & _ & _ & _ & Hs & _ & _ & _ & Hta & Hb).
    destruct (int_mul_0_8_bound size ltac:(lia)) as [_ Hq].
    repeat (split; [assumption || lia|]).
    destruct Hb as [(_ & _ & ->)|(_ & _ & ?)]; lia.
Qed.

Lemma shaft_and_angle_ranges_witness :
  (45 <= xf_top_length xf_long_same <= int_mul_0_8 256
   /\ 45 <= xf_bottom_length xf_long_same <= int_mul_0_8 256
   /\ 5 * int_mul_0_8 256 <= 4 * 256
   /\ (xf_length_case xf_long_same = "LONG" ->
       xf_bottom_length xf_long_same <= xf_top_length xf_long_same)
   /\ (xf_length_case xf_long_same = "SHORT" ->
       xf_top_length xf_long_same <= xf_bottom_length xf_long_same)
   /\ 15 <= xf_top_fin_angle_deg xf_long_same <= 75
   /\ 15 <= xf_bottom_fin_angle_deg xf_long_same <= 75)
  /\ (ml_label ml_floor = 0
      /\ 45 <= ml_shaft_length ml_floor <= int_mul_0_8 256
      /\ 5 * int_mul_0_8 256 <= 4 * 256
      /\ 15 <= ml_top_fin_angle_deg ml_floor <= 75
      /\ 15 <= ml_bottom_fin_angle_deg ml_floor <= 75).
Proof.
  destruct (shaft_and_angle_ranges 1 "LONG" "LONG" "SAME_DIR" "SAME_CONFIG"
                                   256 tape_long_same) as [HX _].
  destruct (shaft_and_angle_ranges 1 "LONG" "LONG" "SAME_DIR" "SAME_CONFIG"
                                   256 tape_floor) as [_ HM].
  split.
  - eapply HX. vm_compute. reflexivity.
  - eapply HM. vm_compute. reflexivity.
Defined.

End SamplerGeometry.

(** * The rendered image *)

Section Rendering.

Import data_generation.

(** X3. The Cross-Fin image is a function of the record and the size: a white
    [RGB] square with the two centred horizontal shafts of the recorded
    lengths on the recorded rows, followed, for the left and right end of
    the top shaft and then of the bottom shaft, by the four strokes of an
    X with the fin length and angle of that shaft.  Two runs that return
    the same record for the same size return the same image. *)
Theorem xf_image_of_record label lc fc size t img r t' :
  generate_xf_image label lc fc size t = Ok (img, r, t') ->
  let top_x := size / 2 - xf_top_length r / 2 in
  let bottom_x := size / 2 - xf_bottom_length r / 2 in
  let tl := (top_x, xf_top_y r) in
  let tr := (top_x + xf_top_length r, xf_top_y r) in
  let bl := (bottom_x, xf_bottom_y r) in
  let br := (bottom_x + xf_bottom_length r, xf_bottom_y r) in
  let X c len ang :=
      [Fin c (-1) (-1) len ang; Fin c 1 (-1) len ang;
       Fin c (-1) 1 len ang; Fin c 1 1 len ang] in
  img = mkImage "RGB" (size, size) "white"
                ([Shaft tl tr; Shaft bl br]
                 ++ X tl (xf_top_fin_length r) (xf_top_fin_angle_deg r)
                 ++ X tr (xf_top_fin_length r) (xf_top_fin_angle_deg r)
                 ++ X bl (xf_bottom_fin_length r) (xf_bottom_fin_angle_deg r)
                 ++ X br (xf_bottom_fin_length r) (xf_bottom_fin_angle_deg r))%list.
Proof.
  unfold generate_xf_image. intros H.
  step H. step H. step H. destruct v1 as [[lc' top] bottom].
  step H. step H. step H. destruct v3 as [bf ba].
  finish H. reflexivity.
Qed.

Lemma xf_image_of_record_witness :
  exists img,
    generate_xf_image 1 "LONG" "SAME_CONFIG" 256 tape_long_same
    = Ok (img, xf_long_same, [])
    /\ img_strokes img
       = [Shaft (76, 51) (181, 51); Shaft (106, 153) (151, 153);
          Fin (76, 51) (-1) (-1) 35 18; Fin (76, 51) 1 (-1) 35 18;
          Fin (76, 51) (-1) 1 35 18; Fin (76, 51) 1 1 35 18;
          Fin (181, 51) (-1) (-1) 35 18; Fin (181, 51) 1 (-1) 35 18;
          Fin (181, 51) (-1) 1 35 18; Fin (181, 51) 1 1 35 18;
          Fin (106, 153) (-1) (-1) 35 18; Fin (106, 153) 1 (-1) 35 18;
          Fin (106, 153) (-1) 1 35 18; Fin (106, 153) 1 1 35 18;
          Fin (151, 153) (-1) (-1) 35 18; Fin (151, 153) 1 (-1) 35 18;
          Fin (151, 153) (-1) 1 35 18; Fin (151, 153) 1 1 35 18].
Proof.
  assert (exists img, generate_xf_image 1 "LONG" "SAME_CONFIG" 256 tape_long_same
                      = Ok (img, xf_long_same, [])) as [img H]
      by (eexists; vm_compute; reflexivity).
  exists img. split; [exact H|].
  rewrite (xf_image_of_record _ _ _ _ _ _ _ _ H). reflexivity.
Defined.

(** X4. Direction mapping of the Müller-Lyer arrowheads, for the documented
    cases.  A fin stroke with sign [-1] in x runs towards smaller x.  With
    [top_dir_case = LONG] the strokes at the left end of the top shaft run
    left and those at the right end run right (away from the shaft); with
    [SHORT] they run towards the shaft.  [SAME_DIR] gives the bottom shaft
    the pattern of the top one and [DIFF_DIR] the opposite one.  Each end
    gets one stroke up and one down, with the fin length and angle of its
    shaft. *)
Theorem ml_image_of_record td bd fc size t img r t' :
  generate_muller_lyer_image td bd fc size t = Ok (img, r, t') ->
  td = "LONG" \/ td = "SHORT" ->
  bd = "SAME_DIR" \/ bd = "DIFF_DIR" ->
  let len := ml_shaft_length r in
  let x := size / 2 - len / 2 in
  let tl := (x, ml_top_y r) in
  let tr := (x + len, ml_top_y r) in
  let bl := (x, ml_bottom_y r) in
  let br := (x + len, ml_bottom_y r) in
  let s_top := if (ml_top_dir_case r =? "LONG")%string then -1 else 1 in
  let s_bot := if (ml_bottom_dir_case r =? "SAME_DIR")%string
               then s_top else - s_top in
  let A l r' s flen ang :=
      [Fin l s (-1) flen ang; Fin l s 1 flen ang;
       Fin r' (- s) (-1) flen ang; Fin r' (- s) 1 flen ang] in
  img = mkImage "RGB" (size, size) "white"
                ([Shaft tl tr; Shaft bl br]
                 ++ A tl tr s_top (ml_top_fin_length r) (ml_top_fin_angle_deg r)
                 ++ A bl br s_bot (ml_bottom_fin_length r)
                      (ml_bottom_fin_angle_deg r))%list.
Proof.
  unfold generate_muller_lyer_image. intros H Htd Hbd.
  step H. step H. step H. step H. step H. step H. destruct v4 as [bf ba].
  finish H.
  destruct Htd as [-> | ->]; destruct Hbd as [-> | ->]; reflexivity.
Qed.

Lemma ml_image_of_record_witness :
  exists img,
    generate_muller_lyer_image "LONG" "SAME_DIR" "SAME_CONFIG" 256 tape_floor
    = Ok (img, ml_floor, [0%N])
    /\ img_strokes img
       = [Shaft (106, 51) (151, 51); Shaft (106, 153) (151, 153);
          Fin (106, 51) (-1) (-1) 15 15; Fin (106, 51) (-1) 1 15 15;
          Fin (151, 51) 1 (-1) 15 15; Fin (151, 51) 1 1 15 15;
          Fin (106, 153) (-1) (-1) 15 15; Fin (106, 153) (-1) 1 15 15;
          Fin (151, 153) 1 (-1) 15 15; Fin (151, 153) 1 1 15 15].
Proof.
  assert (exists img,
             generate_muller_lyer_image "LONG" "SAME_DIR" "SAME_CONFIG" 256
                                        tape_floor
             = Ok (img, ml_floor, [0%N])) as [img H]
      by (eexists; vm_compute; reflexivity).
  exists img. split; [exact H|].
  rewrite (ml_image_of_record _ _ _ _ _ _ _ _ H
                              (or_introl eq_refl) (or_introl eq_refl)).
  reflexivity.
Defined.

(** X5. A case string outside the documented ones is not rejected.  For
    every [image_size] from 57 to 4096 the sampler returns a record, which
    carries the two case strings as given.  With a [top_dir_case] other
    than [LONG] and [SHORT] the image holds the two shafts and nothing
    else, whatever [bottom_dir_case] is.  With a valid [top_dir_case] and
    a [bottom_dir_case] other than [SAME_DIR] and [DIFF_DIR] the image
    holds the two shafts and the four strokes of the top shaft, two at
    each of its ends, with the top fin length and angle; the bottom shaft
    stays bare. *)
Theorem ml_unknown_case_draws_no_arrowheads td bd fc size t :
  (forall img r t',
      generate_muller_lyer_image td bd fc size t = Ok (img, r, t') ->
      let len := ml_shaft_length r in
      let x := size / 2 - len / 2 in
      let tl := (x, ml_top_y r) in
      let tr := (x + len, ml_top_y r) in
      let bl := (x, ml_bottom_y r) in
      let br := (x + len, ml_bottom_y r) in
      let flen := ml_top_fin_length r in
      let ang := ml_top_fin_angle_deg r in
      ml_top_dir_case r = td /\ ml_bottom_dir_case r = bd
      /\ (td <> "LONG" -> td <> "SHORT" ->
          img = mkImage "RGB" (size, size) "white" [Shaft tl tr; Shaft bl br])
      /\ (td = "LONG" \/ td = "SHORT" ->
          bd <> "SAME_DIR" -> bd <> "DIFF_DIR" ->
          let s := if (td =? "LONG")%string then -1 else 1 in
          img = mkImage "RGB" (size, size) "white"
                        [Shaft tl tr; Shaft bl br;
                         Fin tl s (-1) flen ang; Fin tl s 1 flen ang;
                         Fin tr (- s) (-1) flen ang; Fin tr (- s) 1 flen ang]))
  /\ (57 <= size <= 4096 ->
      exists img r t',
        generate_muller_lyer_image td bd fc size t = Ok (img, r, t')).
Proof.
  split.
  - intros img r t' H. unfold generate_muller_lyer_image in H.
    step H. step H. step H. step H. step H. step H. destruct v4 as [bf ba].
    finish H.
    cbn [ml_top_dir_case ml_bottom_dir_case ml_shaft_length ml_top_y
         ml_bottom_y ml_top_fin_length ml_top_fin_angle_deg].
    split; [reflexivity|]. split; [reflexivity|]. split.
    + intros H1 H2.
      destruct (String.eqb_spec td "LONG"); [contradiction|].
      destruct (String.eqb_spec td "SHORT"); [contradiction|]. reflexivity.
    + intros Htd H1 H2.
      destruct (String.eqb_spec bd "SAME_DIR"); [contradiction|].
      destruct (String.eqb_spec bd "DIFF_DIR"); [contradiction|].
      destruct Htd as [-> | ->]; reflexivity.
  - intros Hs. apply generate_muller_lyer_image_total.
    apply int_mul_0_8_57. lia.
Qed.

Lemma ml_unknown_case_draws_no_arrowheads_witness :
  (exists img t',
      generate_muller_lyer_image "EQUAL" "SAME_DIR" "SAME_CONFIG" 256 tape_floor
      = Ok (img, ml_floor_unknown_top, t')
      /\ img = mkImage "RGB" (256, 256) "white"
                       [Shaft (106, 51) (151, 51); Shaft (106, 153) (151, 153)])
  /\ (exists img t',
         generate_muller_lyer_image "SHORT" "NONE" "SAME_CONFIG" 256 tape_floor
         = Ok (img, ml_floor_unknown_bottom, t')
         /\ img = mkImage "RGB" (256, 256) "white"
                          [Shaft (106, 51) (151, 51);
                           Shaft (106, 153) (151, 153);
                           Fin (106, 51) 1 (-1) 15 15; Fin (106, 51) 1 1 15 15;
                           Fin (151, 51) (-1) (-1) 15 15;
                           Fin (151, 51) (-1) 1 15 15])
  /\ (exists img r t',
         generate_muller_lyer_image "EQUAL" "NONE" "SAME_CONFIG" 57 tape_floor
         = Ok (img, r, t')).
Proof.
  split; [|split].
  - destruct (generate_muller_lyer_image "EQUAL" "SAME_DIR" "SAME_CONFIG" 256
                                         tape_floor)
      as [[[img r] t']|e] eqn:E; [|vm_compute in E; discriminate].
    assert (r = ml_floor_unknown_top) as ->
        by (vm_compute in E; inversion E; reflexivity).
    exists img, t'. split; [reflexivity|].
    apply (proj1 (ml_unknown_case_draws_no_arrowheads
                    "EQUAL" "SAME_DIR" "SAME_CONFIG" 256 tape_floor)
                 img ml_floor_unknown_top t' E); discriminate.
  - destruct (generate_muller_lyer_image "SHORT" "NONE" "SAME_CONFIG" 256
                                         tape_floor)
      as [[[img r] t']|e] eqn:E; [|vm_compute in E; discriminate].
    assert (r = ml_floor_unknown_bottom) as ->
        by (vm_compute in E; inversion E; reflexivity).
    exists img, t'. split; [reflexivity|].
    apply (proj1 (ml_unknown_case_draws_no_arrowheads
                    "SHORT" "NONE" "SAME_CONFIG" 256 tape_floor)
                 img ml_floor_unknown_bottom t' E);
      [right; reflexivity | discriminate | discriminate].
  - apply (proj2 (ml_unknown_case_draws_no_arrowheads
                    "EQUAL" "NONE" "SAME_CONFIG" 57 tape_floor)). lia.
Defined.

(** X6. Each shaft lies inside the image horizontally: its left end is at
    [image_size // 2 - length // 2 >= 0] and its right end, [length]
    further, is at most [image_size]. *)
Theorem shafts_inside_image label lc td bd fc size t :
  (forall img r t',
      generate_xf_image label lc fc size t = Ok (img, r, t') ->
      0 <= size / 2 - xf_top_length r / 2
      /\ size / 2 - xf_top_length r / 2 + xf_top_length r <= size
      /\ 0 <= size / 2 - xf_bottom_length r / 2
      /\ size / 2 - xf_bottom_length r / 2 + xf_bottom_length r <= size)
  /\ (forall img r t',
         generate_muller_lyer_image td bd fc size t = Ok (img, r, t') ->
         0 <= size / 2 - ml_shaft_length r / 2
         /\ size / 2 - ml_shaft_length r / 2 + ml_shaft_length r <= size).
Proof.
  assert (forall len, 45 <= len <= int_mul_0_8 size ->
                      0 <= size / 2 - len / 2
                      /\ size / 2 - len / 2 + len <= size) as Hin.
  { intros len Hlen.
    destruct (int_mul_0_8_bound size ltac:(lia)) as [Hpos Hq].
    pose proof (Z.div_mod size 2 ltac:(lia)).
    pose proof (Z.mod_pos_bound size 2 ltac:(lia)).
    pose proof (Z.div_mod len 2 ltac:(lia)).
    pose proof (Z.mod_pos_bound len 2 ltac:(lia)).
    lia. }
  split; intros img r t' H.
  - apply generate_xf_image_spec in H.
    destruct H as ((t1 & t2 & Hs) & _).
    apply xf_lengths_in_range in Hs. destruct Hs as (_ & Htop & Hbot & _).
    destruct (Hin _ Htop), (Hin _ Hbot). auto.
  - apply generate_muller_lyer_image_spec in H.
    destruct H as (_ & _ & _ & _ & Hs & _).
    apply Hin. exact Hs.
Qed.

Lemma shafts_inside_image_witness :
  (0 <= 256 / 2 - xf_top_length xf_long_same / 2
   /\ 256 / 2 - xf_top_length xf_long_same / 2 + xf_top_length xf_long_same <= 256
   /\ 0 <= 256 / 2 - xf_bottom_length xf_long_same / 2
   /\ 256 / 2 - xf_bottom_length xf_long_same / 2
      + xf_bottom_length xf_long_same <= 256)
  /\ (0 <= 256 / 2 - ml_shaft_length ml_floor / 2
      /\ 256 / 2 - ml_shaft_length ml_floor / 2 + ml_shaft_length ml_floor <= 256).
Proof.
  destruct (shafts_inside_image 1 "LONG" "LONG" "SAME_DIR" "SAME_CONFIG"
                                256 tape_long_same) as [HX _].
  destruct (shafts_inside_image 1 "LONG" "LONG" "SAME_DIR" "SAME_CONFIG"
                                256 tape_floor) as [_ HM].
  split.
  - eapply HX. vm_compute. reflexivity.
  - eapply HM. vm_compute. reflexivity.
Defined.

End Rendering.

(** * Preconditions of the samplers *)

Section SamplerPreconditions.

Import data_generation.

(** X7. The samplers check [image_size] only through the ranges they draw
    from.  For every [image_size] below 57, negative ones included, each
    sampler raises the [ValueError] of an empty range: for a negative size
    on the first draw, otherwise on the draw of the shaft length from
    [[45, int(0.8 * image_size)]]; so a returned record implies
    [image_size >= 57], whatever the request.  For every [image_size]
    from 57 to 4096 and a request with an admissible case each sampler
    returns a record. *)
Theorem sampler_succeeds_iff_size_57 label lc td bd fc size t :
  ((label = 1 -> lc = "LONG" \/ lc = "SHORT") ->
   57 <= size <= 4096 ->
   (exists img r t', generate_xf_image label lc fc size t = Ok (img, r, t'))
   /\ (exists img r t',
          generate_muller_lyer_image td bd fc size t = Ok (img, r, t')))
  /\ ((label = 1 -> lc = "LONG" \/ lc = "SHORT") ->
      size < 57 ->
      (exists msg, generate_xf_image label lc fc size t = Raise (ValueError msg))
      /\ (exists msg, generate_muller_lyer_image td bd fc size t
                      = Raise (ValueError msg)))
  /\ (forall img r t',
         generate_xf_image label lc fc size t = Ok (img, r, t') -> 57 <= size)
  /\ (forall img r t',
         generate_muller_lyer_image td bd fc size t = Ok (img, r, t') ->
         57 <= size).
Proof.
  split; [|split; [|split]].
  - intros Hcase Hs.
    assert (45 <= int_mul_0_8 size) by (apply int_mul_0_8_57; lia). split.
    + apply generate_xf_image_total; assumption.
    + apply generate_muller_lyer_image_total; assumption.
  - intros Hcase Hs. destruct (Z_lt_le_dec size 0) as [Hneg|Hpos].
    + assert (size / 5 * 2 < size / 5).
      { assert (size / 5 < 0) by (apply Z.div_lt_upper_bound; lia). lia. }
      unfold generate_xf_image, generate_muller_lyer_image, bind.
      rewrite randint_empty by assumption. split; eexists; reflexivity.
    + assert (0 <= size / 5) by (apply Z.div_pos; lia).
      pose proof (proj2 (int_mul_0_8_57 size) ltac:(lia)) as Hm.
      unfold generate_xf_image, generate_muller_lyer_image, bind.
      destruct (randint_total (size / 5) (size / 5 * 2) t ltac:(lia))
        as (ty & t1 & ->).
      destruct (randint_total (size / 5 * 3) (size / 5 * 4) t1 ltac:(lia))
        as (by_ & t2 & ->).
      cbv zeta. split.
      * unfold xf_shaft_lengths.
        destruct (Z.eqb_spec label 1) as [L|L].
        -- destruct (Hcase L) as [-> | ->];
             cbn [String.eqb Ascii.eqb Bool.eqb]; unfold bind;
               rewrite (randint_empty 45 (int_mul_0_8 size)) by assumption;
               eexists; reflexivity.
        -- unfold bind.
           rewrite (randint_empty 45 (int_mul_0_8 size)) by assumption.
           eexists; reflexivity.
      * rewrite (randint_empty 45 (int_mul_0_8 size)) by assumption.
        eexists; reflexivity.
  - intros img r t' H. apply generate_xf_image_spec in H.
    destruct H as ((t1 & t2 & Hs) & _).
    assert (45 <= int_mul_0_8 size) as Hm.
    { apply xf_shaft_lengths_spec in Hs.
      destruct Hs as [(_ & _ & _ & Hp & _)|[(_ & _ & _ & Hp & _)
                                           |(_ & _ & Hp & _)]]; lia. }
    destruct (int_mul_0_8_bound size Hm) as [Hpos _].
    destruct (Z_lt_le_dec size 57) as [Hlt|Hge]; [|exact Hge].
    pose proof (proj2 (int_mul_0_8_57 size) ltac:(lia)). lia.
  - intros img r t' H. apply generate_muller_lyer_image_spec in H.
    destruct H as (_ & _ & _ & _ & Hlen & _).
    assert (45 <= int_mul_0_8 size) as Hm by lia.
    destruct (int_mul_0_8_bound size Hm) as [Hpos _].
    destruct (Z_lt_le_dec size 57) as [Hlt|Hge]; [|exact Hge].
    pose proof (proj2 (int_mul_0_8_57 size) ltac:(lia)). lia.
Qed.

Lemma sampler_succeeds_iff_size_57_witness :
  ((exists img r t',
       generate_xf_image 0 "EQUAL" "SAME_CONFIG" 57 tape_floor = Ok (img, r, t'))
   /\ (exists img r t',
          generate_muller_lyer_image "LONG" "SAME_DIR" "SAME_CONFIG" 57 tape_floor
          = Ok (img, r, t')))
  /\ ((exists msg, generate_xf_image 0 "EQUAL" "SAME_CONFIG" 56 tape_floor
                   = Raise (ValueError msg))
      /\ (exists msg,
             generate_muller_lyer_image "LONG" "SAME_DIR" "SAME_CONFIG" 56
                                        tape_floor
             = Raise (ValueError msg)))
  /\ 57 <= 256 /\ 57 <= 256.
Proof.
  split; [|split; [|split]].
  - apply (sampler_succeeds_iff_size_57 0 "EQUAL" "LONG" "SAME_DIR" "SAME_CONFIG"
                                        57 tape_floor);
      [intros H; discriminate | lia].
  - apply (sampler_succeeds_iff_size_57 0 "EQUAL" "LONG" "SAME_DIR" "SAME_CONFIG"
                                        56 tape_floor);
      [intros H; discriminate | lia].
  - eapply (sampler_succeeds_iff_size_57 0 "EQUAL" "LONG" "SAME_DIR" "SAME_CONFIG"
                                         256 tape_floor).
    vm_compute. reflexivity.
  - eapply (sampler_succeeds_iff_size_57 0 "EQUAL" "LONG" "SAME_DIR" "SAME_CONFIG"
                                         256 tape_floor).
    vm_compute. reflexivity.
Defined.

(** X8. A Cross-Fin request with [label == 1] and a [length_case] other than
    [LONG] and [SHORT] binds no shaft length.  For every [image_size] from
    0 up to [2^1023], where the product [image_size * 0.8] is a finite
    double, the call raises [UnboundLocalError] for [top_length], whatever
    the random source yields; for a negative [image_size] it raises the
    [ValueError] of the first draw instead.  No such request returns a
    record. *)
Theorem label1_unknown_case_raises lc fc size t :
  lc <> "LONG" -> lc <> "SHORT" ->
  (0 <= size < 2 ^ 1023 ->
   generate_xf_image 1 lc fc size t = Raise (UnboundLocalError "top_length"))
  /\ (size < 0 ->
      exists msg, generate_xf_image 1 lc fc size t = Raise (ValueError msg))
  /\ (forall img r t', generate_xf_image 1 lc fc size t <> Ok (img, r, t')).
Proof.
  intros H1 H2.
  assert (0 <= size ->
          generate_xf_image 1 lc fc size t
          = Raise (UnboundLocalError "top_length")) as Hpos.
  { intros Hs.
    assert (0 <= size / 5) by (apply Z.div_pos; lia).
    unfold generate_xf_image, bind.
    destruct (randint_total (size / 5) (size / 5 * 2) t ltac:(lia))
      as (ty & t1 & ->).
    destruct (randint_total (size / 5 * 3) (size / 5 * 4) t1 ltac:(lia))
      as (by_ & t2 & ->).
    unfold xf_shaft_lengths. cbn [Z.eqb Pos.eqb].
    destruct (String.eqb_spec lc "LONG"); [contradiction|].
    destruct (String.eqb_spec lc "SHORT"); [contradiction|].
    reflexivity. }
  assert (size < 0 ->
          exists msg, generate_xf_image 1 lc fc size t
                      = Raise (ValueError msg)) as Hneg.
  { intros Hs.
    assert (size / 5 * 2 < size / 5).
    { assert (size / 5 < 0) by (apply Z.div_lt_upper_bound; lia). lia. }
    unfold generate_xf_image, bind.
    rewrite randint_empty by assumption. eexists; reflexivity. }
  split; [intros [Hs _]; apply Hpos; exact Hs|].
  split; [exact Hneg|].
  intros img r t' H. destruct (Z_lt_le_dec size 0) as [Hs|Hs].
  - destruct (Hneg Hs) as [msg E]. congruence.
  - rewrite (Hpos Hs) in H. discriminate.
Qed.

Lemma label1_unknown_case_raises_witness :
  generate_xf_image 1 "EQUAL" "SAME_CONFIG" 256 tape_floor
  = Raise (UnboundLocalError "top_length")
  /\ exists msg, generate_xf_image 1 "EQUAL" "SAME_CONFIG" (-1) tape_floor
                 = Raise (ValueError msg).
Proof.
  destruct (label1_unknown_case_raises
              "EQUAL" "SAME_CONFIG" 256 tape_floor) as (H & _ & _);
    [discriminate | discriminate |].
  destruct (label1_unknown_case_raises
              "EQUAL" "SAME_CONFIG" (-1) tape_floor) as (_ & H' & _);
    [discriminate | discriminate |].
  split.
  - apply H. split; [lia | reflexivity].
  - apply H'. lia.
Defined.

End SamplerPreconditions.

(** * The batch generators *)

Section Batches.

Import data_generation.

Lemma xf_loop_length n cr size :
  forall images configs t images' configs' t',
    xf_loop n cr size images configs t = Ok (images', configs', t') ->
    List.length images' = (List.length images + n)%nat
    /\ List.length configs' = (List.length configs + n)%nat.
Proof.
  induction n as [|n IH]; intros images configs t images' configs' t' H.
  - cbn in H. finish H. lia.
  - cbn [xf_loop] in H.
    step H. step H. step H. step H. destruct v2 as [img params].
    apply IH in H. rewrite !length_app in H. cbn in H. lia.
Qed.

Lemma ml_loop_length n cr size :
  forall images configs t images' configs' t',
    ml_loop n cr size images configs t = Ok (images', configs', t') ->
    List.length images' = (List.length images + n)%nat
    /\ List.length configs' = (List.length configs + n)%nat.
Proof.
  induction n as [|n IH]; intros images configs t images' configs' t' H.
  - cbn in H. finish H. lia.
  - cbn [ml_loop] in H.
    step H. step H. step H. step H. destruct v2 as [img params].
    apply IH in H. rewrite !length_app in H. cbn in H. lia.
Qed.

(** What one iteration of the Cross-Fin loop guarantees carries over to
    every record of the batch. *)
Lemma xf_loop_Forall (P : xf_config -> Prop) n cr size :
  (forall lbl lc fc t img r t',
      0 <= lbl <= 1 ->
      (lbl = 1 -> lc = "LONG" \/ lc = "SHORT") -> (lbl <> 1 -> lc = "EQUAL") ->
      fc = "SAME_CONFIG" \/ fc = "DIFF_CONFIG" ->
      generate_xf_image lbl lc fc size t = Ok (img, r, t') -> P r) ->
  forall images configs t images' configs' t',
    xf_loop n cr size images configs t = Ok (images', configs', t') ->
    Forall P configs -> Forall P configs'.
Proof.
  intros HP.
  induction n as [|n IH]; intros images configs t images' configs' t' H Hall.
  - cbn in H. finish H. exact Hall.
  - cbn [xf_loop] in H.
    step H. step H. step H. step H. destruct v2 as [img params].
    apply randint_range in E. apply choices_pair in E0.
    eapply IH; [exact H|].
    apply Forall_app. split; [exact Hall|].
    constructor; [|constructor].
    eapply HP; [exact E | | | exact E0 | exact E2].
    + intros L. destruct (Z.eqb_spec v 1); [|contradiction].
      apply choices_pair in E1. exact E1.
    + intros L. destruct (Z.eqb_spec v 1); [contradiction|].
      apply ret_Ok in E1. destruct E1 as [-> _]. reflexivity.
Qed.

(** X9. A successful batch holds exactly [num_images] images and as many
    records (none for a count of zero or less).  Every Cross-Fin record
    has label 0 with case [EQUAL] or label 1 with case [LONG] or [SHORT];
    every Müller-Lyer record has label 0 and documented case tokens. *)
Theorem batch_size_and_cases num_images case_ratio image_size t :
  (forall imgs configs t',
      generate_xf_dataset num_images case_ratio image_size t
      = Ok (imgs, configs, t') ->
      List.length imgs = Z.to_nat num_images
      /\ List.length configs = Z.to_nat num_images
      /\ Forall (fun r => (xf_label r = 0 /\ xf_length_case r = "EQUAL")
                          \/ (xf_label r = 1
                              /\ (xf_length_case r = "LONG"
                                  \/ xf_length_case r = "SHORT")))
                configs)
  /\ (forall imgs configs t',
         generate_muller_lyer_dataset num_images case_ratio image_size t
         = Ok (imgs, configs, t') ->
         List.length imgs = Z.to_nat num_images
         /\ List.length configs = Z.to_nat num_images
         /\ Forall (fun r => ml_label r = 0
                             /\ (ml_top_dir_case r = "LONG"
                                 \/ ml_top_dir_case r = "SHORT")
                             /\ (ml_bottom_dir_case r = "SAME_DIR"
                                 \/ ml_bottom_dir_case r = "DIFF_DIR")
                             /\ (ml_fin_case r = "SAME_CONFIG"
                                 \/ ml_fin_case r = "DIFF_CONFIG"))
                   configs).
Proof.
  split; intros imgs configs t' H.
  - unfold generate_xf_dataset in H.
    destruct (xf_loop_length _ _ _ _ _ _ _ _ _ H) as [H1 H2].
    split; [exact H1|]. split; [exact H2|].
    eapply xf_loop_Forall; [|exact H|constructor].
    intros lbl lc fc t0 img r t0' Hl H1' H0' Hfc Hg.
    apply generate_xf_image_spec in Hg.
    destruct Hg as ((t1 & t2 & Hs) & Hlab & _).
    apply xf_shaft_lengths_spec in Hs. rewrite Hlab.
    destruct Hs as [(L & _ & -> & _)|[(L & _ & -> & _)|(L & -> & _)]].
    + right. auto.
    + right. auto.
    + left. split; [lia | reflexivity].
  - unfold generate_muller_lyer_dataset in H.
    destruct (ml_loop_length _ _ _ _ _ _ _ _ _ H) as [H1 H2].
    split; [exact H1|]. split; [exact H2|].
    apply ml_loop_valid in H; [|constructor].
    eapply Forall_impl; [|exact H].
    intros r (Hl & Ht & Hb & Hf & _). auto.
Qed.

Lemma batch_size_and_cases_witness :
  (exists imgs configs t',
      generate_xf_dataset 3 [1; 1; 1; 1; 1; 2] 256 tape_label1
      = Ok (imgs, configs, t')
      /\ List.length imgs = 3%nat /\ List.length configs = 3%nat)
  /\ (exists imgs configs t',
         generate_muller_lyer_dataset 3 [1; 1; 1; 1; 1; 2] 256 tape_label1
         = Ok (imgs, configs, t')
         /\ List.length imgs = 3%nat /\ List.length configs = 3%nat).
Proof.
  destruct (batch_size_and_cases 3 [1; 1; 1; 1; 1; 2] 256 tape_label1)
    as [HX HM].
  split.
  - destruct (generate_xf_dataset 3 [1; 1; 1; 1; 1; 2] 256 tape_label1)
      as [[[imgs configs] t']|e] eqn:E; [|vm_compute in E; discriminate].
    exists imgs, configs, t'. split; [reflexivity|].
    destruct (HX _ _ _ eq_refl) as (H1 & H2 & _). split; assumption.
  - destruct (generate_muller_lyer_dataset 3 [1; 1; 1; 1; 1; 2] 256 tape_label1)
      as [[[imgs configs] t']|e] eqn:E; [|vm_compute in E; discriminate].
    exists imgs, configs, t'. split; [reflexivity|].
    destruct (HM _ _ _ eq_refl) as (H1 & H2 & _). split; assumption.
Defined.

Lemma accumulate_length ws : forall acc,
  List.length (random.accumulate acc ws) = List.length ws.
Proof.
  induction ws as [|w ws IH]; intros acc; cbn; [reflexivity|].
  rewrite IH. reflexivity.
Qed.

Lemma choices_mismatch {A : Type} (population : list A) ws t :
  List.length ws <> List.length population ->
  random.choices population ws t
  = Raise (ValueError "The number of weights does not match the population").
Proof.
  intros H. unfold random.choices. rewrite accumulate_length.
  destruct (Nat.eqb_spec (List.length ws) (List.length population));
    [contradiction | reflexivity].
Qed.

(** With two weights the draw returns one of the two elements or reports
    a total that is not positive. *)
Lemma choices_two {A : Type} (x y : A) a b t :
  (a + b <= 0 /\
   random.choices [x; y] [a; b] t
   = Raise (ValueError "Total of weights must be greater than zero"))
  \/ (0 < a + b /\ exists v t', random.choices [x; y] [a; b] t = Ok (v, t')).
Proof.
  unfold random.choices. cbn [random.accumulate List.length Nat.eqb negb last].
  destruct (0 + a + b <=? 0) eqn:W.
  - left. apply Z.leb_le in W. split; [lia | reflexivity].
  - right. apply Z.leb_gt in W. split; [lia|].
    unfold bind, random.random53. destruct (random.next_raw t) as [k t1].
    cbn [random.bisect Nat.sub Nat.ltb Nat.leb Nat.add Nat.div Nat.divmod fst nth].
    destruct (_ <? _); cbn; unfold ret; eauto.
Qed.

Lemma slice_length {A : Type} (l : list A) lo hi :
  List.length (slice l lo hi) = Nat.min (hi - lo) (List.length l - lo).
Proof. unfold slice. rewrite length_firstn, length_skipn. reflexivity. Qed.

(** X10. A [case_ratio] the loops cannot draw from stops a non-empty batch
    with a [ValueError].  The weights are integers of magnitude below
    [2^1000], so that [random.choices] turns each total into a finite
    double.  A tuple of fewer than six weights fails (the Cross-Fin loop
    on the slice [[4:6]] after drawing the label), and so does, with six
    weights or more, a pair drawn from whose sum is not positive:
    positions 4-5 for Cross-Fin, positions 2-3 or 4-5 for Müller-Lyer. *)
Theorem unusable_case_ratio_raises num_images case_ratio image_size t :
  1 <= num_images ->
  Forall (fun w => Z.abs w < 2 ^ 1000) case_ratio ->
  ((List.length case_ratio < 6)%nat ->
   generate_xf_dataset num_images case_ratio image_size t
   = Raise (ValueError "The number of weights does not match the population")
   /\ exists msg, generate_muller_lyer_dataset num_images case_ratio image_size t
                  = Raise (ValueError msg))
  /\ (forall w0 w1 w2 w3 w4 w5 rest,
         case_ratio = w0 :: w1 :: w2 :: w3 :: w4 :: w5 :: rest ->
         (w4 + w5 <= 0 ->
          generate_xf_dataset num_images case_ratio image_size t
          = Raise (ValueError "Total of weights must be greater than zero"))
         /\ (w2 + w3 <= 0 \/ w4 + w5 <= 0 ->
             generate_muller_lyer_dataset num_images case_ratio image_size t
             = Raise (ValueError "Total of weights must be greater than zero"))).
Proof.
  intros Hn _.
  unfold generate_xf_dataset, generate_muller_lyer_dataset.
  destruct (Z.to_nat num_images) as [|n] eqn:En; [lia|].
  cbn [xf_loop ml_loop]. split.
  - intros Hlen. split.
    + unfold bind at 1.
      destruct (randint_total 0 1 t ltac:(lia)) as (lbl & t1 & ->).
      unfold bind at 1. rewrite choices_mismatch; [reflexivity|].
      rewrite slice_length. cbn [List.length]. lia.
    + destruct case_ratio as [|w0 [|w1 [|w2 [|w3 cr]]]];
        try (unfold bind at 1; rewrite choices_mismatch;
             [eexists; reflexivity | cbn; lia]).
      unfold slice. cbn [skipn Nat.sub].
      assert (List.length cr <= 1)%nat as Hcr by (cbn in Hlen; lia).
      assert (List.length (firstn 2 cr) <> 2%nat) as Hs
          by (rewrite length_firstn; lia).
      destruct cr as [|w4 [|w5 cr]]; [| |cbn in Hcr; lia];
        cbn [firstn] in *; unfold bind at 1;
          (destruct (choices_two "LONG" "SHORT" w2 w3 t)
            as [(_ & ->)|(_ & v & t1 & ->)]; [eexists; reflexivity|]);
          unfold bind at 1; (rewrite choices_mismatch; [eexists; reflexivity|]);
            cbn; lia.
  - intros w0 w1 w2 w3 w4 w5 rest ->. unfold slice. cbn [skipn Nat.sub firstn].
    split.
    + intros Hw. unfold bind at 1.
      destruct (randint_total 0 1 t ltac:(lia)) as (lbl & t1 & ->).
      unfold bind at 1.
      destruct (choices_two "SAME_CONFIG" "DIFF_CONFIG" w4 w5 t1)
        as [(_ & ->)|(Hpos & _)]; [reflexivity | lia].
    + intros Hw. unfold bind at 1.
      destruct (choices_two "LONG" "SHORT" w2 w3 t)
        as [(_ & ->)|(Hpos & v & t1 & ->)]; [reflexivity|].
      unfold bind at 1.
      destruct (choices_two "SAME_DIR" "DIFF_DIR" w4 w5 t1)
        as [(_ & ->)|(Hpos' & _)]; [reflexivity | lia].
Qed.

Lemma unusable_case_ratio_raises_witness :
  (generate_xf_dataset 2000 [1; 1; 1; 1; 1] 256 tape_floor
   = Raise (ValueError "The number of weights does not match the population")
   /\ exists msg, generate_muller_lyer_dataset 2000 [1; 1; 1; 1; 1] 256 tape_floor
                  = Raise (ValueError msg))
  /\ generate_xf_dataset 2000 [1; 1; 1; 1; 0; 0] 256 tape_floor
     = Raise (ValueError "Total of weights must be greater than zero")
  /\ generate_muller_lyer_dataset 2000 [1; 1; 0; 0; 1; 2] 256 tape_floor
     = Raise (ValueError "Total of weights must be greater than zero").
Proof.
  split; [|split].
  - apply (unusable_case_ratio_raises 2000 [1; 1; 1; 1; 1] 256 tape_floor);
      [lia | repeat (apply Forall_cons; [reflexivity|]); apply Forall_nil
       | cbn; lia].
  - eapply (unusable_case_ratio_raises 2000 [1; 1; 1; 1; 0; 0] 256 tape_floor);
      [lia | repeat (apply Forall_cons; [reflexivity|]); apply Forall_nil
       | reflexivity | lia].
  - eapply (unusable_case_ratio_raises 2000 [1; 1; 0; 0; 1; 2] 256 tape_floor);
      [lia | repeat (apply Forall_cons; [reflexivity|]); apply Forall_nil
       | reflexivity | left; lia].
Defined.

End Batches.

(** * The dataset index *)

Section Index.

Import re Dataset.

Ltac ilit H s := apply exec_lit_inv in H; destruct H as (s & -> & H).
Ltac idig H d s Hd :=
  apply exec_digits_inv in H; destruct H as (d & s & -> & Hd & H).
Ltac ialt H a s Ha :=
  apply exec_alt_inv in H; destruct H as (a & s & Ha & -> & H).

Lemma int_digit_run d : digit_run d -> exists z, int d = Ok z /\ 0 <= z.
Proof.
  intros [Hd Hne]. unfold int. destruct d as [|c d]; [contradiction|].
  rewrite Hd. eexists. split; [reflexivity | lia].
Qed.

Lemma xf_match_groups s m :
  match_ xf_pattern s = Some m ->
  exists d1 c lc fc d5 d6 d7 d8 d9 d10 d11 d12,
    m = [d1; String c ""; lc; fc; d5; d6; d7; d8; d9; d10; d11; d12]
    /\ digit_run d1 /\ (c = "0"%char \/ c = "1"%char)
    /\ (lc = "EQUAL" \/ lc = "LONG" \/ lc = "SHORT")
    /\ (fc = "SAME_CONFIG" \/ fc = "DIFF_CONFIG")
    /\ digit_run d5 /\ digit_run d6 /\ digit_run d7 /\ digit_run d8
    /\ digit_run d9 /\ digit_run d10 /\ digit_run d11 /\ digit_run d12.
Proof.
  unfold match_, xf_pattern. intros H.
  change (exec (Bos :: ?p) 0 s []) with (exec p 0 s []) in H.
  ilit H s1. idig H d1 s2 H1. ilit H s3.
  apply exec_oneof_inv in H. destruct H as (c & s4 & -> & Hc & H).
  ilit H s5. ialt H lc s6 Hlc. ilit H s7. ialt H fc s8 Hfc. ilit H s9.
  idig H d5 s10 H5. ilit H s11. idig H d6 s12 H6. ilit H s13.
  idig H d7 s14 H7. ilit H s15. idig H d8 s16 H8. ilit H s17.
  idig H d9 s18 H9. ilit H s19. idig H d10 s20 H10. ilit H s21.
  idig H d11 s22 H11. ilit H s23. idig H d12 s24 H12. ilit H nl.
  apply exec_eos_inv in H. destruct H as [_ ->].
  exists d1, c, lc, fc, d5, d6, d7, d8, d9, d10, d11, d12.
  split; [reflexivity|]. split; [assumption|].
  split; [cbn in Hc; destruct Hc as [<- | [<- | []]]; auto|].
  split; [cbn in Hlc; intuition auto|].
  split; [cbn in Hfc; intuition auto|].
  repeat (split; [assumption|]). assumption.
Qed.

Lemma ml_match_groups s m :
  match_ ml_pattern s = Some m ->
  exists d1 c td bd fc d6 d7 d8 d9 d10 d11 d12,
    m = [d1; String c ""; td; bd; fc; d6; d7; d8; d9; d10; d11; d12]
    /\ digit_run d1 /\ (c = "0"%char \/ c = "1"%char)
    /\ (td = "LONG" \/ td = "SHORT")
    /\ (bd = "DIFF_DIR" \/ bd = "SAME_DIR")
    /\ (fc = "SAME_CONFIG" \/ fc = "DIFF_CONFIG")
    /\ digit_run d6 /\ digit_run d7 /\ digit_run d8
    /\ digit_run d9 /\ digit_run d10 /\ digit_run d11 /\ digit_run d12.
Proof.
  unfold match_, ml_pattern. intros H.
  change (exec (Bos :: ?p) 0 s []) with (exec p 0 s []) in H.
  ilit H s1. idig H d1 s2 H1. ilit H s3.
  apply exec_oneof_inv in H. destruct H as (c & s4 & -> & Hc & H).
  ilit H s5. ialt H td s6 Htd. ilit H s7. ialt H bd s8 Hbd. ilit H s9.
  ialt H fc s10 Hfc. ilit H s11.
  idig H d6 s12 H6. ilit H s13.
  idig H d7 s14 H7. ilit H s15. idig H d8 s16 H8. ilit H s17.
  idig H d9 s18 H9. ilit H s19. idig H d10 s20 H10. ilit H s21.
  idig H d11 s22 H11. ilit H s23. idig H d12 s24 H12. ilit H nl.
  apply exec_eos_inv in H. destruct H as [_ ->].
  exists d1, c, td, bd, fc, d6, d7, d8, d9, d10, d11, d12.
  split; [reflexivity|]. split; [assumption|].
  split; [cbn in Hc; destruct Hc as [<- | [<- | []]]; auto|].
  split; [cbn in Htd; intuition auto|].
  split; [cbn in Hbd; intuition auto|].
  split; [cbn in Hfc; intuition auto|].
  repeat (split; [assumption|]). assumption.
Qed.

(** A matched name always yields a record: [int] cannot fail on a group
    of digits, so the construction of the dictionary raises nothing. *)
Lemma xf_decode_Some name built :
  xf_decode name = Some built ->
  exists p, built = Ok p /\ xf_params_wf p /\ xf_filename p = name.
Proof.
  unfold xf_decode. destruct (match_ xf_pattern name) as [m|] eqn:E; [|discriminate].
  intros H. inversion H; subst built; clear H.
  apply xf_match_groups in E.
  destruct E as (d1 & c & lc & fc & d5 & d6 & d7 & d8 & d9 & d10 & d11 & d12
                 & -> & H1 & Hc & Hlc & Hfc & H5 & H6 & H7 & H8 & H9 & H10
                 & H11 & H12).
  unfold xf_build, group. cbn [nth Nat.sub].
  destruct (int_digit_run _ H1) as (z1 & -> & ?).
  destruct (int_digit_run _ H5) as (z5 & -> & ?).
  destruct (int_digit_run _ H6) as (z6 & -> & ?).
  destruct (int_digit_run _ H7) as (z7 & -> & ?).
  destruct (int_digit_run _ H8) as (z8 & -> & ?).
  destruct (int_digit_run _ H9) as (z9 & -> & ?).
  destruct (int_digit_run _ H10) as (z10 & -> & ?).
  destruct (int_digit_run _ H11) as (z11 & -> & ?).
  destruct (int_digit_run _ H12) as (z12 & -> & ?).
  destruct Hc as [-> | ->]; cbn [int all_digits is_digit];
    (eexists; split; [reflexivity|]);
    (split; [unfold xf_params_wf; cbn; repeat split; auto | reflexivity]).
Qed.

Lemma ml_decode_Some name built :
  ml_decode name = Some built ->
  exists p, built = Ok p /\ ml_params_wf p /\ ml_filename p = name.
Proof.
  unfold ml_decode. destruct (match_ ml_pattern name) as [m|] eqn:E; [|discriminate].
  intros H. inversion H; subst built; clear H.
  apply ml_match_groups in E.
  destruct E as (d1 & c & td & bd & fc & d6 & d7 & d8 & d9 & d10 & d11 & d12
                 & -> & H1 & Hc & Htd & Hbd & Hfc & H6 & H7 & H8 & H9 & H10
                 & H11 & H12).
  unfold ml_build, group. cbn [nth Nat.sub].
  destruct (int_digit_run _ H1) as (z1 & -> & ?).
  destruct (int_digit_run _ H6) as (z6 & -> & ?).
  destruct (int_digit_run _ H7) as (z7 & -> & ?).
  destruct (int_digit_run _ H8) as (z8 & -> & ?).
  destruct (int_digit_run _ H9) as (z9 & -> & ?).
  destruct (int_digit_run _ H10) as (z10 & -> & ?).
  destruct (int_digit_run _ H11) as (z11 & -> & ?).
  destruct (int_digit_run _ H12) as (z12 & -> & ?).
  destruct Hc as [-> | ->]; cbn [int all_digits is_digit];
    (eexists; split; [reflexivity|]);
    (split; [unfold ml_params_wf; cbn; repeat split; auto | reflexivity]).
Qed.

Lemma xf_scan_spec names : forall image_files params out,
  xf_scan names image_files params out
  = Ok ((image_files ++ filter xf_matches names)%list,
        (params ++ xf_decoded names)%list, out).
Proof.
  induction names as [|name names IH]; intros image_files params out.
  - cbn. rewrite !app_nil_r. reflexivity.
  - cbn [xf_scan filter xf_decoded flat_map]. unfold xf_matches at 1.
    destruct (xf_decode name) as [built|] eqn:E.
    + destruct (xf_decode_Some _ _ E) as (p & -> & _).
      unfold bind, lift. rewrite IH. fold (xf_decoded names).
      rewrite <- !app_assoc. reflexivity.
    + rewrite IH. reflexivity.
Qed.

Lemma ml_scan_spec names : forall image_files image_params out,
  ml_scan names image_files image_params out
  = Ok ((image_files ++ filter ml_matches names)%list,
        (image_params ++ ml_decoded names)%list, out).
Proof.
  induction names as [|name names IH]; intros image_files image_params out.
  - cbn. rewrite !app_nil_r. reflexivity.
  - cbn [ml_scan filter ml_decoded flat_map]. unfold ml_matches at 1.
    destruct (ml_decode name) as [built|] eqn:E.
    + destruct (ml_decode_Some _ _ E) as (p & -> & _).
      unfold bind, try_except, lift, ret. rewrite IH. fold (ml_decoded names).
      rewrite <- !app_assoc. reflexivity.
    + rewrite IH. reflexivity.
Qed.

Lemma xf_decoded_Forall2 names :
  Forall2 (fun name p => xf_decode name = Some (Ok p)
                         /\ xf_filename p = name /\ xf_params_wf p)
          (filter xf_matches names) (xf_decoded names).
Proof.
  induction names as [|name names IH]; [constructor|].
  cbn [filter xf_decoded flat_map]. unfold xf_matches at 1.
  destruct (xf_decode name) as [built|] eqn:E; [|exact IH].
  destruct (xf_decode_Some _ _ E) as (p & -> & Hwf & Hn).
  cbn [app]. constructor; [auto | exact IH].
Qed.

Lemma ml_decoded_Forall2 names :
  Forall2 (fun name p => ml_decode name = Some (Ok p)
                         /\ ml_filename p = name /\ ml_params_wf p)
          (filter ml_matches names) (ml_decoded names).
Proof.
  induction names as [|name names IH]; [constructor|].
  cbn [filter ml_decoded flat_map]. unfold ml_matches at 1.
  destruct (ml_decode name) as [built|] eqn:E; [|exact IH].
  destruct (ml_decode_Some _ _ E) as (p & -> & Hwf & Hn).
  cbn [app]. constructor; [auto | exact IH].
Qed.

(** X11. Building an index.  Given the listing of the directory, each
    constructor keeps exactly the names its pattern matches, in listing
    order, with one record per name; every other entry is skipped
    without a message.  With no matching name the constructor raises
    [RuntimeError]; otherwise it reports the count. *)
Theorem init_indexes_matching_names
        (Img : Type) (os_listdir : string -> result (list string))
        (data_dir : string) (transform : option (Img -> result Img))
        (out : console) (names : list string) :
  os_listdir data_dir = Ok names ->
  CrossFinDataset_init Img os_listdir data_dir transform out
  = match filter xf_matches names with
    | [] => Raise (RuntimeError ("No valid CrossFin images found in " ++ data_dir))
    | _ :: _ =>
      Ok (mk_CrossFinDataset Img data_dir transform
                             (filter xf_matches names) (xf_decoded names),
          (out ++ [("Found "
                      ++ str (Z.of_nat (List.length (filter xf_matches names)))
                      ++ " CrossFin images in " ++ data_dir)%string])%list)
    end
  /\ MullerLyerDataset_init Img os_listdir data_dir transform out
     = match filter ml_matches names with
       | [] => Raise (RuntimeError ("No valid " ++ Muller_Lyer
                                    ++ " image files found in "
                                    ++ data_dir ++ " matching the pattern."))
       | _ :: _ =>
         Ok (mk_MullerLyerDataset Img data_dir transform
                                  (filter ml_matches names) (ml_decoded names),
             ((out ++ [("Scanning directory: " ++ data_dir)%string])
                ++ [("Found "
                       ++ str (Z.of_nat (List.length (filter ml_matches names)))
                       ++ " " ++ Muller_Lyer ++ " images.")%string])%list)
       end
  /\ map xf_decode (filter xf_matches names)
     = map (fun p => Some (Ok p)) (xf_decoded names)
  /\ map ml_decode (filter ml_matches names)
     = map (fun p => Some (Ok p)) (ml_decoded names).
Proof.
  intros Hls. split; [|split; [|split]].
  - unfold CrossFinDataset_init, bind, lift. rewrite Hls.
    rewrite xf_scan_spec. cbn [app].
    destruct (filter xf_matches names); reflexivity.
  - unfold MullerLyerDataset_init, bind, lift, print. rewrite Hls.
    rewrite ml_scan_spec. cbn [app].
    destruct (filter ml_matches names); reflexivity.
  - pose proof (xf_decoded_Forall2 names) as H.
    induction H as [|name p l l' (Hd & _) _ IH]; [reflexivity|].
    cbn [map]. rewrite Hd, IH. reflexivity.
  - pose proof (ml_decoded_Forall2 names) as H.
    induction H as [|name p l l' (Hd & _) _ IH]; [reflexivity|].
    cbn [map]. rewrite Hd, IH. reflexivity.
Qed.

Lemma init_indexes_matching_names_witness :
  (exists ds out,
      CrossFinDataset_init Z (fun _ => Ok mixed_listing) "training_data" None []
      = Ok (ds, out)
      /\ xf_image_files Z ds = [xf_plain_name])
  /\ (exists ds out,
         MullerLyerDataset_init Z (fun _ => Ok mixed_listing) "test_data" None []
         = Ok (ds, out)
         /\ ml_image_files Z ds = [ml_plain_name]).
Proof.
  split.
  - destruct (init_indexes_matching_names
                Z (fun _ => Ok mixed_listing) "training_data" None []
                mixed_listing eq_refl) as (H & _).
    do 2 eexists. split; [exact H | reflexivity].
  - destruct (init_indexes_matching_names
                Z (fun _ => Ok mixed_listing) "test_data" None []
                mixed_listing eq_refl) as (_ & H & _).
    do 2 eexists. split; [exact H | reflexivity].
Defined.

Lemma xf_init_inv Img os_listdir data_dir transform out ds out' :
  CrossFinDataset_init Img os_listdir data_dir transform out = Ok (ds, out') ->
  exists names,
    os_listdir data_dir = Ok names /\ filter xf_matches names <> []
    /\ ds = mk_CrossFinDataset Img data_dir transform
                               (filter xf_matches names) (xf_decoded names).
Proof.
  unfold CrossFinDataset_init, bind, lift.
  destruct (os_listdir data_dir) as [names|e] eqn:Hls; [|discriminate].
  rewrite xf_scan_spec. cbn [app].
  destruct (filter xf_matches names) as [|f fs] eqn:Hf; [discriminate|].
  cbn. intros H. inversion H. exists names. rewrite Hf.
  split; [reflexivity|]. split; [discriminate | reflexivity].
Qed.

Lemma ml_init_inv Img os_listdir data_dir transform out ds out' :
  MullerLyerDataset_init Img os_listdir data_dir transform out = Ok (ds, out') ->
  exists names,
    os_listdir data_dir = Ok names /\ filter ml_matches names <> []
    /\ ds = mk_MullerLyerDataset Img data_dir transform
                                 (filter ml_matches names) (ml_decoded names).
Proof.
  unfold MullerLyerDataset_init, bind, lift, print.
  destruct (os_listdir data_dir) as [names|e] eqn:Hls; [|discriminate].
  rewrite ml_scan_spec. cbn [app].
  destruct (filter ml_matches names) as [|f fs] eqn:Hf; [discriminate|].
  cbn. intros H. inversion H. exists names. rewrite Hf.
  split; [reflexivity|]. split; [discriminate | reflexivity].
Qed.

(** X12. Invariants of a constructed index.  It is never empty; file names and
    records correspond position by position; every record is the
    decoding of its file name, stores that name, and holds a label 0 or
    1, documented case tokens and non-negative integers.  Nothing else is
    checked: the records need not satisfy the invariants of the
    generator. *)
Theorem indexed_records_well_formed
        (Img : Type) (os_listdir : string -> result (list string))
        (data_dir : string) (transform : option (Img -> result Img))
        (out : console) :
  (forall ds out',
      CrossFinDataset_init Img os_listdir data_dir transform out = Ok (ds, out') ->
      xf_image_files Img ds <> []
      /\ Forall2 (fun name p => xf_decode name = Some (Ok p)
                                /\ xf_filename p = name /\ xf_params_wf p)
                 (xf_image_files Img ds) (xf_params_list Img ds))
  /\ (forall ds out',
         MullerLyerDataset_init Img os_listdir data_dir transform out
         = Ok (ds, out') ->
         ml_image_files Img ds <> []
         /\ Forall2 (fun name p => ml_decode name = Some (Ok p)
                                   /\ ml_filename p = name /\ ml_params_wf p)
                    (ml_image_files Img ds) (ml_image_params Img ds)).
Proof.
  split; intros ds out' H.
  - apply xf_init_inv in H. destruct H as (names & _ & Hne & ->).
    split; [exact Hne | apply xf_decoded_Forall2].
  - apply ml_init_inv in H. destruct H as (names & _ & Hne & ->).
    split; [exact Hne | apply ml_decoded_Forall2].
Qed.

Lemma indexed_records_well_formed_witness :
  exists ds out,
    CrossFinDataset_init Z (fun _ => Ok mixed_listing) "training_data" None []
    = Ok (ds, out)
    /\ xf_image_files Z ds <> []
    /\ Forall2 (fun name p => xf_decode name = Some (Ok p)
                              /\ xf_filename p = name /\ xf_params_wf p)
               (xf_image_files Z ds) (xf_params_list Z ds).
Proof.
  destruct (CrossFinDataset_init Z (fun _ => Ok mixed_listing)
                                 "training_data" None [])
    as [[ds out]|e] eqn:E; [|vm_compute in E; discriminate].
  exists ds, out. split; [reflexivity|].
  apply (proj1 (indexed_records_well_formed
                  Z (fun _ => Ok mixed_listing) "training_data" None [])
               ds out E).
Defined.

Lemma getitem_out_of_range {A : Type} (l : list A) idx :
  idx < - Z.of_nat (List.length l) \/ Z.of_nat (List.length l) <= idx ->
  getitem l idx = Raise IndexError.
Proof.
  intros H. unfold getitem.
  destruct (idx <? 0) eqn:N; [apply Z.ltb_lt in N | apply Z.ltb_ge in N];
    match goal with
    | |- context [(0 <=? ?i) && (?i <? ?n)] =>
      destruct ((0 <=? i) && (i <? n)) eqn:R; [|reflexivity]
    end;
    apply andb_prop in R; destruct R as [R1 R2];
      apply Z.leb_le in R1; apply Z.ltb_lt in R2; lia.
Qed.

Lemma nth_error_Forall2 {A B : Type} (R : A -> B -> Prop) l1 l2 :
  Forall2 R l1 l2 ->
  forall k a, nth_error l1 k = Some a ->
              exists b, nth_error l2 k = Some b /\ R a b.
Proof.
  induction 1 as [|x y l1 l2 Hxy _ IH]; intros k a Hk.
  - destruct k; discriminate.
  - destruct k as [|k]; cbn in *.
    + inversion Hk; subst. eauto.
    + apply IH. exact Hk.
Qed.

Lemma getitem_Forall2 {A B : Type} (R : A -> B -> Prop) l1 l2 idx :
  Forall2 R l1 l2 ->
  (- Z.of_nat (List.length l1) <= idx < Z.of_nat (List.length l1) ->
   exists a b, getitem l1 idx = Ok a /\ getitem l2 idx = Ok b /\ R a b).
Proof.
  intros HF Hr. pose proof (Forall2_length HF) as Hlen.
  unfold getitem. rewrite <- Hlen.
  set (n := Z.of_nat (List.length l1)) in *.
  set (i := if idx <? 0 then idx + n else idx).
  assert (0 <= i < n) as Hi
      by (subst i; destruct (idx <? 0) eqn:N;
          [apply Z.ltb_lt in N | apply Z.ltb_ge in N]; lia).
  assert ((0 <=? i) && (i <? n) = true) as ->
      by (apply andb_true_intro; split; [apply Z.leb_le | apply Z.ltb_lt]; lia).
  destruct (nth_error l1 (Z.to_nat i)) as [a|] eqn:E.
  - destruct (nth_error_Forall2 R l1 l2 HF _ _ E) as (b & -> & Hab). eauto.
  - apply nth_error_None in E. subst n. lia.
Qed.

(** X13. Access by index on a constructed index.  An index outside
    [[-len, len)] raises [IndexError] in both datasets before any file is
    opened.  Inside the range (negative indices count from the end) and
    when the image opens and converts, the Cross-Fin dataset returns the
    image, transformed if a transform is set, with the label digit of the
    file name at that position; the Müller-Lyer dataset returns it with
    the whole record decoded from that name. *)
Theorem getitem_by_position
        (Img : Type) (os_listdir : string -> result (list string))
        (Image_open : string -> result Img)
        (Image_convert : Img -> string -> result Img)
        (Image_new : string -> Z * Z -> Z -> Img)
        (data_dir : string) (transform : option (Img -> result Img))
        (out0 out : console) (idx : Z) :
  (forall ds out1,
      CrossFinDataset_init Img os_listdir data_dir transform out0 = Ok (ds, out1) ->
      (idx < - CrossFinDataset_len Img ds \/ CrossFinDataset_len Img ds <= idx ->
       CrossFinDataset_getitem Img Image_open Image_convert ds idx out
       = Raise IndexError)
      /\ (- CrossFinDataset_len Img ds <= idx < CrossFinDataset_len Img ds ->
          exists fname p,
            getitem (xf_image_files Img ds) idx = Ok fname
            /\ xf_decode fname = Some (Ok p)
            /\ (xf_label p = 0 \/ xf_label p = 1)
            /\ forall im im',
                Image_open (os_path_join data_dir fname) = Ok im ->
                Image_convert im "L" = Ok im' ->
                CrossFinDataset_getitem Img Image_open Image_convert ds idx out
                = match transform with
                  | None => Ok (im', xf_label p, out)
                  | Some f => match f im' with
                              | Ok x => Ok (x, xf_label p, out)
                              | Raise e => Raise e
                              end
                  end))
  /\ (forall ds out1,
         MullerLyerDataset_init Img os_listdir data_dir transform out0
         = Ok (ds, out1) ->
         (idx < - MullerLyerDataset_len Img ds
          \/ MullerLyerDataset_len Img ds <= idx ->
          MullerLyerDataset_getitem Img Image_open Image_convert Image_new
                                    ds idx out
          = Raise IndexError)
         /\ (- MullerLyerDataset_len Img ds <= idx < MullerLyerDataset_len Img ds ->
             exists fname p,
               getitem (ml_image_files Img ds) idx = Ok fname
               /\ ml_decode fname = Some (Ok p)
               /\ ml_filename p = fname
               /\ forall im im',
                   Image_open (os_path_join data_dir fname) = Ok im ->
                   Image_convert im "L" = Ok im' ->
                   MullerLyerDataset_getitem Img Image_open Image_convert
                                             Image_new ds idx out
                   = match transform with
                     | None => Ok (im', p, out)
                     | Some f => match f im' with
                                 | Ok x => Ok (x, p, out)
                                 | Raise e => Raise e
                                 end
                     end)).
Proof.
  split; intros ds out1 H.
  - apply xf_init_inv in H. destruct H as (names & _ & _ & ->).
    unfold CrossFinDataset_len. cbn [xf_image_files]. split.
    + intros Hr. unfold CrossFinDataset_getitem, bind, lift.
      cbn [xf_image_files]. rewrite getitem_out_of_range by exact Hr.
      reflexivity.
    + intros Hr.
      destruct (getitem_Forall2 _ _ _ idx (xf_decoded_Forall2 names) Hr)
        as (fname & p & Hf & Hp & Hd & _ & Hwf).
      exists fname, p. split; [exact Hf|]. split; [exact Hd|].
      split; [apply Hwf|].
      intros im im' Ho Hc.
      unfold CrossFinDataset_getitem, bind, lift, ret.
      cbn [xf_image_files xf_params_list xf_data_dir xf_transform].
      rewrite Hf, Hp, Ho, Hc.
      destruct transform as [f|]; [|reflexivity].
      destruct (f im'); reflexivity.
  - apply ml_init_inv in H. destruct H as (names & _ & _ & ->).
    unfold MullerLyerDataset_len. cbn [ml_image_files]. split.
    + intros Hr. unfold MullerLyerDataset_getitem, bind, lift.
      cbn [ml_image_files]. rewrite getitem_out_of_range by exact Hr.
      reflexivity.
    + intros Hr.
      destruct (getitem_Forall2 _ _ _ idx (ml_decoded_Forall2 names) Hr)
        as (fname & p & Hf & Hp & Hd & Hn & _).
      exists fname, p. split; [exact Hf|]. split; [exact Hd|].
      split; [exact Hn|].
      intros im im' Ho Hc.
      unfold MullerLyerDataset_getitem, bind, lift, try_except, ret.
      cbn [ml_image_files ml_image_params ml_data_dir ml_transform].
      rewrite Hf, Hp, Ho, Hc.
      destruct transform as [f|]; [|reflexivity].
      destruct (f im'); reflexivity.
Qed.

Lemma getitem_by_position_witness :
  exists ds out1,
    CrossFinDataset_init Z (fun _ => Ok mixed_listing) "training_data" None []
    = Ok (ds, out1)
    /\ CrossFinDataset_getitem Z readable (fun im _ => Ok im) ds 5 []
       = Raise IndexError
    /\ CrossFinDataset_getitem Z readable (fun im _ => Ok im) ds (-1) []
       = Ok (7, 1, []).
Proof.
  destruct (CrossFinDataset_init Z (fun _ => Ok mixed_listing)
                                 "training_data" None [])
    as [[ds out1]|e] eqn:E; [|vm_compute in E; discriminate].
  exists ds, out1. split; [reflexivity|].
  destruct (proj1 (getitem_by_position
                     Z (fun _ => Ok mixed_listing) readable (fun im _ => Ok im)
                     (fun _ _ fill => fill) "training_data" None [] [] 5)
                  ds out1 E) as [Hout _].
  destruct (proj1 (getitem_by_position
                     Z (fun _ => Ok mixed_listing) readable (fun im _ => Ok im)
                     (fun _ _ fill => fill) "training_data" None [] [] (-1))
                  ds out1 E) as [_ Hin].
  assert (CrossFinDataset_len Z ds = 1) as Hlen
      by (vm_compute in E; inversion E; reflexivity).
  split.
  - apply Hout. rewrite Hlen. lia.
  - destruct Hin as (fname & p & Hf & Hd & _ & Hget); [rewrite Hlen; lia|].
    rewrite (Hget 7 7 eq_refl eq_refl).
    vm_compute in E. inversion E; subst ds. vm_compute in Hf.
    inversion Hf; subst fname. vm_compute in Hd. inversion Hd; subst p.
    reflexivity.
Defined.

End Index.

(** * Saving a batch *)

Section SaveAll.

Import data_generation.

Lemma lookup_absent (fs : filesystem) path :
  (forall e, In e fs -> fst e <> path) ->
  lookup fs path = None
  /\ filter (fun e => negb (fst e =? path)%string) fs = fs.
Proof.
  unfold lookup. induction fs as [|e fs IH]; intros H; [split; reflexivity|].
  cbn [find filter].
  destruct (String.eqb_spec (fst e) path) as [E|E].
  - exfalso. apply (H e); [left; reflexivity | exact E].
  - cbn [negb]. destruct IH as [IH1 IH2].
    + intros e' He'. apply H. right. exact He'.
    + rewrite IH2. split; [exact IH1 | reflexivity].
Qed.

Lemma lookup_app_l (fs more : filesystem) path n :
  lookup fs path = Some n -> lookup (fs ++ more)%list path = Some n.
Proof.
  unfold lookup. induction fs as [|e fs IH]; cbn [find app]; [discriminate|].
  destruct (fst e =? path)%string; [auto | exact IH].
Qed.

Lemma no_slash_app a b : no_slash (a ++ b) = no_slash a && no_slash b.
Proof.
  induction a as [|c a IH]; cbn; [reflexivity|].
  rewrite IH. apply andb_assoc.
Qed.

Lemma no_slash_digits d : all_digits d = true -> no_slash d = true.
Proof.
  induction d as [|c d IH]; cbn; [reflexivity|].
  intros H. apply andb_prop in H. destruct H as [Hc Hd].
  rewrite (IH Hd), andb_true_r.
  destruct (Ascii.eqb_spec c "/") as [->|]; [discriminate Hc | reflexivity].
Qed.

Lemma no_slash_str z : 0 <= z -> no_slash (str z) = true.
Proof. intros Hz. apply no_slash_digits. apply (int_str z Hz). Qed.

Lemma split_path_no_slash name : no_slash name = true -> split_path name = None.
Proof.
  induction name as [|c name IH]; cbn; [reflexivity|].
  intros H. apply andb_prop in H. destruct H as [Hc Hn].
  rewrite (IH Hn). destruct (c =? "/")%char; [discriminate Hc | reflexivity].
Qed.

Lemma split_path_join dir name :
  no_slash name = true -> split_path (dir ++ "/" ++ name) = Some (dir, name).
Proof.
  intros Hn. induction dir as [|c dir IH].
  - cbn. rewrite (split_path_no_slash _ Hn). reflexivity.
  - change (String c dir ++ "/" ++ name) with (String c (dir ++ "/" ++ name)).
    cbn [split_path]. rewrite IH. reflexivity.
Qed.

Lemma split_path_inv path : forall d b,
  split_path path = Some (d, b) -> path = d ++ "/" ++ b.
Proof.
  induction path as [|c path IH]; intros d b H; cbn in H; [discriminate|].
  destruct (split_path path) as [[d' b']|].
  - inversion H; subst. cbn. f_equal. apply IH. reflexivity.
  - destruct (Ascii.eqb_spec c "/") as [->|]; [|discriminate].
    inversion H; subst. reflexivity.
Qed.

Lemma append_inj_l a : forall x y, a ++ x = a ++ y -> x = y.
Proof.
  induction a as [|c a IH]; intros x y H; cbn in H; [exact H|].
  inversion H. apply IH. assumption.
Qed.

Section OneFamily.

Context {C : Type}.
Variable dir : string.
Variable filename : Z -> C -> string.
Variable valid : C -> Prop.
Variable index_of : string -> option Z.
Hypothesis index_of_filename :
  forall i c, 0 <= i -> valid c -> index_of (filename i c) = Some i.
Hypothesis filename_no_slash :
  forall i c, 0 <= i -> valid c -> no_slash (filename i c) = true.

Lemma save_all_fresh items : forall i w,
  0 <= i -> Forall valid (map snd items) ->
  lookup (w_fs w) dir = Some Dir ->
  (forall e, In e (w_fs w) ->
             forall j c, i <= j -> valid c -> fst e <> dir ++ "/" ++ filename j c) ->
  save_all dir filename i items w
  = Ok (tt, mkWorld (w_rng w)
                    (w_fs w ++ indexed (saved_entry dir filename) i items)%list).
Proof.
  induction items as [|[img c] items IH]; intros i w Hi Hv Hd Hfresh.
  - cbn. rewrite app_nil_r. destruct w. reflexivity.
  - inversion Hv as [|c' l Hc Hrest]; subst. cbn [snd] in Hc.
    cbn [save_all indexed]. unfold bind at 1. unfold Image_save.
    rewrite split_path_join by (apply filename_no_slash; assumption).
    rewrite Hd.
    destruct (lookup_absent (w_fs w) (dir ++ "/" ++ filename i c)) as [Hl Hf].
    { intros e He. apply (Hfresh e He i c); [lia | exact Hc]. }
    rewrite Hl. unfold write_file. rewrite Hf.
    rewrite IH; [| lia | exact Hrest | | ].
    + cbn [w_rng w_fs]. rewrite <- app_assoc. reflexivity.
    + cbn [w_fs]. apply lookup_app_l. exact Hd.
    + cbn [w_fs]. intros e He j c' Hj Hc'.
      apply in_app_or in He. destruct He as [He|[<-|[]]].
      * apply (Hfresh e He); [lia | exact Hc'].
      * cbn [fst]. intros Heq. apply append_inj_l in Heq.
        apply (append_inj_l "/") in Heq.
        pose proof (index_of_filename i c Hi Hc) as H1.
        pose proof (index_of_filename j c' ltac:(lia) Hc') as H2.
        rewrite Heq in H1. rewrite H1 in H2. inversion H2. lia.
Qed.

Lemma entries_under_saved items : forall i,
  0 <= i -> Forall valid (map snd items) ->
  entries_under (indexed (saved_entry dir filename) i items) dir
  = indexed filename i (map snd items).
Proof.
  induction items as [|[img c] items IH]; intros i Hi Hv; [reflexivity|].
  inversion Hv as [|c' l Hc Hrest]; subst. cbn [snd] in Hc.
  cbn [indexed map snd]. unfold entries_under. cbn [flat_map saved_entry fst snd].
  rewrite split_path_join by (apply filename_no_slash; assumption).
  rewrite String.eqb_refl. cbn [app]. f_equal.
  apply IH; [lia | exact Hrest].
Qed.

End OneFamily.

Lemma length_app_s a b :
  String.length (a ++ b) = (String.length a + String.length b)%nat.
Proof. induction a as [|c a IH]; cbn; [reflexivity | rewrite IH; reflexivity]. Qed.

Lemma entries_under_nothing_under dir fs :
  nothing_under dir fs -> entries_under (with_dir dir fs) dir = [].
Proof.
  intros H.
  assert (entries_under fs dir = []) as Hfs.
  { unfold entries_under. induction H as [|e fs He _ IH]; [reflexivity|].
    cbn [flat_map]. rewrite IH, app_nil_r.
    destruct (split_path (fst e)) as [[d b]|] eqn:E; [|reflexivity].
    destruct (String.eqb_spec d dir) as [->|]; [|reflexivity].
    apply split_path_inv in E. rewrite E in He.
    rewrite <- append_assoc_s in He. rewrite strip_prefix_app in He.
    discriminate. }
  unfold with_dir. destruct (lookup fs dir); [exact Hfs|].
  unfold entries_under in *. rewrite flat_map_app, Hfs. cbn [flat_map fst app].
  destruct (split_path dir) as [[d b]|] eqn:E; [|reflexivity].
  destruct (String.eqb_spec d dir) as [->|]; [|reflexivity].
  exfalso. apply split_path_inv in E.
  assert (String.length dir = String.length (dir ++ "/" ++ b)) as Hl
      by (rewrite <- E; reflexivity).
  rewrite length_app_s in Hl. cbn in Hl. lia.
Qed.

End SaveAll.

(** * From [generate_and_save] to the dataset *)

Section GenerateAndRead.

Import data_generation.

Lemma xf_index_of_filename i c :
  0 <= i -> xf_valid c -> xf_index_of (xf_filename i c) = Some i.
Proof.
  intros Hi Hc. unfold xf_index_of.
  rewrite xf_decode_filename by assumption. reflexivity.
Qed.

Lemma ml_index_of_filename i c :
  0 <= i -> ml_valid c -> ml_index_of (ml_filename i c) = Some i.
Proof.
  intros Hi Hc. unfold ml_index_of.
  rewrite ml_decode_filename by assumption. reflexivity.
Qed.

Lemma xf_filename_no_slash i c :
  0 <= i -> xf_valid c -> no_slash (xf_filename i c) = true.
Proof.
  intros Hi (Hl & Hlc & Hfc & H1 & H2 & H3 & H4 & H5 & H6 & H7 & H8).
  unfold xf_filename. rewrite !no_slash_app.
  rewrite !no_slash_str by (assumption || (destruct Hl as [-> | ->]; lia)).
  destruct Hlc as [-> | [-> | ->]]; destruct Hfc as [-> | ->]; reflexivity.
Qed.

Lemma ml_filename_no_slash i c :
  0 <= i -> ml_valid c -> no_slash (ml_filename i c) = true.
Proof.
  intros Hi (Hl & Htd & Hbd & Hfc & H1 & H2 & H3 & H4 & H5 & H6 & H7).
  unfold ml_filename. rewrite !no_slash_app.
  rewrite !no_slash_str by (assumption || (rewrite Hl; lia)).
  destruct Htd as [-> | ->]; destruct Hbd as [-> | ->];
    destruct Hfc as [-> | ->]; reflexivity.
Qed.

Lemma map_snd_combine {A B : Type} (l1 : list A) : forall (l2 : list B),
  List.length l1 = List.length l2 -> map snd (combine l1 l2) = l2.
Proof.
  induction l1 as [|a l1 IH]; intros [|b l2] H; cbn in *;
    try discriminate; [reflexivity|].
  f_equal. apply IH. lia.
Qed.

Lemma lookup_app_new (fs : filesystem) path n :
  lookup fs path = None -> lookup (fs ++ [(path, n)])%list path = Some n.
Proof.
  unfold lookup. induction fs as [|e fs IH]; cbn [find app fst snd].
  - rewrite String.eqb_refl. reflexivity.
  - destruct (fst e =? path)%string; [discriminate | exact IH].
Qed.

(** The effect of the saving part of [generate_and_save] on a file system
    with nothing under the output directory. *)
Lemma make_dir_and_save {C : Type} dir (filename : Z -> C -> string)
      (valid : C -> Prop) (index_of : string -> option Z)
      (items : list (Image * C)) (w : world) :
  (forall i c, 0 <= i -> valid c -> index_of (filename i c) = Some i) ->
  (forall i c, 0 <= i -> valid c -> no_slash (filename i c) = true) ->
  Forall valid (map snd items) ->
  dir_absent_or_dir dir (w_fs w) -> nothing_under dir (w_fs w) ->
  (ex <- os_path_exists dir ;;
   _ <- (if negb ex then os_makedirs dir else ret tt) ;;
   save_all dir filename 0 items) w
  = Ok (tt, mkWorld (w_rng w)
                    (with_dir dir (w_fs w)
                      ++ indexed (saved_entry dir filename) 0 items)%list).
Proof.
  intros Hidx Hns Hv Hdir Hfresh.
  assert (forall e, In e (w_fs w) ->
                    forall j c, 0 <= j -> valid c ->
                                fst e <> dir ++ "/" ++ filename j c) as Hold.
  { intros e He j c _ _ Heq. unfold nothing_under in Hfresh.
    rewrite Forall_forall in Hfresh. specialize (Hfresh e He).
    rewrite Heq, <- append_assoc_s, strip_prefix_app in Hfresh. discriminate. }
  unfold bind at 1. unfold os_path_exists, with_dir.
  destruct Hdir as [Hd|Hd]; rewrite Hd; cbn [negb]; unfold bind at 1.
  - unfold os_makedirs. rewrite Hd.
    rewrite (save_all_fresh dir filename valid index_of Hidx Hns);
      [reflexivity | lia | exact Hv | | ]; cbn [w_fs].
    + apply lookup_app_new. exact Hd.
    + intros e He j c Hj Hc. apply in_app_or in He.
      destruct He as [He|[<-|[]]]; [apply Hold; assumption|].
      cbn [fst]. intros Heq.
      assert (String.length dir = String.length (dir ++ "/" ++ filename j c))
        as Hl by (rewrite <- Heq; reflexivity).
      rewrite length_app_s in Hl. cbn in Hl. lia.
  - unfold ret.
    rewrite (save_all_fresh dir filename valid index_of Hidx Hns);
      [reflexivity | lia | exact Hv | exact Hd | exact Hold].
Qed.

Lemma train_effect n cr size w imgs configs t' :
  generate_xf_dataset n cr size (w_rng w) = Ok (imgs, configs, t') ->
  dir_absent_or_dir "training_data" (w_fs w) ->
  nothing_under "training_data" (w_fs w) ->
  generate_and_save "train" n cr size w
  = Ok (tt, mkWorld t' (with_dir "training_data" (w_fs w)
                         ++ indexed (saved_entry "training_data" xf_filename) 0
                                    (combine imgs configs))%list).
Proof.
  intros Hg Hdir Hfresh. unfold generate_and_save.
  cbn [String.eqb Ascii.eqb Bool.eqb]. unfold bind at 1, with_rng.
  rewrite Hg.
  pose proof Hg as Hlen. unfold generate_xf_dataset in Hlen.
  apply xf_loop_length in Hlen. destruct Hlen as [L1 L2]. cbn in L1, L2.
  apply (make_dir_and_save "training_data" xf_filename xf_valid xf_index_of
                           (combine imgs configs) (mkWorld t' (w_fs w))
                           xf_index_of_filename xf_filename_no_slash);
    [|exact Hdir|exact Hfresh].
  rewrite map_snd_combine by lia.
  unfold generate_xf_dataset in Hg.
  apply xf_loop_valid in Hg; [exact Hg | constructor].
Qed.

Lemma test_effect n cr size w imgs configs t' :
  generate_muller_lyer_dataset n cr size (w_rng w) = Ok (imgs, configs, t') ->
  dir_absent_or_dir "test_data" (w_fs w) ->
  nothing_under "test_data" (w_fs w) ->
  generate_and_save "test" n cr size w
  = Ok (tt, mkWorld t' (with_dir "test_data" (w_fs w)
                         ++ indexed (saved_entry "test_data" ml_filename) 0
                                    (combine imgs configs))%list).
Proof.
  intros Hg Hdir Hfresh. unfold generate_and_save.
  cbn [String.eqb Ascii.eqb Bool.eqb]. unfold bind at 1, with_rng.
  rewrite Hg.
  pose proof Hg as Hlen. unfold generate_muller_lyer_dataset in Hlen.
  apply ml_loop_length in Hlen. destruct Hlen as [L1 L2]. cbn in L1, L2.
  apply (make_dir_and_save "test_data" ml_filename ml_valid ml_index_of
                           (combine imgs configs) (mkWorld t' (w_fs w))
                           ml_index_of_filename ml_filename_no_slash);
    [|exact Hdir|exact Hfresh].
  rewrite map_snd_combine by lia.
  unfold generate_muller_lyer_dataset in Hg.
  apply ml_loop_valid in Hg; [exact Hg | constructor].
Qed.

(** X14. Saving a batch.  When nothing lies under the output directory, which
    is absent or already a directory, a successful generation is followed
    by the creation of the directory if it is absent and by one new file
    per image, in order, named [<dir>/<file name of index i and record i>]
    and holding image [i]; no other entry of the file system changes and
    no file overwrites another. *)
Theorem generate_and_save_writes_batch num_images case_ratio image_size w :
  (forall imgs configs t',
      generate_xf_dataset num_images case_ratio image_size (w_rng w)
      = Ok (imgs, configs, t') ->
      dir_absent_or_dir "training_data" (w_fs w) ->
      nothing_under "training_data" (w_fs w) ->
      generate_and_save "train" num_images case_ratio image_size w
      = Ok (tt, mkWorld t' (with_dir "training_data" (w_fs w)
                             ++ indexed (saved_entry "training_data" xf_filename)
                                        0 (combine imgs configs))%list))
  /\ (forall imgs configs t',
         generate_muller_lyer_dataset num_images case_ratio image_size (w_rng w)
         = Ok (imgs, configs, t') ->
         dir_absent_or_dir "test_data" (w_fs w) ->
         nothing_under "test_data" (w_fs w) ->
         generate_and_save "test" num_images case_ratio image_size w
         = Ok (tt, mkWorld t' (with_dir "test_data" (w_fs w)
                                ++ indexed (saved_entry "test_data" ml_filename)
                                           0 (combine imgs configs))%list)).
Proof.
  split; intros imgs configs t' Hg Hdir Hfresh.
  - apply train_effect; assumption.
  - apply test_effect; assumption.
Qed.

Lemma generate_and_save_writes_batch_witness :
  exists fs t',
    generate_and_save "train" 1 [1; 1; 1; 1; 1; 2] 256 (mkWorld tape_label1 [])
    = Ok (tt, mkWorld t' fs)
    /\ map fst fs
       = ["training_data";
          "training_data/xf_0_1_LONG_SAME_CONFIG_45_45_10_15_10_15_51_153.png"].
Proof.
  do 2 eexists. split.
  - etransitivity.
    + eapply (proj1 (generate_and_save_writes_batch
                       1 [1; 1; 1; 1; 1; 2] 256 (mkWorld tape_label1 [])));
        [vm_compute; reflexivity | left; reflexivity | constructor].
    + vm_compute. reflexivity.
  - reflexivity.
Defined.

Lemma entries_under_app fs1 fs2 dir :
  entries_under (fs1 ++ fs2)%list dir = (entries_under fs1 dir ++ entries_under fs2 dir)%list.
Proof. unfold entries_under. apply flat_map_app. Qed.

Lemma length_indexed {C D : Type} (f : Z -> C -> D) l : forall i,
  List.length (indexed f i l) = List.length l.
Proof. induction l as [|x l IH]; intros i; cbn; [reflexivity | rewrite IH; reflexivity]. Qed.

Lemma xf_scan_generated cs : forall i,
  0 <= i -> Forall xf_valid cs ->
  filter xf_matches (indexed xf_filename i cs) = indexed xf_filename i cs
  /\ xf_decoded (indexed xf_filename i cs) = indexed xf_params_of i cs.
Proof.
  induction cs as [|c cs IH]; intros i Hi Hv; [split; reflexivity|].
  inversion Hv as [|c' l Hc Hrest]; subst.
  destruct (IH (i + 1) ltac:(lia) Hrest) as [IH1 IH2].
  cbn [indexed filter xf_decoded flat_map]. unfold xf_matches at 1.
  rewrite (xf_decode_filename i c Hi Hc). fold (xf_decoded (indexed xf_filename (i + 1) cs)).
  rewrite IH1, IH2. split; reflexivity.
Qed.

Lemma ml_scan_generated cs : forall i,
  0 <= i -> Forall ml_valid cs ->
  filter ml_matches (indexed ml_filename i cs) = indexed ml_filename i cs
  /\ ml_decoded (indexed ml_filename i cs) = indexed ml_params_of i cs.
Proof.
  induction cs as [|c cs IH]; intros i Hi Hv; [split; reflexivity|].
  inversion Hv as [|c' l Hc Hrest]; subst.
  destruct (IH (i + 1) ltac:(lia) Hrest) as [IH1 IH2].
  cbn [indexed filter ml_decoded flat_map]. unfold ml_matches at 1.
  rewrite (ml_decode_filename i c Hi Hc). fold (ml_decoded (indexed ml_filename (i + 1) cs)).
  rewrite IH1, IH2. split; reflexivity.
Qed.

Lemma In_indexed {C D : Type} (f : Z -> C -> D) l : forall i x,
  In x (indexed f i l) ->
  exists k c, nth_error l k = Some c /\ x = f (i + Z.of_nat k) c.
Proof.
  induction l as [|a l IH]; intros i x H; cbn [indexed In] in H; [contradiction|].
  destruct H as [<-|H].
  - exists 0%nat, a. split; [reflexivity|]. f_equal. cbn. lia.
  - apply IH in H. destruct H as (k & c & Hk & ->).
    exists (S k), c. split; [exact Hk|]. f_equal. lia.
Qed.

Lemma nth_error_Forall {A : Type} (P : A -> Prop) l k x :
  Forall P l -> nth_error l k = Some x -> P x.
Proof.
  intros H Hk. rewrite Forall_forall in H. apply H.
  eapply nth_error_In. exact Hk.
Qed.

(** A listing made of generated names only: every name is indexed, with
    the record of the position it was saved under. *)
Lemma xf_listing_decodes configs names :
  Forall xf_valid configs ->
  (forall name, In name names -> In name (indexed xf_filename 0 configs)) ->
  filter xf_matches names = names
  /\ Forall2 (xf_entry_of configs) names (xf_decoded names).
Proof.
  intros Hv. induction names as [|name names IH]; intros Hin.
  - split; [reflexivity | constructor].
  - destruct IH as [IH1 IH2]; [intros n Hn; apply Hin; right; exact Hn|].
    destruct (In_indexed _ _ _ _ (Hin name (or_introl eq_refl)))
      as (k & c & Hk & Hname).
    rewrite Z.add_0_l in Hname.
    pose proof (xf_decode_filename (Z.of_nat k) c ltac:(lia)
                                   (nth_error_Forall _ _ _ _ Hv Hk)) as Hd.
    rewrite <- Hname in Hd.
    cbn [filter xf_decoded flat_map]. unfold xf_matches at 1. rewrite Hd.
    fold (xf_decoded names). rewrite IH1. split; [reflexivity|].
    cbn [app]. constructor; [|exact IH2].
    exists k, c. auto.
Qed.

Lemma ml_listing_decodes configs names :
  Forall ml_valid configs ->
  (forall name, In name names -> In name (indexed ml_filename 0 configs)) ->
  filter ml_matches names = names
  /\ Forall2 (ml_entry_of configs) names (ml_decoded names).
Proof.
  intros Hv. induction names as [|name names IH]; intros Hin.
  - split; [reflexivity | constructor].
  - destruct IH as [IH1 IH2]; [intros n Hn; apply Hin; right; exact Hn|].
    destruct (In_indexed _ _ _ _ (Hin name (or_introl eq_refl)))
      as (k & c & Hk & Hname).
    rewrite Z.add_0_l in Hname.
    pose proof (ml_decode_filename (Z.of_nat k) c ltac:(lia)
                                   (nth_error_Forall _ _ _ _ Hv Hk)) as Hd.
    rewrite <- Hname in Hd.
    cbn [filter ml_decoded flat_map]. unfold ml_matches at 1. rewrite Hd.
    fold (ml_decoded names). rewrite IH1. split; [reflexivity|].
    cbn [app]. constructor; [|exact IH2].
    exists k, c. auto.
Qed.

(** What lies under the output directory after a successful run. *)
Lemma entries_after_save {C : Type} dir (filename : Z -> C -> string)
      (valid : C -> Prop) fs (imgs : list Image) (configs : list C) :
  (forall i c, 0 <= i -> valid c -> no_slash (filename i c) = true) ->
  nothing_under dir fs -> Forall valid configs ->
  List.length imgs = List.length configs ->
  entries_under (with_dir dir fs
                  ++ indexed (saved_entry dir filename) 0 (combine imgs configs))%list
                dir
  = indexed filename 0 configs.
Proof.
  intros Hns Hfresh Hv Hlen.
  rewrite entries_under_app, (entries_under_nothing_under _ _ Hfresh). cbn [app].
  rewrite (entries_under_saved dir filename valid Hns);
    [rewrite map_snd_combine by exact Hlen; reflexivity | lia
     | rewrite map_snd_combine by exact Hlen; exact Hv].
Qed.

(** X15. End to end.  After [generate_and_save] has written a non-empty batch
    into an output directory with nothing under it, the entries of that
    directory are exactly the generated file names.  Whatever order
    [os.listdir] returns them in, the dataset constructed on the directory
    indexes every image once: its file names are the listing, as listed;
    the record at each position is the sampled record of the file named
    at that position, with the position it was generated at as index; the
    records are, up to order, those of the batch; and the count printed is
    [num_images]. *)
Theorem dataset_reads_back_generated_batch
        (Img : Type) (transform : option (Img -> result Img))
        (out : Dataset.console) num_images case_ratio image_size w w' :
  1 <= num_images ->
  (dir_absent_or_dir "training_data" (w_fs w) ->
   nothing_under "training_data" (w_fs w) ->
   generate_and_save "train" num_images case_ratio image_size w = Ok (tt, w') ->
   exists imgs configs,
     generate_xf_dataset num_images case_ratio image_size (w_rng w)
     = Ok (imgs, configs, w_rng w')
     /\ List.length configs = Z.to_nat num_images
     /\ os_listdir_result (w_fs w') "training_data"
                          (indexed xf_filename 0 configs)
     /\ forall os_listdir names,
         os_listdir "training_data" = Ok names ->
         os_listdir_result (w_fs w') "training_data" names ->
         Permutation names (indexed xf_filename 0 configs)
         /\ Dataset.CrossFinDataset_init
              Img os_listdir "training_data" transform out
            = Ok (Dataset.mk_CrossFinDataset
                    Img "training_data" transform names (xf_decoded names),
                  (out ++ [("Found " ++ str num_images
                             ++ " CrossFin images in training_data")%string])%list)
         /\ Forall2 (xf_entry_of configs) names (xf_decoded names)
         /\ Permutation (xf_decoded names) (indexed xf_params_of 0 configs))
  /\ (dir_absent_or_dir "test_data" (w_fs w) ->
      nothing_under "test_data" (w_fs w) ->
      generate_and_save "test" num_images case_ratio image_size w = Ok (tt, w') ->
      exists imgs configs,
        generate_muller_lyer_dataset num_images case_ratio image_size (w_rng w)
        = Ok (imgs, configs, w_rng w')
        /\ List.length configs = Z.to_nat num_images
        /\ os_listdir_result (w_fs w') "test_data"
                             (indexed ml_filename 0 configs)
        /\ forall os_listdir names,
            os_listdir "test_data" = Ok names ->
            os_listdir_result (w_fs w') "test_data" names ->
            Permutation names (indexed ml_filename 0 configs)
            /\ Dataset.MullerLyerDataset_init
                 Img os_listdir "test_data" transform out
               = Ok (Dataset.mk_MullerLyerDataset
                       Img "test_data" transform names (ml_decoded names),
                     ((out ++ ["Scanning directory: test_data"])
                        ++ [("Found " ++ str num_images ++ " "
                               ++ Dataset.Muller_Lyer ++ " images.")%string])%list)
            /\ Forall2 (ml_entry_of configs) names (ml_decoded names)
            /\ Permutation (ml_decoded names) (indexed ml_params_of 0 configs)).
Proof.
  intros Hn. split; intros Hdir Hfresh Hsave.
  - destruct (generate_xf_dataset num_images case_ratio image_size (w_rng w))
      as [[[imgs configs] t']|e] eqn:Hg.
    2:{ unfold generate_and_save in Hsave.
        cbn [String.eqb Ascii.eqb Bool.eqb] in Hsave.
        unfold bind at 1, with_rng in Hsave. rewrite Hg in Hsave. discriminate. }
    rewrite (train_effect _ _ _ _ _ _ _ Hg Hdir Hfresh) in Hsave.
    inversion Hsave; subst w'; clear Hsave. cbn [w_rng w_fs].
    pose proof Hg as Hlen. unfold generate_xf_dataset in Hlen.
    apply xf_loop_length in Hlen. destruct Hlen as [L1 L2]. cbn in L1, L2.
    pose proof Hg as Hv. unfold generate_xf_dataset in Hv.
    apply xf_loop_valid in Hv; [|constructor].
    pose proof (entries_after_save "training_data" xf_filename xf_valid (w_fs w)
                                   imgs configs xf_filename_no_slash Hfresh Hv
                                   ltac:(lia)) as Hls.
    exists imgs, configs. split; [reflexivity|]. split; [exact L2|].
    unfold os_listdir_result. rewrite Hls. split; [apply Permutation_refl|].
    intros os_listdir names Hos Hperm.
    destruct (xf_scan_generated configs 0 ltac:(lia) Hv) as [_ Hd].
    destruct (xf_listing_decodes configs names Hv) as [Hf HF].
    { intros name Hin. eapply Permutation_in; [exact Hperm | exact Hin]. }
    split; [exact Hperm|]. split; [|split; [exact HF|]].
    + unfold Dataset.CrossFinDataset_init, bind, Dataset.lift.
      rewrite Hos, xf_scan_spec. cbn [app]. rewrite Hf.
      pose proof (Permutation_length Hperm) as Hl.
      rewrite length_indexed in Hl.
      destruct names as [|name names]; [cbn in Hl; lia|].
      unfold Dataset.print, ret.
      replace (Z.of_nat (List.length (name :: names))) with num_images by lia.
      reflexivity.
    + rewrite <- Hd. unfold xf_decoded. apply Permutation_flat_map. exact Hperm.
  - destruct (generate_muller_lyer_dataset num_images case_ratio image_size
                                           (w_rng w))
      as [[[imgs configs] t']|e] eqn:Hg.
    2:{ unfold generate_and_save in Hsave.
        cbn [String.eqb Ascii.eqb Bool.eqb] in Hsave.
        unfold bind at 1, with_rng in Hsave. rewrite Hg in Hsave. discriminate. }
    rewrite (test_effect _ _ _ _ _ _ _ Hg Hdir Hfresh) in Hsave.
    inversion Hsave; subst w'; clear Hsave. cbn [w_rng w_fs].
    pose proof Hg as Hlen. unfold generate_muller_lyer_dataset in Hlen.
    apply ml_loop_length in Hlen. destruct Hlen as [L1 L2]. cbn in L1, L2.
    pose proof Hg as Hv. unfold generate_muller_lyer_dataset in Hv.
    apply ml_loop_valid in Hv; [|constructor].
    pose proof (entries_after_save "test_data" ml_filename ml_valid (w_fs w)
                                   imgs configs ml_filename_no_slash Hfresh Hv
                                   ltac:(lia)) as Hls.
    exists imgs, configs. split; [reflexivity|]. split; [exact L2|].
    unfold os_listdir_result. rewrite Hls. split; [apply Permutation_refl|].
    intros os_listdir names Hos Hperm.
    destruct (ml_scan_generated configs 0 ltac:(lia) Hv) as [_ Hd].
    destruct (ml_listing_decodes configs names Hv) as [Hf HF].
    { intros name Hin. eapply Permutation_in; [exact Hperm | exact Hin]. }
    split; [exact Hperm|]. split; [|split; [exact HF|]].
    + unfold Dataset.MullerLyerDataset_init, bind, Dataset.lift, Dataset.print.
      rewrite Hos, ml_scan_spec. cbn [app]. rewrite Hf.
      pose proof (Permutation_length Hperm) as Hl.
      rewrite length_indexed in Hl.
      destruct names as [|name names]; [cbn in Hl; lia|].
      unfold ret.
      replace (Z.of_nat (List.length (name :: names))) with num_images by lia.
      reflexivity.
    + rewrite <- Hd. unfold ml_decoded. apply Permutation_flat_map. exact Hperm.
Qed.

Lemma dataset_reads_back_generated_batch_witness :
  exists w' imgs configs,
    generate_and_save "train" 2 [1; 1; 1; 1; 1; 2] 256 (mkWorld tape_label1 [])
    = Ok (tt, w')
    /\ generate_xf_dataset 2 [1; 1; 1; 1; 1; 2] 256 tape_label1
       = Ok (imgs, configs, w_rng w')
    /\ Dataset.CrossFinDataset_init
         Z (fun _ => Ok (rev (entries_under (w_fs w') "training_data")))
         "training_data" None []
       = Ok (Dataset.mk_CrossFinDataset
               Z "training_data" None
               (rev (entries_under (w_fs w') "training_data"))
               (xf_decoded (rev (entries_under (w_fs w') "training_data"))),
             ["Found 2 CrossFin images in training_data"])
    /\ Permutation (xf_decoded (rev (entries_under (w_fs w') "training_data")))
                   (indexed xf_params_of 0 configs).
Proof.
  destruct (generate_and_save "train" 2 [1; 1; 1; 1; 1; 2] 256
                              (mkWorld tape_label1 []))
    as [[[] w']|e] eqn:E; [|vm_compute in E; discriminate].
  destruct (proj1 (dataset_reads_back_generated_batch
                     Z None [] 2 [1; 1; 1; 1; 1; 2] 256
                     (mkWorld tape_label1 []) w' ltac:(lia))
                  (or_introl eq_refl) (Forall_nil _) E)
    as (imgs & configs & Hg & _ & _ & Hinit).
  destruct (Hinit (fun _ => Ok (rev (entries_under (w_fs w') "training_data")))
                  (rev (entries_under (w_fs w') "training_data")) eq_refl
                  (Permutation_sym (Permutation_rev _)))
    as (_ & Hi & _ & Hp).
  exists w', imgs, configs. split; [reflexivity|]. split; [exact Hg|].
  split; [exact Hi | exact Hp].
Defined.



End GenerateAndRead.

(** * More on lengths and on file names *)

Section LengthsAndNames.

Import data_generation.

(** X17. The two Cross-Fin shafts differ by at most 62 pixels, and, in a
    [label = 1] record, by at least 2 unless the shorter shaft sits at the
    minimum length 45. *)
Theorem shaft_difference_bounds label lc fc size t img r t' :
  generate_xf_image label lc fc size t = Ok (img, r, t') ->
  Z.abs (xf_top_length r - xf_bottom_length r) <= 62
  /\ (xf_label r = 1 ->
      2 <= Z.abs (xf_top_length r - xf_bottom_length r)
      \/ Z.min (xf_top_length r) (xf_bottom_length r) = 45).
Proof.
  intros H. apply generate_xf_image_spec in H.
  destruct H as ((t1 & t2 & Hs) & Hl & _).
  apply xf_shaft_lengths_spec in Hs.
  destruct Hs as [(_ & _ & _ & Hp & d & Hd & Ho)
                 |[(_ & _ & _ & Hp & d & Hd & Ho)
                  |(L & _ & Hp & Ho)]]; rewrite Ho; split; lia.
Qed.

Lemma shaft_difference_bounds_witness :
  Z.abs (xf_top_length xf_long_same - xf_bottom_length xf_long_same) <= 62
  /\ (xf_label xf_long_same = 1 ->
      2 <= Z.abs (xf_top_length xf_long_same - xf_bottom_length xf_long_same)
      \/ Z.min (xf_top_length xf_long_same) (xf_bottom_length xf_long_same) = 45).
Proof.
  eapply (shaft_difference_bounds 1 "LONG" "SAME_CONFIG" 256 tape_long_same).
  vm_compute. reflexivity.
Defined.

Import re Dataset.

Ltac ilit H s := apply exec_lit_inv in H; destruct H as (s & -> & H).
Ltac idig H d s Hd :=
  apply exec_digits_inv in H; destruct H as (d & s & -> & Hd & H).
Ltac ialt H a s Ha :=
  apply exec_alt_inv in H; destruct H as (a & s & Ha & -> & H).

Lemma int_zero_prefix d : digit_run d -> int (String "0" d) = int d.
Proof.
  intros [Hd Hne]. unfold int. destruct d as [|c d]; [contradiction|].
  cbn [all_digits] in *. rewrite Hd. cbn. reflexivity.
Qed.

(** A match of the Cross-Fin pattern with the text after the tag cut
    after the index digits. *)
Lemma xf_match_after_tag rest m :
  match_ xf_pattern ("xf_" ++ rest) = Some m ->
  exists d1 tail gs,
    rest = d1 ++ tail /\ m = d1 :: gs /\ digit_run d1
    /\ match_ xf_pattern ("xf_" ++ String "0" d1 ++ tail)
       = Some (String "0" d1 :: gs).
Proof.
  intros H. unfold match_, xf_pattern in H.
  change (exec (Bos :: ?p) 0 ("xf_" ++ rest) [])
    with (exec p 0 ("xf_" ++ rest) []) in H.
  apply exec_lit_inv in H. destruct H as (s1 & Hs1 & H).
  apply append_inj_l in Hs1. subst s1.
  idig H d1 s2 H1. ilit H s3.
  apply exec_oneof_inv in H. destruct H as (c & s4 & -> & Hc & H).
  ilit H s5. ialt H lc s6 Hlc. ilit H s7. ialt H fc s8 Hfc. ilit H s9.
  idig H d5 s10 H5. ilit H s11. idig H d6 s12 H6. ilit H s13.
  idig H d7 s14 H7. ilit H s15. idig H d8 s16 H8. ilit H s17.
  idig H d9 s18 H9. ilit H s19. idig H d10 s20 H10. ilit H s21.
  idig H d11 s22 H11. ilit H s23. idig H d12 s24 H12. ilit H nl.
  apply exec_eos_inv in H. destruct H as [Hnl ->]. cbn [app].
  eexists d1, _, _. split; [reflexivity|]. split; [reflexivity|].
  split; [exact H1|].
  change ("xf_" ++ String "0" d1 ++ ?t) with ("xf_" ++ (String "0" d1) ++ t).
  apply xf_match_shape; try assumption.
  - destruct H1 as [Hd Hne]. split; [cbn; exact Hd | discriminate].
  - cbn in Hc. destruct Hc as [<- | [<- | []]]; auto.
  - cbn in Hlc. intuition auto.
  - cbn in Hfc. intuition auto.
Qed.

Lemma ml_match_after_tag rest m :
  match_ ml_pattern ("ml_" ++ rest) = Some m ->
  exists d1 tail gs,
    rest = d1 ++ tail /\ m = d1 :: gs /\ digit_run d1
    /\ match_ ml_pattern ("ml_" ++ String "0" d1 ++ tail)
       = Some (String "0" d1 :: gs).
Proof.
  intros H. unfold match_, ml_pattern in H.
  change (exec (Bos :: ?p) 0 ("ml_" ++ rest) [])
    with (exec p 0 ("ml_" ++ rest) []) in H.
  apply exec_lit_inv in H. destruct H as (s1 & Hs1 & H).
  apply append_inj_l in Hs1. subst s1.
  idig H d1 s2 H1. ilit H s3.
  apply exec_oneof_inv in H. destruct H as (c & s4 & -> & Hc & H).
  ilit H s5. ialt H td s6 Htd. ilit H s7. ialt H bd s8 Hbd. ilit H s9.
  ialt H fc s10 Hfc. ilit H s11.
  idig H d6 s12 H6. ilit H s13.
  idig H d7 s14 H7. ilit H s15. idig H d8 s16 H8. ilit H s17.
  idig H d9 s18 H9. ilit H s19. idig H d10 s20 H10. ilit H s21.
  idig H d11 s22 H11. ilit H s23. idig H d12 s24 H12. ilit H nl.
  apply exec_eos_inv in H. destruct H as [Hnl ->]. cbn [app].
  eexists d1, _, _. split; [reflexivity|]. split; [reflexivity|].
  split; [exact H1|].
  change ("ml_" ++ String "0" d1 ++ ?t) with ("ml_" ++ (String "0" d1) ++ t).
  apply ml_match_shape; try assumption.
  - destruct H1 as [Hd Hne]. split; [cbn; exact Hd | discriminate].
  - cbn in Hc. destruct Hc as [<- | [<- | []]]; auto.
  - cbn in Htd. intuition auto.
  - cbn in Hbd. intuition auto.
  - cbn in Hfc. intuition auto.
Qed.

(** X18. The index is read with [int], which ignores leading zeros: whenever
    a name decodes, the name with a zero put in front of its index decodes
    to the same record, stored under the other file name.  Distinct files
    can therefore carry the same index and parameters. *)
Theorem zero_padded_index_decodes_alike rest :
  (forall p,
      xf_decode ("xf_" ++ rest) = Some (Ok p) ->
      xf_decode ("xf_0" ++ rest)
      = Some (Ok (mk_xf_params
                    (xf_index p) (xf_label p) (xf_length_case p) (xf_fin_case p)
                    (xf_top_length p) (xf_bottom_length p)
                    (xf_top_fin_length p) (xf_top_fin_angle p)
                    (xf_bot_fin_length p) (xf_bot_fin_angle p)
                    (xf_top_y p) (xf_bottom_y p) ("xf_0" ++ rest))))
  /\ (forall p,
         ml_decode ("ml_" ++ rest) = Some (Ok p) ->
         ml_decode ("ml_0" ++ rest)
         = Some (Ok (mk_ml_params
                       (ml_index p) (ml_label p) (ml_top_dir p) (ml_bottom_dir p)
                       (ml_fin_case p) (ml_shaft_len p)
                       (ml_top_fin_len p) (ml_top_fin_ang p)
                       (ml_bot_fin_len p) (ml_bot_fin_ang p)
                       (ml_top_y p) (ml_bottom_y p) ("ml_0" ++ rest)))).
Proof.
  split; intros p H.
  - unfold xf_decode in *.
    destruct (match_ xf_pattern ("xf_" ++ rest)) as [m|] eqn:E; [|discriminate].
    apply xf_match_after_tag in E.
    destruct E as (d1 & tail & gs & -> & -> & H1 & E).
    change ("xf_0" ++ d1 ++ tail) with ("xf_" ++ String "0" d1 ++ tail).
    rewrite E. inversion H as [Hb]; clear H. f_equal.
    unfold xf_build, group in *. cbn [nth Nat.sub] in *.
    rewrite (int_zero_prefix d1 H1).
    repeat match type of Hb with
           | context [match int ?x with _ => _ end] =>
             destruct (int x); try discriminate Hb
           end.
    inversion Hb. reflexivity.
  - unfold ml_decode in *.
    destruct (match_ ml_pattern ("ml_" ++ rest)) as [m|] eqn:E; [|discriminate].
    apply ml_match_after_tag in E.
    destruct E as (d1 & tail & gs & -> & -> & H1 & E).
    change ("ml_0" ++ d1 ++ tail) with ("ml_" ++ String "0" d1 ++ tail).
    rewrite E. inversion H as [Hb]; clear H. f_equal.
    unfold ml_build, group in *. cbn [nth Nat.sub] in *.
    rewrite (int_zero_prefix d1 H1).
    repeat match type of Hb with
           | context [match int ?x with _ => _ end] =>
             destruct (int x); try discriminate Hb
           end.
    inversion Hb. reflexivity.
Qed.

Lemma zero_padded_index_decodes_alike_witness :
  xf_decode "xf_00_1_LONG_DIFF_CONFIG_120_115_15_45_18_50_60_200.png"
  = Some (Ok (mk_xf_params
                0 1 "LONG" "DIFF_CONFIG" 120 115 15 45 18 50 60 200
                "xf_00_1_LONG_DIFF_CONFIG_120_115_15_45_18_50_60_200.png")).
Proof.
  exact (proj1 (zero_padded_index_decodes_alike
                  "0_1_LONG_DIFF_CONFIG_120_115_15_45_18_50_60_200.png")
               (mk_xf_params
                  0 1 "LONG" "DIFF_CONFIG" 120 115 15 45 18 50 60 200 xf_plain_name)
               eq_refl).
Defined.

End LengthsAndNames.
